(** * superbench.analyzer: result summary and raw-data loading

    A shallow embedding of [superbench/analyzer/result_summary.py] and of
    [read_raw_data], [read_rules], [merge_column_in_excel] and the markdown
    and html writers from [superbench/analyzer/file_handler.py].

    Python objects that are shared and mutated (the rule dictionaries of the
    YAML document) live in a heap; everything that is only read or that is
    owned by the [ResultSummary] instance is a plain value.  Exceptions,
    the logger and the instance attributes are threaded by a state and
    exception monad.  pandas, re, jsonlines and yaml are libraries outside
    the repository: the operations the code uses are modelled by their
    documented behaviour, floats being read as exact rationals. *)

From Stdlib Require Import ZArith QArith Qround Qabs Lqa Ascii String List Lia Bool.
From Stdlib Require Import Sorted Permutation.
From stdpp Require Import base option list gmap strings pretty.

Set Warnings "-register-all".

Local Open Scope string_scope.
Local Open Scope list_scope.
Local Open Scope Z_scope.

(** ** Python values *)

Abbreviation loc := positive.

(** Values a YAML document can hold.  Dictionaries are objects of the heap
    and are held by reference; lists of the document are never mutated by
    the code and are held by value. *)
Inductive value : Type :=
| VNone
| VBool (b : bool)
| VInt (z : Z)
| VStr (s : string)
| VList (l : list value)
| VRef (l : loc).

(** A Python [dict] with string keys: insertion ordered, keys unique. *)
Abbreviation dict := (list (string * value)).

Fixpoint dict_get {A} (d : list (string * A)) (k : string) : option A :=
  match d with
  | [] => None
  | (k', v) :: d' => if String.eqb k' k then Some v else dict_get d' k
  end.

(** [d[k] = v]: an existing key keeps its position, a new key goes last. *)
Fixpoint dict_set {A} (d : list (string * A)) (k : string) (v : A)
  : list (string * A) :=
  match d with
  | [] => [(k, v)]
  | (k', v') :: d' =>
      if String.eqb k' k then (k', v) :: d' else (k', v') :: dict_set d' k v
  end.

Definition dict_mem {A} (d : list (string * A)) (k : string) : bool :=
  match dict_get d k with Some _ => true | None => false end.

Definition dict_keys {A} (d : list (string * A)) : list string := map fst d.

Abbreviation heap := (gmap loc dict).

(** ** Statistic kinds *)

(** Modelled from the spec: [superbench/analyzer/summary_op.py] is missing;
    its enumeration [SummaryType] holds the built-in statistics of the
    statistic registry (mean, standard deviation, min, max, count,
    percentile).  The source constructs members by value, as in
    [SummaryType('percentile')]. *)
Inductive SummaryType : Type := MEAN | PERCENTILE | MIN | MAX | STD | COUNT.

(** ** Exceptions *)

(** The exceptions the code can raise.  [Exception] is what
    [logger.log_and_raise(exception=Exception, msg=...)] raises; the
    built-in ones come from the interpreter and from the libraries.
    [InvalidLineError] is the one of jsonlines, with the message the reader
    gives for the line and the number of the line.  The last two are the
    failures the specification names for the parts of the repository that
    are modelled from it. *)
Inductive exn : Type :=
| Exception (msg : string)
| TypeError (msg : string)
| ValueError (msg : string)
| KeyError (key : string)
| OSError (msg : string)
| InvalidLineError (message : string) (lineno : nat)
| NoMatchingMetrics (rule : string)
| EmptyColumnReduction (metric : string) (statistic : SummaryType) (val : option Z).

(** [str(e)] *)
Definition str_exn (e : exn) : string :=
  match e with
  | Exception m | TypeError m | ValueError m | OSError m => m
  | KeyError k => "'" +:+ k +:+ "'"
  | InvalidLineError message lineno =>
      message +:+ " (line " +:+ pretty lineno +:+ ")"
  | NoMatchingMetrics r => r +:+ " no matching metrics"
  | EmptyColumnReduction m _ _ => "no data to reduce in column " +:+ m
  end.

Inductive result (A : Type) : Type :=
| Ok (a : A)
| Raise (e : exn).
Arguments Ok {A} a.
Arguments Raise {A} e.

(** ** Strings *)

Definition startswith (s prefix : string) : bool := String.prefix prefix s.

Fixpoint lstrip (c : ascii) (s : string) : string :=
  match s with
  | String a s' => if Ascii.eqb a c then lstrip c s' else s
  | EmptyString => EmptyString
  end.

Fixpoint string_rev_acc (s acc : string) : string :=
  match s with
  | EmptyString => acc
  | String a s' => string_rev_acc s' (String a acc)
  end.

Definition string_rev (s : string) : string := string_rev_acc s EmptyString.

(** [s.strip(c)] for a one-character argument: drops [c] at both ends. *)
Definition strip (c : ascii) (s : string) : string :=
  string_rev (lstrip c (string_rev (lstrip c s))).

Definition is_digit (a : ascii) : bool :=
  let n := N_of_ascii a in (48 <=? n)%N && (n <=? 57)%N.

Definition digit_val (a : ascii) : Z := Z.of_N (N_of_ascii a) - 48.

Definition is_space (a : ascii) : bool :=
  let n := N_of_ascii a in
  (n =? 32)%N || ((9 <=? n)%N && (n <=? 13)%N) || ((28 <=? n)%N && (n <=? 31)%N).

Fixpoint lstrip_space (s : string) : string :=
  match s with
  | String a s' => if is_space a then lstrip_space s' else s
  | EmptyString => EmptyString
  end.

Definition strip_space (s : string) : string :=
  string_rev (lstrip_space (string_rev (lstrip_space s))).

(** Digits of a decimal literal, most significant first; single underscores
    are allowed between digits.  [prev_digit] tells whether the previous
    character was a digit. *)
Fixpoint int_digits (s : string) (acc : Z) (prev_digit : bool) : option Z :=
  match s with
  | EmptyString => if prev_digit then Some acc else None
  | String a s' =>
      if is_digit a then int_digits s' (10 * acc + digit_val a) true
      else if Ascii.eqb a "_" && prev_digit then
             match s' with
             | String b _ => if is_digit b then int_digits s' acc false else None
             | EmptyString => None
             end
           else None
  end.

(** [int(s)] on a string: surrounding white space, an optional sign,
    decimal digits.  [None] is [ValueError]. *)
Definition int_of_str (s : string) : option Z :=
  match strip_space s with
  | String "+" s' => int_digits s' 0 false
  | String "-" s' => option_map Z.opp (int_digits s' 0 false)
  | s' => int_digits s' 0 false
  end.

(** ** Regular expressions

    The two patterns that occur literally in the source are embedded as
    abstract syntax and run by Brzozowski derivatives.  Strings are
    sequences of bytes, and [\d] is read as an ASCII digit. *)

Inductive charset : Type :=
| CLit (a : ascii)        (* a literal character *)
| CDigit                  (* \d *)
| CDot                    (* . : anything but a newline *)
| CAny.                   (* any character *)

Definition newline : ascii := "010"%char.

Definition in_charset (c : charset) (a : ascii) : bool :=
  match c with
  | CLit b => Ascii.eqb a b
  | CDigit => is_digit a
  | CDot => negb (Ascii.eqb a newline)
  | CAny => true
  end.

Inductive regex : Type :=
| RNone
| REps
| RChar (c : charset)
| RSeq (r1 r2 : regex)
| RAlt (r1 r2 : regex)
| RStar (r : regex).

Definition ROpt (r : regex) : regex := RAlt r REps.

Fixpoint nullable (r : regex) : bool :=
  match r with
  | RNone => false
  | REps => true
  | RChar _ => false
  | RSeq r1 r2 => nullable r1 && nullable r2
  | RAlt r1 r2 => nullable r1 || nullable r2
  | RStar _ => true
  end.

Fixpoint deriv (a : ascii) (r : regex) : regex :=
  match r with
  | RNone => RNone
  | REps => RNone
  | RChar c => if in_charset c a then REps else RNone
  | RSeq r1 r2 =>
      if nullable r1 then RAlt (RSeq (deriv a r1) r2) (deriv a r2)
      else RSeq (deriv a r1) r2
  | RAlt r1 r2 => RAlt (deriv a r1) (deriv a r2)
  | RStar r' => RSeq (deriv a r') (RStar r')
  end.

Fixpoint re_matches (r : regex) (s : string) : bool :=
  match s with
  | EmptyString => nullable r
  | String a s' => re_matches (deriv a r) s'
  end.

(** [re.fullmatch(r, s)] and [re.search(r, s)], as truth values. *)
Definition re_fullmatch (r : regex) (s : string) : bool := re_matches r s.

Definition re_search (r : regex) (s : string) : bool :=
  re_matches (RSeq (RStar (RChar CAny)) (RSeq r (RStar (RChar CAny)))) s.

(** r'p\d\d?' *)
Definition pat_percentile : regex :=
  RSeq (RChar (CLit "p")) (RSeq (RChar CDigit) (ROpt (RChar CDigit))).

(** r'\(.*\)' *)
Definition pat_group : regex :=
  RSeq (RChar (CLit "(")) (RSeq (RStar (RChar CDot)) (RChar (CLit ")"))).

(** ** Data frames *)

(** A cell of a pandas frame: a float (read as a rational), a string, or a
    missing value. *)
Inductive cell : Type :=
| NaN
| Num (q : Q)
| Str (s : string).

(** A frame is its column labels and its rows, each row carrying its index
    label and one cell per column. *)
Record DataFrame : Type := mkDF {
  df_columns : list string;
  df_rows : list (cell * list cell)
}.

(** A [Series] indexed by column label. *)
Definition Series := list (string * cell).

Definition df_empty : DataFrame := mkDF [] [].

Definition df_index (df : DataFrame) : list cell := map fst (df_rows df).

Definition mem_string (x : string) (l : list string) : bool :=
  existsb (String.eqb x) l.

Fixpoint position (x : string) (l : list string) : option nat :=
  match l with
  | [] => None
  | y :: l' => if String.eqb y x then Some O else option_map S (position x l')
  end.

Definition cell_at (cols : list string) (row : list cell) (c : string) : cell :=
  match position c cols with
  | Some i => nth i row NaN
  | None => NaN
  end.

(** [df[c]] for one label: the column, or [KeyError]. *)
Definition df_column (df : DataFrame) (c : string) : result (list cell) :=
  match position c (df_columns df) with
  | Some i => Ok (map (fun r => nth i (snd r) NaN) (df_rows df))
  | None => Raise (KeyError c)
  end.

(** [df[cs]] for a list of labels: the projection, or [KeyError] at the
    first label that is no column. *)
Definition df_select (df : DataFrame) (cs : list string) : result DataFrame :=
  match filter (fun c => negb (mem_string c (df_columns df))) cs with
  | c :: _ => Raise (KeyError c)
  | [] =>
      Ok (mkDF cs
            (map (fun r => (fst r, map (cell_at (df_columns df) (snd r)) cs))
                 (df_rows df)))
  end.

(** [str] order of Python: by code point, the shorter first on a tie. *)
Definition str_le (a b : string) : bool := String.leb a b.

Fixpoint insert_sorted (x : string) (l : list string) : list string :=
  match l with
  | [] => [x]
  | y :: l' => if str_le x y then x :: l else y :: insert_sorted x l'
  end.

(** [sorted(l)] on strings. *)
Definition sorted (l : list string) : list string :=
  fold_right insert_sorted [] l.

Fixpoint relabel (n : nat) (rows : list (cell * list cell))
  : list (cell * list cell) :=
  match rows with
  | [] => []
  | r :: rows' => (Num (inject_Z (Z.of_nat n)), snd r) :: relabel (S n) rows'
  end.

(** [df.append(record, ignore_index=True)]: the keys of the record that are
    no column yet become columns, after the old ones and in the order of
    the record (pandas from 1.4 on; earlier versions sort them, and no
    statement below depends on that order), old rows are padded with NaN,
    the record becomes the last row and the rows are numbered anew. *)
Definition df_append_record (df : DataFrame) (rec : list (string * cell))
  : DataFrame :=
  let fresh :=
    filter (fun k => negb (mem_string k (df_columns df))) (dict_keys rec) in
  let cols := df_columns df ++ fresh in
  let pad := map (fun _ : string => NaN) fresh in
  let old := map (fun r => (fst r, snd r ++ pad)) (df_rows df) in
  let row :=
    map (fun c => match dict_get rec c with Some v => v | None => NaN end) cols in
  mkDF cols (relabel O (old ++ [(NaN, row)])).

(** [df.rename(labels)] for a series [labels] that has the index of [df]:
    each row takes the cell of [labels] at its place as its label. *)
Fixpoint relabel_with (labels : list cell) (rows : list (cell * list cell))
  : list (cell * list cell) :=
  match labels, rows with
  | l :: labels', r :: rows' => (l, snd r) :: relabel_with labels' rows'
  | _, _ => rows
  end.

Definition df_rename (df : DataFrame) (labels : list cell) : DataFrame :=
  mkDF (df_columns df) (relabel_with labels (df_rows df)).

Fixpoint remove_nth {A} (i : nat) (l : list A) : list A :=
  match i, l with
  | _, [] => []
  | O, _ :: l' => l'
  | S i', x :: l' => x :: remove_nth i' l'
  end.

(** [df.drop(columns=[c])] *)
Definition df_drop_column (df : DataFrame) (c : string) : result DataFrame :=
  match position c (df_columns df) with
  | Some i =>
      Ok (mkDF (remove_nth i (df_columns df))
            (map (fun r => (fst r, remove_nth i (snd r))) (df_rows df)))
  | None => Raise (KeyError c)
  end.

Definition cell_eqb (a b : cell) : bool :=
  match a, b with
  | Num p, Num q => Qeq_bool p q
  | Str s, Str t => String.eqb s t
  | _, _ => false
  end.

(** [df.loc[label] = series]: the series is aligned on the columns; an
    existing label has its row replaced, a new one is added last.  A frame
    without columns refuses the assignment. *)
Definition df_loc_set (df : DataFrame) (label : cell) (s : Series)
  : result DataFrame :=
  match df_columns df with
  | [] => Raise (ValueError "cannot set a frame with no defined columns")
  | _ =>
      let row :=
        map (fun c => match dict_get s c with Some v => v | None => NaN end)
            (df_columns df) in
      if existsb (cell_eqb label) (df_index df)
      then Ok (mkDF (df_columns df)
                 (map (fun r => if cell_eqb label (fst r) then (fst r, row) else r)
                      (df_rows df)))
      else Ok (mkDF (df_columns df) (df_rows df ++ [(label, row)]))
  end.

(** [df.loc[label, column]] on a frame whose labels are present. *)
Definition df_loc (df : DataFrame) (label : cell) (c : string) : cell :=
  match find (fun r => cell_eqb label (fst r)) (df_rows df) with
  | Some r => cell_at (df_columns df) (snd r) c
  | None => NaN
  end.

(** Rounding to the nearest integer, ties to even. *)
Definition round_half_even (q : Q) : Z :=
  let f := Qfloor q in
  match Qcompare (q - inject_Z f) (1 # 2) with
  | Lt => f
  | Gt => f + 1
  | Eq => if Z.even f then f else f + 1
  end.

(** [round(q, 6)] as numpy computes it, [rint(q * 10**6) / 10**6] with
    [rint] rounding halves to even, in exact arithmetic and in lowest terms.
    A float is read as the rational number it is: the float written
    [8.0000005] is 4503599908845473 / 2**49, above the half, and its
    rounding is 8.000001. *)
Definition round6 (q : Q) : Q :=
  Qred (round_half_even (q * inject_Z 1000000) # 1000000).

Definition round_cell (c : cell) : cell :=
  match c with
  | Num q => Num (round6 q)
  | _ => c
  end.

(** [df.round(6)] *)
Definition df_round (df : DataFrame) : DataFrame :=
  mkDF (df_columns df) (map (fun r => (fst r, map round_cell (snd r))) (df_rows df)).

(** ** State of a run *)

Inductive level : Type := LError | LWarning | LInfo.

(** One entry of [self._sb_rules]. *)
Record sb_rule : Type := mkRule {
  r_name : string;
  r_categories : value;
  r_metrics : dict;
  r_statistics : value;
  r_aggregate : value
}.

(** A summary line [[category, metric, statistic, value]]. *)
Definition line : Type := value * string * cell * cell.

(** The summary dictionary: category to lines, in insertion order. *)
Definition summary_dict : Type := list (value * list line).

(** What the presentation layer is handed. *)
Inductive output : Type :=
| OutExcel (path : string) (raw : DataFrame) (summary_df : list line)
| OutMd (path : string) (summary : summary_dict)
| OutHtml (path : string) (summary : summary_dict).

Record state : Type := mkState {
  st_heap : heap;
  st_sb_rules : list (string * sb_rule);
  st_enable_metrics : list string;
  st_raw_data_df : DataFrame;
  st_log : list (level * string);
  st_out : list output
}.

(** ** The state and exception monad *)

Definition M (A : Type) : Type := state -> result A * state.

Definition ret {A} (a : A) : M A := fun s => (Ok a, s).

Definition bind {A B} (m : M A) (f : A -> M B) : M B :=
  fun s =>
    match m s with
    | (Ok a, s') => f a s'
    | (Raise e, s') => (Raise e, s')
    end.

Definition raise {A} (e : exn) : M A := fun s => (Raise e, s).

(** [try: m except Exception as e: h e]; the state reached at the raise is
    kept. *)
Definition try_except {A} (m : M A) (h : exn -> M A) : M A :=
  fun s =>
    match m s with
    | (Ok a, s') => (Ok a, s')
    | (Raise e, s') => h e s'
    end.

Definition lift {A} (r : result A) : M A := fun s => (r, s).

Notation "'let*' x ':=' m 'in' k" := (bind m (fun x => k))
  (at level 10, x name, m at level 100, k at level 200).
Notation "m ';;' k" := (bind m (fun _ => k))
  (at level 100, k at level 200, right associativity).

Definition get_heap : M heap := fun s => (Ok (st_heap s), s).

Definition set_heap (h : heap) : M unit :=
  fun s => (Ok tt, mkState h (st_sb_rules s) (st_enable_metrics s)
                     (st_raw_data_df s) (st_log s) (st_out s)).

Definition logger (lv : level) (msg : string) : M unit :=
  fun s => (Ok tt, mkState (st_heap s) (st_sb_rules s) (st_enable_metrics s)
                     (st_raw_data_df s) (st_log s ++ [(lv, msg)]) (st_out s)).

(** [logger.log_and_raise(exception=Exception, msg=msg)] *)
Definition log_and_raise {A} (msg : string) : M A :=
  logger LError msg ;; raise (Exception msg).

Definition emit (o : output) : M unit :=
  fun s => (Ok tt, mkState (st_heap s) (st_sb_rules s) (st_enable_metrics s)
                     (st_raw_data_df s) (st_log s) (st_out s ++ [o])).

Fixpoint for_each {A} (l : list A) (body : A -> M unit) : M unit :=
  match l with
  | [] => ret tt
  | x :: l' => body x ;; for_each l' body
  end.

(** ** Python operations on values *)

(** Truth value of an object. *)
Definition truthy (h : heap) (v : value) : bool :=
  match v with
  | VNone => false
  | VBool b => b
  | VInt z => negb (z =? 0)
  | VStr s => negb (String.eqb s "")
  | VList l => match l with [] => false | _ => true end
  | VRef l => match h !! l with Some [] => false | _ => true end
  end.

Fixpoint is_substring (sub s : string) : bool :=
  String.prefix sub s ||
  match s with
  | EmptyString => false
  | String _ s' => is_substring sub s'
  end.

Definition is_str (k : string) (v : value) : bool :=
  match v with VStr s => String.eqb s k | _ => false end.

(** [k in v] for a string [k]. *)
Definition contains (v : value) (k : string) : M bool :=
  fun s =>
    match v with
    | VRef l =>
        match st_heap s !! l with
        | Some d => (Ok (dict_mem d k), s)
        | None => (Raise (TypeError "dangling reference"), s)
        end
    | VStr t => (Ok (is_substring k t), s)
    | VList l => (Ok (existsb (is_str k) l), s)
    | _ => (Raise (TypeError "argument is not iterable"), s)
    end.

(** [v[k]] for a string [k]. *)
Definition getitem (v : value) (k : string) : M value :=
  fun s =>
    match v with
    | VRef l =>
        match st_heap s !! l with
        | Some d =>
            match dict_get d k with
            | Some x => (Ok x, s)
            | None => (Raise (KeyError k), s)
            end
        | None => (Raise (TypeError "dangling reference"), s)
        end
    | VStr _ | VList _ => (Raise (TypeError "indices must be integers"), s)
    | _ => (Raise (TypeError "object is not subscriptable"), s)
    end.

(** [v[k] = x] for a string [k]: the dictionary object is updated in the
    heap, so every holder of the reference sees the change. *)
Definition setitem (v : value) (k : string) (x : value) : M unit :=
  fun s =>
    match v with
    | VRef l =>
        match st_heap s !! l with
        | Some d =>
            (Ok tt, mkState (<[l := dict_set d k x]> (st_heap s)) (st_sb_rules s)
                      (st_enable_metrics s) (st_raw_data_df s) (st_log s) (st_out s))
        | None => (Raise (TypeError "dangling reference"), s)
        end
    | _ => (Raise (TypeError "object does not support item assignment"), s)
    end.

(** The keys a [for k in v] loop visits when every visited [k] is then used
    as [v[k]]: the keys of a dictionary; nothing for an empty list or
    string; a non-empty list or string fails at the first subscript. *)
Definition iter_keys (v : value) : M (list string) :=
  fun s =>
    match v with
    | VRef l =>
        match st_heap s !! l with
        | Some d => (Ok (dict_keys d), s)
        | None => (Raise (TypeError "dangling reference"), s)
        end
    | VList [] | VStr "" => (Ok [], s)
    | VList _ | VStr _ => (Raise (TypeError "indices must be integers"), s)
    | _ => (Raise (TypeError "object is not iterable"), s)
    end.

(** ** file_handler *)

(** A line of a JSON-lines file: a record, or a line the reader of
    jsonlines refuses (text that is no JSON, a null), with the message of
    the reader for it, as [line contains invalid json: Expecting value:
    line 1 column 1 (char 0)]. *)
Inductive jsonl : Type :=
| JRecord (r : list (string * cell))
| JBad (message : string).

(** The files a run can read: raw data as parsed lines, rule files as the
    object [yaml.load] returns (its dictionaries are in the heap).  A path
    that is none of these files is no file, or it is a path at which the
    test [Path.is_file] itself fails (a name too long, a directory that may
    not be searched): [stat_errors] gives the message of its [OSError]. *)
Record world : Type := mkWorld {
  raw_files : gmap string (list jsonl);
  rule_files : gmap string value;
  stat_errors : gmap string string
}.

(** [Path(path).is_file()] for a path that is no file of the world. *)
Definition is_file_missing (w : world) (path : string) : M bool :=
  match stat_errors w !! path with
  | Some msg => raise (OSError msg)
  | None => ret false
  end.

(** The loop of [read_raw_data]: the frame built so far, and the exception
    that stopped the loop, if any. *)
Fixpoint read_records (ls : list jsonl) (lineno : nat) (df : DataFrame)
  : DataFrame * option exn :=
  match ls with
  | [] => (df, None)
  | JBad message :: _ => (df, Some (InvalidLineError message lineno))
  | JRecord r :: ls' => read_records ls' (S lineno) (df_append_record df r)
  end.

(** The [try] block of [read_raw_data]: the value of the local
    [raw_data_df] when the block ends, and the exception that ended it. *)
Definition read_raw_data_try (ls : list jsonl) : DataFrame * option exn :=
  match read_records ls 1 df_empty with
  | (df, Some e) => (df, Some e)
  | (df, None) =>
      match df_column df "node" with
      | Raise e => (df, Some e)
      | Ok node =>
          let df1 := df_rename df node in
          match df_drop_column df1 "node" with
          | Raise e => (df1, Some e)
          | Ok df2 => (df2, None)
          end
      end
  end.

Definition read_raw_data (w : world) (raw_data_path : string) : M DataFrame :=
  match raw_files w !! raw_data_path with
  | None =>
      is_file_missing w raw_data_path ;;
      logger LError ("DataDiagnosis: invalid raw data path - " +:+ raw_data_path) ;;
      ret df_empty
  | Some ls =>
      match read_raw_data_try ls with
      | (df, Some e) =>
          logger LError ("Analyzer: invalid raw data fomat - " +:+ str_exn e) ;;
          ret df
      | (df, None) => ret df
      end
  end.

Definition default_rule_file : string :=
  "superbench/analyzer/rule/default_rule.yaml".

Definition read_rules (w : world) (rule_file : option string) : M value :=
  let p := match rule_file with
           | Some f => if String.eqb f "" then default_rule_file else f
           | None => default_rule_file
           end in
  match rule_files w !! p with
  | None =>
      is_file_missing w p ;;
      logger LError ("DataDiagnosis: invalid rule file path - " +:+ p) ;;
      ret VNone
  | Some baseline => ret baseline
  end.

(** ** summary_op, data_analysis and RuleBase *)

(** Modelled from the spec: [SummaryType(name)], the lookup of a member of
    the missing enumeration by its value; [None] is the [ValueError] of an
    unknown name. *)
Definition SummaryType_of (name : string) : option SummaryType :=
  if String.eqb name "mean" then Some MEAN
  else if String.eqb name "percentile" then Some PERCENTILE
  else if String.eqb name "min" then Some MIN
  else if String.eqb name "max" then Some MAX
  else if String.eqb name "std" then Some STD
  else if String.eqb name "count" then Some COUNT
  else None.

Fixpoint usable (cells : list cell) : list Q :=
  match cells with
  | [] => []
  | Num q :: cells' => q :: usable cells'
  | _ :: cells' => usable cells'
  end.

Definition Qsum (xs : list Q) : Q := fold_right Qplus (0 # 1)%Q xs.

Definition Qmin_list (x : Q) (xs : list Q) : Q :=
  fold_right (fun a m => if Qle_bool a m then a else m) x xs.

Definition Qmax_list (x : Q) (xs : list Q) : Q :=
  fold_right (fun a m => if Qle_bool m a then a else m) x xs.

Section Analyzer.

(** [re.search(pattern, column)] for the metric patterns of a rule file,
    which are arbitrary Python regular expressions. *)
Variable metric_match : string -> string -> bool.

(** [data_analysis.aggregate(df, pattern)], which is missing from the
    sources; [None] is the call without a pattern. *)
Variable aggregate : DataFrame -> option value -> result DataFrame.

(** The standard deviation and the percentile of a non-empty list of
    numbers, whose numerics the specification leaves open. *)
Variable std_of : list Q -> Q.
Variable percentile_of : Z -> list Q -> Q.

(** Modelled from the spec: the reducers of the missing statistic
    registry, on the usable numbers of one column (4.1). *)
Definition reduce_column (t : SummaryType) (val : option Z) (x : Q) (xs : list Q)
  : Q :=
  match t with
  | MEAN => Qred (Qsum (x :: xs) / inject_Z (Z.of_nat (length (x :: xs))))
  | MIN => Qmin_list x xs
  | MAX => Qmax_list x xs
  | COUNT => inject_Z (Z.of_nat (length (x :: xs)))
  | STD => std_of (x :: xs)
  | PERCENTILE => percentile_of (match val with Some p => p | None => 0 end) (x :: xs)
  end.

(** Modelled from the spec: the reduction of the missing [SummaryOp]
    functions, column by column, leaving missing and non-numeric cells
    out; a column with no number left has nothing to reduce and fails with
    [EmptyColumnReduction] for that metric and statistic (4.4, 7). *)
Fixpoint reduce_columns (t : SummaryType) (val : option Z)
    (cols : list (string * list cell)) : result Series :=
  match cols with
  | [] => Ok []
  | (c, cells) :: cols' =>
      match usable cells with
      | [] => Raise (EmptyColumnReduction c t val)
      | x :: xs =>
          match reduce_columns t val cols' with
          | Ok s => Ok ((c, Num (reduce_column t val x xs)) :: s)
          | Raise e => Raise e
          end
      end
  end.

(** The columns of a frame, each with its label. *)
Definition df_cols (df : DataFrame) : list (string * list cell) :=
  map (fun c => (c, map (fun r => cell_at (df_columns df) (snd r) c) (df_rows df)))
      (df_columns df).

(** Modelled from the spec: [SummaryOp.get_summary_func(t)], missing from
    the sources, applied to a frame and, for the percentile, to [val]. *)
Definition get_summary_func (t : SummaryType) (df : DataFrame) (val : option Z)
  : result Series :=
  reduce_columns t val (df_cols df).

(** Modelled from the spec: [RuleBase._check_rules], missing from the
    sources; of the three required fields (4.3) the subclass checks
    [metrics] and [statistics], which leaves [categories] to the base. *)
Definition RuleBase_check_rules (rule : value) (name : string) : M value :=
  let* has := contains rule "categories" in
  if negb has then log_and_raise (name +:+ " lack of category")
  else ret rule.

(** Modelled from the spec: one entry of a [metrics] field selects a
    column by name or as a pattern. *)
Definition entry_matches (column : string) (entry : string) : bool :=
  String.eqb entry column || metric_match entry column.

(** Modelled from the spec: the entries of a [metrics] list are strings. *)
Fixpoint metric_entries (l : list value) : result (list string) :=
  match l with
  | [] => Ok []
  | VStr e :: l' =>
      match metric_entries l' with
      | Ok es => Ok (e :: es)
      | Raise x => Raise x
      end
  | _ :: _ => Raise (TypeError "expected string or bytes-like object")
  end.

(** Modelled from the spec: the entries of a [metrics] field, an explicit
    list or a single pattern. *)
Definition metrics_spec (v : value) : result (list string) :=
  match v with
  | VStr e => Ok [e]
  | VList l => metric_entries l
  | _ => Raise (TypeError "metrics must be a pattern or a list")
  end.

(** Modelled from the spec: the columns a [metrics] field resolves to, the
    union of the matches of its entries, in column order. *)
Definition resolve_metrics (entries : list string) (columns : list string)
  : list string :=
  filter (fun c => existsb (entry_matches c) entries) columns.

Definition set_sb_rules (f : list (string * sb_rule) -> list (string * sb_rule))
  : M unit :=
  fun s => (Ok tt, mkState (st_heap s) (f (st_sb_rules s)) (st_enable_metrics s)
                     (st_raw_data_df s) (st_log s) (st_out s)).

Definition set_enable_metrics (f : list string -> list string) : M unit :=
  fun s => (Ok tt, mkState (st_heap s) (st_sb_rules s) (f (st_enable_metrics s))
                     (st_raw_data_df s) (st_log s) (st_out s)).

Definition set_raw_data_df (df : DataFrame) : M unit :=
  fun s => (Ok tt, mkState (st_heap s) (st_sb_rules s) (st_enable_metrics s)
                     df (st_log s) (st_out s)).

Definition get_raw_data_df : M DataFrame := fun s => (Ok (st_raw_data_df s), s).

Definition set_add (x : string) (l : list string) : list string :=
  if mem_string x l then l else l ++ [x].

Definition add_metric (rule : string) (metric : string)
    (rs : list (string * sb_rule)) : list (string * sb_rule) :=
  match dict_get rs rule with
  | Some r =>
      dict_set rs rule
        (mkRule (r_name r) (r_categories r) (dict_set (r_metrics r) metric VNone)
                (r_statistics r) (r_aggregate r))
  | None => rs
  end.

(** Modelled from the spec: [RuleBase._get_metrics], missing from the
    sources.  The [metrics] field of the rule is matched against the
    columns of the raw table; the matches become the keys of
    [self._sb_rules[rule]['metrics']] and join [self._enable_metrics];
    a rule that matches no column fails with [NoMatchingMetrics] (4.3). *)
Definition _get_metrics (rule : string) (benchmark_rules : value) : M unit :=
  let* r := getitem benchmark_rules rule in
  let* metrics_in_rule := getitem r "metrics" in
  let* entries := lift (metrics_spec metrics_in_rule) in
  let* raw := get_raw_data_df in
  match resolve_metrics entries (df_columns raw) with
  | [] => raise (NoMatchingMetrics rule)
  | ms =>
      for_each ms (fun metric =>
        set_sb_rules (add_metric rule metric) ;;
        set_enable_metrics (set_add metric))
  end.

(** Modelled from the spec: [RuleBase.preprocess], missing from the
    sources: the two loaders are run, the raw table is kept in
    [self._raw_data_df] and the rule document is returned (6). *)
Definition preprocess (w : world) (raw_data_file : string)
    (rule_file : option string) : M value :=
  let* df := read_raw_data w raw_data_file in
  set_raw_data_df df ;;
  read_rules w rule_file.

(** ** ResultSummary *)

(** One round of the loop over [rule['statistics']] in [_check_rules]. *)
Definition check_function (name : string) (function : value) : M unit :=
  match function with
  | VStr f =>
      if re_fullmatch pat_percentile f then ret tt
      else match SummaryType_of f with
           | Some _ => ret tt
           | None => raise (ValueError ("'" +:+ f +:+ "' is not a valid SummaryType"))
           end
  | _ => raise (TypeError "expected string or bytes-like object")
  end.

Definition iter_list (v : value) : M (list value) :=
  match v with
  | VList l => ret l
  | _ => raise (TypeError "object is not a list")
  end.

Definition is_list (v : value) : bool :=
  match v with VList _ => true | _ => false end.

Definition is_bool (v : value) : bool :=
  match v with VBool _ => true | _ => false end.

(** [re.search(r'\(.*\)', v)] *)
Definition search_group (v : value) : M bool :=
  match v with
  | VStr s => ret (re_search pat_group s)
  | _ => raise (TypeError "expected string or bytes-like object")
  end.

Definition _check_rules (rule : value) (name : string) : M value :=
  RuleBase_check_rules rule name ;;
  let* has_metrics := contains rule "metrics" in
  (if negb has_metrics then log_and_raise (name +:+ " lack of metrics")
   else ret tt) ;;
  let* has_statistics := contains rule "statistics" in
  (if negb has_statistics then log_and_raise (name +:+ " lack of function")
   else ret tt) ;;
  let* st := getitem rule "statistics" in
  (if negb (is_list st) then setitem rule "statistics" (VList [st])
   else ret tt) ;;
  let* sts := getitem rule "statistics" in
  let* functions := iter_list sts in
  for_each functions (check_function name) ;;
  let* has_aggregate := contains rule "aggregate" in
  (if has_aggregate then
     let* a := getitem rule "aggregate" in
     if is_bool a then ret tt
     else let* found := search_group a in
          if found then ret tt
          else log_and_raise (name +:+ " aggregate must be bool type")
   else ret tt) ;;
  ret rule.

(** The body of the loop of [_parse_rules], from the second statement
    on: the rule is entered in [self._sb_rules] and its metrics are
    resolved.  The source fills the entry field by field; the lookups in
    between are done here in the same order, and the entry is stored once
    they are through. *)
Definition enter_rule (benchmark_rules : value) (rule : string) : M unit :=
  let* r1 := getitem benchmark_rules rule in
  let* categories := getitem r1 "categories" in
  let* r2 := getitem benchmark_rules rule in
  let* statistics := getitem r2 "statistics" in
  let* r3 := getitem benchmark_rules rule in
  let* has_aggregate := contains r3 "aggregate" in
  let* agg := (if has_aggregate
               then let* r4 := getitem benchmark_rules rule in
                    getitem r4 "aggregate"
               else ret (VBool false)) in
  set_sb_rules (fun rs => dict_set rs rule (mkRule rule categories [] statistics agg)) ;;
  _get_metrics rule benchmark_rules.

(** The body of the loop of [_parse_rules]. *)
Definition parse_rule (benchmark_rules : value) (rule : string) : M unit :=
  let* r := getitem benchmark_rules rule in
  let* checked := _check_rules r rule in
  setitem benchmark_rules rule checked ;;
  enter_rule benchmark_rules rule.

Definition _parse_rules (rules : value) : M bool :=
  try_except
    (let* h := get_heap in
     if negb (truthy h rules) then
       logger LError "ResultSummary: get rules failed" ;; ret false
     else
       set_sb_rules (fun _ => []) ;;
       set_enable_metrics (fun _ => []) ;;
       let* sb := getitem rules "superbench" in
       let* benchmark_rules := getitem sb "rules" in
       let* names := iter_keys benchmark_rules in
       for_each names (parse_rule benchmark_rules) ;;
       ret true)
    (fun e =>
       logger LError ("ResultSummary: parse rules failed - " +:+ str_exn e) ;;
       ret false).

Definition _format_summary_of_rule (category : value) (summary_df_of_rule : DataFrame)
  : list line :=
  flat_map
    (fun metric =>
       map (fun statistic =>
              (category, metric, statistic, df_loc summary_df_of_rule statistic metric))
           (df_index summary_df_of_rule))
    (df_columns summary_df_of_rule).

Definition _merge_summary (summary : summary_dict) : list line :=
  flat_map snd summary.

(** [SummaryOp.get_summary_func(...)] and its call for one statistic name,
    the two branches of the loop over [statistics] in
    [_generate_summary]. *)
Definition statistic_row (data_df_of_rule : DataFrame) (statistic_name : value)
  : result Series :=
  match statistic_name with
  | VStr name =>
      if startswith name "p" then
        match SummaryType_of "percentile" with
        | Some t =>
            match int_of_str (strip "p" name) with
            | Some val => get_summary_func t data_df_of_rule (Some val)
            | None =>
                Raise (ValueError ("invalid literal for int() with base 10: '"
                                     +:+ strip "p" name +:+ "'"))
            end
        | None => Raise (ValueError "'percentile' is not a valid SummaryType")
        end
      else
        match SummaryType_of name with
        | Some t => get_summary_func t data_df_of_rule None
        | None => Raise (ValueError ("'" +:+ name +:+ "' is not a valid SummaryType"))
        end
  | _ => Raise (TypeError "descriptor 'startswith' requires a 'str' object")
  end.

Definition statistic_label (statistic_name : value) : cell :=
  match statistic_name with
  | VStr name => Str name
  | _ => NaN
  end.

(** The loop over [statistics]: one row of [summary_df_of_rule] per name. *)
Fixpoint statistics_loop (data_df_of_rule : DataFrame) (statistics : list value)
    (summary_df_of_rule : DataFrame) : result DataFrame :=
  match statistics with
  | [] => Ok summary_df_of_rule
  | statistic_name :: rest =>
      match statistic_row data_df_of_rule statistic_name with
      | Raise e => Raise e
      | Ok row =>
          match df_loc_set summary_df_of_rule (statistic_label statistic_name) row with
          | Raise e => Raise e
          | Ok df => statistics_loop data_df_of_rule rest df
          end
      end
  end.

(** The frame a rule is summarised from: the projection of the raw table
    on the rule's metrics, aggregated if the rule asks for it. *)
Definition data_of_rule (h : heap) (raw : DataFrame) (r : sb_rule)
  : result DataFrame :=
  match df_select raw (dict_keys (r_metrics r)) with
  | Raise e => Raise e
  | Ok data_df_of_rule =>
      if truthy h (r_aggregate r) then
        match r_aggregate r with
        | VBool true => aggregate data_df_of_rule None
        | pattern => aggregate data_df_of_rule (Some pattern)
        end
      else Ok data_df_of_rule
  end.

(** The rounded [summary_df_of_rule] of one rule. *)
Definition summary_df_of (h : heap) (raw : DataFrame) (r : sb_rule)
  : result DataFrame :=
  match data_of_rule h raw r with
  | Raise e => Raise e
  | Ok data_df_of_rule =>
      match r_statistics r with
      | VList statistics =>
          match statistics_loop data_df_of_rule statistics
                  (mkDF (sorted (df_columns data_df_of_rule)) []) with
          | Raise e => Raise e
          | Ok summary_df_of_rule => Ok (df_round summary_df_of_rule)
          end
      | _ => Raise (TypeError "object is not a list")
      end
  end.

(** The lines of one rule. *)
Definition summary_lines_of_rule (h : heap) (raw : DataFrame) (r : sb_rule)
  : result (list line) :=
  match summary_df_of h raw r with
  | Raise e => Raise e
  | Ok summary_df_of_rule =>
      Ok (_format_summary_of_rule (r_categories r) summary_df_of_rule)
  end.

Definition as_int (v : value) : option Z :=
  match v with
  | VBool b => Some (if b then 1 else 0)
  | VInt z => Some z
  | _ => None
  end.

(** Equality of dictionary keys: [True == 1] and [False == 0]. *)
Definition key_eqb (a b : value) : bool :=
  match a, b with
  | VNone, VNone => true
  | VStr s, VStr t => String.eqb s t
  | _, _ =>
      match as_int a, as_int b with
      | Some x, Some y => x =? y
      | _, _ => false
      end
  end.

Definition hashable (v : value) : bool :=
  match v with
  | VList _ | VRef _ => false
  | _ => true
  end.

Fixpoint summary_set (summary : summary_dict) (k : value) (v : list line)
  : summary_dict :=
  match summary with
  | [] => [(k, v)]
  | (k', v') :: rest =>
      if key_eqb k' k then (k', v) :: rest else (k', v') :: summary_set rest k v
  end.

(** The loop over [self._sb_rules] in [_generate_summary]; its last
    statement is [summary[category] = summary_lines_of_rule]. *)
Fixpoint generate_loop (h : heap) (raw : DataFrame)
    (rules : list (string * sb_rule)) (summary : summary_dict)
  : result summary_dict :=
  match rules with
  | [] => Ok summary
  | (_, r) :: rest =>
      match summary_lines_of_rule h raw r with
      | Raise e => Raise e
      | Ok lines =>
          if hashable (r_categories r)
          then generate_loop h raw rest (summary_set summary (r_categories r) lines)
          else Raise (TypeError "unhashable type")
      end
  end.

Definition _generate_summary : M summary_dict :=
  fun s => (generate_loop (st_heap s) (st_raw_data_df s) (st_sb_rules s) [], s).

(** [run]; the three writers of [file_handler] are the presentation
    layer, and a call of one of them is recorded in [st_out]. *)
Definition run (w : world) (raw_data_file : string) (rule_file : option string)
    (output_dir output_format : string) : M unit :=
  try_except
    (let* rules := preprocess w raw_data_file rule_file in
     let* parsed := _parse_rules rules in
     if negb parsed then ret tt
     else
       let* summary := _generate_summary in
       let* output_path :=
         (if String.eqb output_format "excel" then
            let path := output_dir +:+ "/results_summary.xlsx" in
            let* raw := get_raw_data_df in
            emit (OutExcel path raw (_merge_summary summary)) ;; ret path
          else if String.eqb output_format "md" then
            let path := output_dir +:+ "/results_summary.md" in
            emit (OutMd path summary) ;; ret path
          else if String.eqb output_format "html" then
            let path := output_dir +:+ "/results_summary.html" in
            emit (OutHtml path summary) ;; ret path
          else
            logger LError "ResultSummary: output failed - unsupported output format" ;;
            ret "") in
       logger LInfo ("ResultSummary: Output results to " +:+ output_path))
    (fun e => logger LError ("ResultSummary: run failed - " +:+ str_exn e)).

End Analyzer.

(** ** An instance for the examples

    Metric entries select columns by name only, nothing is aggregated by
    pattern, and the two open reducers return the first number. *)
Definition no_match (pattern column : string) : bool := false.

Definition no_aggregate (df : DataFrame) (pattern : option value) : result DataFrame :=
  Ok df.

Definition first_of (xs : list Q) : Q :=
  match xs with x :: _ => x | [] => (0 # 1)%Q end.

Definition init_state (h : heap) : state :=
  mkState h [] [] df_empty [] [].

(** A raw-data file with two nodes and two metrics. *)
Definition two_nodes : list jsonl :=
  [JRecord [("node", Str "n1"); ("foo", Num 1); ("bar", Num 2)];
   JRecord [("node", Str "n2"); ("foo", Num 3); ("bar", Num 4)]].

(** A rule file as [yaml.load] leaves it in the heap: the document at 1,
    its [superbench] entry at 2, the rules at 3, and the rules themselves
    from 4 on. *)
Definition rule_document (rules : dict) (dicts : list dict) : heap :=
  list_to_map
    ((1%positive, [("version", VStr "v0.3"); ("superbench", VRef 2)]) ::
     (2%positive, [("rules", VRef 3)]) ::
     (3%positive, rules) ::
     imap (fun i d => (Pos.of_nat (4 + i), d)) dicts).

Definition the_world (raw : list jsonl) : world :=
  mkWorld {[ "raw.jsonl" := raw ]} {[ "rules.yaml" := VRef 1 ]} ∅.

Definition rule_of (categories : string) (metrics : list string)
    (statistics : value) : dict :=
  [("categories", VStr categories); ("metrics", VList (map VStr metrics));
   ("statistics", statistics)].

(** The run of the examples: Markdown output, the instance above. *)
Definition run_example (raw : list jsonl) (h : heap) : result unit * state :=
  run no_match no_aggregate first_of (fun _ => first_of) (the_world raw)
      "raw.jsonl" (Some "rules.yaml") "out" "md" (init_state h).

(** One rule over both metrics, and a rule without [statistics]. *)
Definition doc_lacking : heap :=
  rule_document [("r1", VRef 4); ("r2", VRef 5)]
    [rule_of "A" ["foo"; "bar"] (VList [VStr "mean"]);
     [("categories", VStr "B"); ("metrics", VList [VStr "foo"])]].

(** A valid rule, and a rule whose metric is no column of the raw table. *)
Definition doc_unmatched : heap :=
  rule_document [("r1", VRef 4); ("r2", VRef 5)]
    [rule_of "A" ["foo"; "bar"] (VList [VStr "mean"]);
     rule_of "B" ["baz"] (VList [VStr "mean"])].

(** A rule whose [statistics] is a single name. *)
Definition doc_scalar : heap :=
  rule_document [("r1", VRef 4)] [rule_of "A" ["foo"; "bar"] (VStr "mean")].

(** An aggregate pattern whose group spans two lines: [(], a line break,
    [)]. *)
Definition group_over_lines : string := String "(" (String newline ")").

Definition rule_with_aggregate (a : value) : dict :=
  rule_of "A" ["foo"; "bar"] (VList [VStr "mean"]) ++ [("aggregate", a)].

Definition doc_aggregate (a : value) : heap :=
  rule_document [("r1", VRef 4)] [rule_with_aggregate a].

(** Parsing and summarising, as [run] does between loading and writing. *)
Definition summary_example (raw : DataFrame) (h : heap) : result summary_dict :=
  let s := mkState h [] [] raw [] [] in
  match _parse_rules no_match (VRef 1) s with
  | (Ok true, s1) =>
      fst (_generate_summary no_aggregate first_of (fun _ => first_of) s1)
  | (Ok false, _) => Raise (Exception "parse rules failed")
  | (Raise e, _) => Raise e
  end.

(** The raw table of the end-to-end scenario, columns in the order given. *)
Definition foo_bar : DataFrame :=
  mkDF ["foo"; "bar"] [(Str "n1", [Num 1; Num 2]); (Str "n2", [Num 3; Num 4])].

(** The rule of the end-to-end scenario. *)
Definition doc_r1 : heap :=
  rule_document [("r1", VRef 4)]
    [rule_of "A" ["foo"; "bar"] (VList [VStr "mean"]) ++ [("aggregate", VBool false)]].

(** Two rules of the same category, one metric each. *)
Definition doc_shared : heap :=
  rule_document [("r1", VRef 4); ("r2", VRef 5)]
    [rule_of "A" ["foo"] (VList [VStr "mean"]);
     rule_of "A" ["bar"] (VList [VStr "mean"])].


(** A raw table in which no node reports [bar]. *)
Definition bar_missing : DataFrame :=
  mkDF ["foo"; "bar"] [(Str "n1", [Num 1; NaN]); (Str "n2", [Num 3; NaN])].

(** The rule of the scenario as [_parse_rules] enters it, and its lines. *)
Definition rule_r1 : sb_rule :=
  mkRule "r1" (VStr "A") [("foo", VNone); ("bar", VNone)] (VList [VStr "mean"])
         (VBool false).

Definition lines_example : list line :=
  [(VStr "A", "bar", Str "mean", Num 3); (VStr "A", "foo", Str "mean", Num 2)].

(** The rules of [doc_shared] as [_parse_rules] enters them. *)
Definition rule_foo : sb_rule :=
  mkRule "r1" (VStr "A") [("foo", VNone)] (VList [VStr "mean"]) (VBool false).

Definition rule_bar : sb_rule :=
  mkRule "r2" (VStr "A") [("bar", VNone)] (VList [VStr "mean"]) (VBool false).

(** A raw-data file whose first line is no JSON, and a world without the
    raw-data file. *)
Definition invalid_json : string :=
  "line contains invalid json: Expecting value: line 1 column 1 (char 0)".

Definition bad_first_line : list jsonl :=
  JBad invalid_json :: two_nodes.


(** ** Notions used in the statements *)

(** The strings a regular expression denotes. *)
Inductive lang : regex -> string -> Prop :=
| LEps : lang REps ""
| LChar c a : in_charset c a = true -> lang (RChar c) (String a "")
| LSeq r1 r2 s1 s2 : lang r1 s1 -> lang r2 s2 -> lang (RSeq r1 r2) (s1 +:+ s2)
| LAltL r1 r2 s : lang r1 s -> lang (RAlt r1 r2) s
| LAltR r1 r2 s : lang r2 s -> lang (RAlt r1 r2) s
| LStarNil r : lang (RStar r) ""
| LStarApp r s1 s2 : lang r s1 -> lang (RStar r) s2 -> lang (RStar r) (s1 +:+ s2).

Fixpoint has_char (a : ascii) (s : string) : bool :=
  match s with
  | EmptyString => false
  | String b s' => Ascii.eqb b a || has_char a s'
  end.

(** A parenthesised group, as text: an opening parenthesis with a closing
    one somewhere after it. *)
Definition contains_group (s : string) : Prop :=
  exists pre mid post, s = pre +:+ "(" +:+ mid +:+ ")" +:+ post.

(** The same with both parentheses on one line. *)
Definition contains_group_on_line (s : string) : Prop :=
  exists pre mid post,
    s = pre +:+ "(" +:+ mid +:+ ")" +:+ post /\ has_char newline mid = false.

(** A percentile token: [p] and one or two decimal digits. *)
Definition percentile_token (s : string) : Prop :=
  exists d, (s = String "p" (String d "") /\ is_digit d = true) \/
            exists d', s = String "p" (String d (String d' "")) /\
                       is_digit d = true /\ is_digit d' = true.

(** The index of a summary frame after rows have been set for the given
    labels, in this order: a repeated label keeps its first place. *)
Definition add_label (idx : list cell) (l : cell) : list cell :=
  if existsb (cell_eqb l) idx then idx else idx ++ [l].

Definition labels_of (statistics : list value) : list cell :=
  fold_left add_label (map statistic_label statistics) [].

(** The column of a frame, by label. *)
Definition column_cells (df : DataFrame) (c : string) : list cell :=
  map (fun r => cell_at (df_columns df) (snd r) c) (df_rows df).

(** The rule document reachable from [rules]: [rules['superbench']['rules']]
    is the dictionary [d2], stored at [l2]. *)
Definition document (h : heap) (rules : value) (l2 : loc) (d2 : dict) : Prop :=
  exists l0 d0 l1 d1,
    rules = VRef l0 /\ h !! l0 = Some d0 /\
    dict_get d0 "superbench" = Some (VRef l1) /\ h !! l1 = Some d1 /\
    dict_get d1 "rules" = Some (VRef l2) /\ h !! l2 = Some d2.

(** The same, as a function of the heap. *)
Definition rules_of (h : heap) (rules : value) : option (loc * dict) :=
  match rules with
  | VRef l0 =>
      match h !! l0 with
      | Some d0 =>
          match dict_get d0 "superbench" with
          | Some (VRef l1) =>
              match h !! l1 with
              | Some d1 =>
                  match dict_get d1 "rules" with
                  | Some (VRef l2) =>
                      match h !! l2 with
                      | Some d2 => Some (l2, d2)
                      | None => None
                      end
                  | _ => None
                  end
              | None => None
              end
          | _ => None
          end
      | None => None
      end
  | _ => None
  end.

Definition refers_to (l : loc) (v : value) : bool :=
  match v with
  | VRef l' => Pos.eqb l' l
  | _ => false
  end.

(** No rule of the document is the dictionary of rules itself. *)
Definition no_self_reference (l2 : loc) (d2 : dict) : Prop :=
  existsb (fun kv => refers_to l2 (snd kv)) d2 = false.

(** The heap [h'] comes from [h] by the normalisation of [_check_rules]:
    some dictionaries had a scalar [statistics] wrapped into a list. *)
Definition normalised (d d' : dict) : Prop :=
  exists v, dict_get d "statistics" = Some v /\ is_list v = false /\
            d' = dict_set d "statistics" (VList [v]).

Definition normalised_from (h h' : heap) : Prop :=
  forall l, h' !! l = h !! l \/
            exists d d', h !! l = Some d /\ h' !! l = Some d' /\ normalised d d'.

(** The state with one more error in the log, and with another heap. *)
Definition add_error (s : state) (msg : string) : state :=
  mkState (st_heap s) (st_sb_rules s) (st_enable_metrics s) (st_raw_data_df s)
          (st_log s ++ [(LError, msg)]) (st_out s).

Definition with_heap (s : state) (h : heap) : state :=
  mkState h (st_sb_rules s) (st_enable_metrics s) (st_raw_data_df s)
          (st_log s) (st_out s).

(** The first statistic name that [check_function] refuses, as the
    exception it raises. *)
Fixpoint check_functions (fs : list value) : option exn :=
  match fs with
  | [] => None
  | VStr f :: fs' =>
      if re_fullmatch pat_percentile f then check_functions fs'
      else match SummaryType_of f with
           | Some _ => check_functions fs'
           | None => Some (ValueError ("'" +:+ f +:+ "' is not a valid SummaryType"))
           end
  | _ :: _ => Some (TypeError "expected string or bytes-like object")
  end.

(** The statistic names of a [statistics] field, a single one being read
    as a list of one. *)
Definition functions_of (v : value) : list value :=
  match v with
  | VList fs => fs
  | _ => [v]
  end.

(** What [_check_rules] does on a rule that is the dictionary [d] stored
    at [l], written without the monad. *)
Definition check_dict (l : loc) (d : dict) (name : string) (s : state)
  : result value * state :=
  if negb (dict_mem d "categories") then
    (Raise (Exception (name +:+ " lack of category")),
     add_error s (name +:+ " lack of category"))
  else if negb (dict_mem d "metrics") then
    (Raise (Exception (name +:+ " lack of metrics")),
     add_error s (name +:+ " lack of metrics"))
  else
    match dict_get d "statistics" with
    | None =>
        (Raise (Exception (name +:+ " lack of function")),
         add_error s (name +:+ " lack of function"))
    | Some v =>
        let s1 := if is_list v then s
                  else with_heap s (<[l := dict_set d "statistics" (VList [v])]> (st_heap s)) in
        match check_functions (functions_of v) with
        | Some e => (Raise e, s1)
        | None =>
            match dict_get d "aggregate" with
            | None | Some (VBool _) => (Ok (VRef l), s1)
            | Some (VStr a) =>
                if re_search pat_group a then (Ok (VRef l), s1)
                else (Raise (Exception (name +:+ " aggregate must be bool type")),
                      add_error s1 (name +:+ " aggregate must be bool type"))
            | Some _ => (Raise (TypeError "expected string or bytes-like object"), s1)
            end
        end
    end.

(** [s'] differs from [s] in the heap and the log at most. *)
Definition frame (s s' : state) : Prop :=
  st_sb_rules s' = st_sb_rules s /\ st_enable_metrics s' = st_enable_metrics s /\
  st_raw_data_df s' = st_raw_data_df s /\ st_out s' = st_out s.

(** A computation that leaves the heap, the raw table and the recorded
    outputs as they are, whatever its outcome. *)
Definition keeps {A} (m : M A) : Prop :=
  forall s, st_heap (snd (m s)) = st_heap s /\
            st_raw_data_df (snd (m s)) = st_raw_data_df s /\
            st_out (snd (m s)) = st_out s.

(** Every parsed rule has at least one metric. *)
Definition all_resolved (rs : list (string * sb_rule)) : Prop :=
  Forall (fun nr => r_metrics (snd nr) <> []) rs.

(** The state when the loop of [_parse_rules] starts. *)
Definition reset_rules (s : state) : state :=
  mkState (st_heap s) [] [] (st_raw_data_df s) (st_log s) (st_out s).

(** The dictionary of a rule once [_check_rules] has accepted it. *)
Definition checked_dict (d : dict) : dict :=
  match dict_get d "statistics" with
  | Some v => if is_list v then d else dict_set d "statistics" (VList [v])
  | None => d
  end.

(** ** file_handler: the Markdown writers and the merge of equal cells *)

Section Writers.

(** [str(x)] of a float, and [str(v)] of a list or of a dictionary. *)
Variable str_float : Q -> string.
Variable str_object : value -> string.

(** [open(path, 'w')]: [None] when the file opens, [Some msg] when it
    raises an exception [e] with [str(e) = msg]. *)
Variable open_error : string -> option string.

(** [markdown.markdown(text, extensions=...)] *)
Variable markdown : string -> string.

(** [str(c)] of a value of a frame. *)
Definition str_cell (c : cell) : string :=
  match c with
  | NaN => "nan"
  | Num q => str_float q
  | Str s => s
  end.

(** [str(v)] *)
Definition str_value (v : value) : string :=
  match v with
  | VNone => "None"
  | VBool true => "True"
  | VBool false => "False"
  | VInt z => pretty z
  | VStr s => s
  | _ => str_object v
  end.

Definition line_break : string := String newline "".

(** ['| {} |\n'.format(' | '.join(cells))] *)
Definition md_line (cells : list string) : string :=
  "| " +:+ String.concat " | " cells +:+ " |" +:+ line_break.

(** [max(data, key=len)]: the first row of the greatest length; [best] is
    the candidate so far. *)
Fixpoint max_row (best : list cell) (data : list (list cell)) : list cell :=
  match data with
  | [] => best
  | r :: data' =>
      max_row (if (length best <? length r)%nat then r else best) data'
  end.

(** The list [header] after [header[len(header):max_width] = [' ', ...]]:
    it is padded, never cut. *)
Definition padded_header (header : list string) (max_width : nat) : list string :=
  header ++ repeat " " (max_width - length header).

(** [full_line] of [gen_md_table]: [max_width] blanks, the first
    [len(line)] of them replaced by the cells of the line. *)
Definition full_line (max_width : nat) (line : list cell) : list string :=
  map str_cell line ++ skipn (length line) (repeat " " max_width).

Definition gen_md_table (data : list (list cell)) (header : list string)
  : result (list string) :=
  match data with
  | [] => Raise (ValueError "max() arg is an empty sequence")
  | first :: rest =>
      let max_width := length (max_row first rest) in
      Ok (md_line (padded_header header max_width)
            :: md_line (repeat "---" max_width)
            :: map (fun line => md_line (full_line max_width line)) data)
  end.

(** A summary line without its category:
    [summary_df.drop(columns=0, axis=1).values.tolist()], row by row. *)
Definition md_row (l : line) : list cell :=
  match l with
  | (_, metric, statistic, v) => [Str metric; statistic; v]
  end.

(** [gen_md_lines]; a category without lines makes a frame without
    columns, in which [drop(columns=0)] finds no column 0. *)
Fixpoint gen_md_lines (summary : summary_dict) : result (list string) :=
  match summary with
  | [] => Ok []
  | (category, summary_lines) :: rest =>
      match summary_lines with
      | [] => Raise (KeyError "[0] not found in axis")
      | _ =>
          match gen_md_table (map md_row summary_lines)
                  ["metric"; "statistics"; "values"] with
          | Raise e => Raise e
          | Ok table_lines =>
              match gen_md_lines rest with
              | Raise e => Raise e
              | Ok more =>
                  Ok (("## " +:+ str_value category +:+ line_break)
                        :: table_lines ++ [line_break] ++ more)
              end
          end
      end
  end.

(** [output_summary_in_md]; the result is the file written, if any, as its
    path and its text. *)
Definition output_summary_in_md (summary : summary_dict) (output_path : string)
  : M (option (string * string)) :=
  match gen_md_lines summary with
  | Raise e =>
      logger LError ("ResultSummary: md_data_output - " +:+ str_exn e) ;; ret None
  | Ok [] => logger LError "ResultSummary: md_data_output failed" ;; ret None
  | Ok lines =>
      match open_error output_path with
      | Some msg => logger LError ("ResultSummary: md_data_output - " +:+ msg) ;; ret None
      | None => ret (Some (output_path, String.concat "" lines))
      end
  end.

(** [output_summary_in_html] *)
Definition output_summary_in_html (summary : summary_dict) (output_path : string)
  : M (option (string * string)) :=
  match gen_md_lines summary with
  | Raise e =>
      logger LError ("ResultSummary: html_data_output - " +:+ str_exn e) ;; ret None
  | Ok [] => logger LError "ResultSummary: html_data_output failed" ;; ret None
  | Ok lines =>
      let html_str := markdown (String.concat "" lines) in
      match open_error output_path with
      | Some msg => logger LError ("ResultSummary: html_data_output - " +:+ msg) ;; ret None
      | None => ret (Some (output_path, html_str))
      end
  end.

End Writers.

(** A sheet of a workbook, as far as [merge_column_in_excel] reads and
    changes it: [str] of the value of a cell, the merged ranges
    (start row, start column, end row, end column) and the cells that are
    centred. *)
Record worksheet : Type := mkSheet {
  ws_value : nat -> nat -> string;
  ws_merged : list (nat * nat * nat * nat);
  ws_centered : list (nat * nat)
}.

(** One round of the first loop of [merge_column_in_excel]. *)
Definition record_row (value_of : nat -> string)
    (dict_from : list (string * (nat * nat))) (row_index : nat)
  : list (string * (nat * nat)) :=
  match dict_get dict_from (value_of row_index) with
  | None => dict_set dict_from (value_of row_index) (row_index, row_index)
  | Some (first, last) => dict_set dict_from (value_of row_index) (first, S last)
  end.

(** [dict_from] when the first loop ends. *)
Definition ranges_of (value_of : nat -> string) (row : nat)
  : list (string * (nat * nat)) :=
  fold_left (record_row value_of) (seq 1 row) [].

(** A cell of a range other than its top-left one. *)
Definition below_top (rg : nat * nat * nat * nat) (i j : nat) : bool :=
  match rg with
  | (start_row, start_column, end_row, end_column) =>
      (start_row <=? i)%nat && (i <=? end_row)%nat &&
      (start_column <=? j)%nat && (j <=? end_column)%nat &&
      negb ((i =? start_row)%nat && (j =? start_column)%nat)
  end.

(** [ws.merge_cells(start_row=, start_column=, end_row=, end_column=)]: the
    range is recorded, and every cell of it but the top-left one becomes a
    merged cell, whose value is [None]. *)
Definition merge_cells (ws : worksheet) (rg : nat * nat * nat * nat) : worksheet :=
  mkSheet (fun i j => if below_top rg i j then "None" else ws_value ws i j)
          (ws_merged ws ++ [rg]) (ws_centered ws).

Definition merge_column_in_excel (ws : worksheet) (row column : nat) : worksheet :=
  let dict_from := ranges_of (fun i => ws_value ws i column) row in
  let merges :=
    flat_map (fun kv => if (fst (snd kv) =? snd (snd kv))%nat then []
                        else [(fst (snd kv), column, snd (snd kv), column)])
             dict_from in
  let merged := fold_left merge_cells merges ws in
  mkSheet (ws_value merged) (ws_merged merged)
          (ws_centered merged ++ map (fun i => (i, column)) (seq 1 row)).

(** ** More notions used in the statements *)

(** [summary[k]] *)
Fixpoint summary_lookup (summary : summary_dict) (k : value) : option (list line) :=
  match summary with
  | [] => None
  | (k', v) :: rest => if key_eqb k' k then Some v else summary_lookup rest k
  end.

(** A rule as [_check_rules] lets it through: a list of statistic names
    that are percentile tokens or members of [SummaryType], and an
    aggregate that is a boolean or a pattern with a group. *)
Definition valid_aggregate (a : value) : bool :=
  match a with
  | VBool _ => true
  | VStr t => re_search pat_group t
  | _ => false
  end.

Definition well_formed (r : sb_rule) : Prop :=
  (exists fs, r_statistics r = VList fs /\ check_functions fs = None) /\
  valid_aggregate (r_aggregate r) = true.

(** The change of a computation leaves the recorded outputs alone and
    only adds to the log. *)
Definition quiet {A} (m : M A) : Prop :=
  forall s, st_out (snd (m s)) = st_out s /\
            exists more, st_log (snd (m s)) = st_log s ++ more.

(** A computation that returns has logged nothing. *)
Definition silent {A} (m : M A) : Prop :=
  forall s a s', m s = (Ok a, s') -> st_log s' = st_log s.

(** The rows, among those listed, whose cell holds [v]. *)
Definition rows_with (value_of : nat -> string) (v : string) (rows : list nat)
  : list nat :=
  List.filter (fun i => String.eqb (value_of i) v) rows.

(** The cell of a record under a key, missing when the record has none. *)
Definition record_cell (rec : list (string * cell)) (k : string) : cell :=
  match dict_get rec k with
  | Some v => v
  | None => NaN
  end.

(** The table [read_raw_data] has built from records when its loop ends. *)
Definition appended (recs : list (list (string * cell))) : DataFrame :=
  fold_left df_append_record recs df_empty.

(** Two tables have the same rows, and the same cells in the columns
    listed; a listed label is a column of both or of none. *)
Definition agree_on (cs : list string) (raw1 raw2 : DataFrame) : Prop :=
  df_index raw1 = df_index raw2 /\
  forall c, In c cs ->
            mem_string c (df_columns raw1) = mem_string c (df_columns raw2) /\
            column_cells raw1 c = column_cells raw2 c.

(** The table of the scenario with one more column. *)
Definition foo_bar_baz : DataFrame :=
  mkDF ["baz"; "foo"; "bar"]
       [(Str "n1", [Num 7; Num 1; Num 2]); (Str "n2", [Num 9; Num 3; Num 4])].

(** The labels [0, 1, ...] that [ignore_index=True] gives to rows. *)
Definition numbered (n : nat) : list cell :=
  map (fun i => Num (inject_Z (Z.of_nat i))) (seq 0 n).

(** What the loop of [read_raw_data] keeps between two lines: the columns
    are distinct, and the rows are the records read so far, each with a cell
    for every column, missing where the record has no such key. *)
Definition holds_records (df : DataFrame) (recs : list (list (string * cell)))
  : Prop :=
  NoDup (df_columns df) /\
  Forall2 (fun row rec =>
             length row = length (df_columns df) /\
             forall c, cell_at (df_columns df) row c = record_cell rec c)
          (map snd (df_rows df)) recs.

(** The range that runs from the first of the rows listed over as many
    rows as are listed. *)
Definition span (rows : list nat) : option (nat * nat) :=
  match rows with
  | [] => None
  | a :: rest => Some (a, (a + length rest)%nat)
  end.

(** The ranges [merge_column_in_excel] adds to the sheet. *)
Definition merges_added (ws : worksheet) (row column : nat)
  : list (nat * nat * nat * nat) :=
  skipn (length (ws_merged ws)) (ws_merged (merge_column_in_excel ws row column)).

(** A column of four rows, two texts of two rows each. *)
Definition sheet_example : worksheet :=
  mkSheet (fun r _ => nth r [""; "a"; "a"; "b"; "b"] "") [] [].


(** ** Strings and regular expressions *)

Lemma sapp_cons (a : ascii) (s t : string) : String a s +:+ t = String a (s +:+ t).
Proof. reflexivity. Qed.

Lemma sapp_nil_l (s : string) : "" +:+ s = s.
Proof. reflexivity. Qed.

Lemma sapp_nil_r (s : string) : s +:+ "" = s.
Proof.
  induction s as [|a s IH]; [reflexivity | now rewrite sapp_cons, IH].
Qed.

Lemma sapp_assoc (s1 s2 s3 : string) : (s1 +:+ s2) +:+ s3 = s1 +:+ s2 +:+ s3.
Proof.
  induction s1 as [|a s1 IH]; [reflexivity | now rewrite !sapp_cons, IH].
Qed.

Lemma sapp_eq_nil (s1 s2 : string) : s1 +:+ s2 = "" -> s1 = "" /\ s2 = "".
Proof. destruct s1; [auto | rewrite sapp_cons; discriminate]. Qed.

Lemma lang_seq_inv (r1 r2 : regex) (s : string) :
  lang (RSeq r1 r2) s -> exists s1 s2, s = s1 +:+ s2 /\ lang r1 s1 /\ lang r2 s2.
Proof. inversion 1; subst; eauto. Qed.

Lemma lang_alt_inv (r1 r2 : regex) (s : string) :
  lang (RAlt r1 r2) s -> lang r1 s \/ lang r2 s.
Proof. inversion 1; subst; auto. Qed.

Lemma lang_char_inv (c : charset) (s : string) :
  lang (RChar c) s -> exists a, s = String a "" /\ in_charset c a = true.
Proof. inversion 1; subst; eauto. Qed.

Lemma lang_eps_inv (s : string) : lang REps s -> s = "".
Proof. now inversion 1. Qed.

Lemma lang_none_inv (s : string) : ~ lang RNone s.
Proof. inversion 1. Qed.

Lemma lang_seq_cons (r1 r2 : regex) (a : ascii) (s1 s2 : string) :
  lang r1 (String a s1) -> lang r2 s2 -> lang (RSeq r1 r2) (String a (s1 +:+ s2)).
Proof. intros H1 H2. rewrite <- sapp_cons. now constructor. Qed.

Lemma nullable_lang (r : regex) : nullable r = true <-> lang r "".
Proof.
  induction r as [| |c|r1 IH1 r2 IH2|r1 IH1 r2 IH2|r IH]; simpl.
  - split; [discriminate | intros H; now apply lang_none_inv in H].
  - split; [constructor | reflexivity].
  - split; [discriminate |].
    intros H. apply lang_char_inv in H as (a & Ha & _). discriminate.
  - rewrite andb_true_iff, IH1, IH2. split.
    + intros [H1 H2]. rewrite <- (sapp_nil_l ""). now constructor.
    + intros H. apply lang_seq_inv in H as (s1 & s2 & Heq & H1 & H2).
      symmetry in Heq. apply sapp_eq_nil in Heq as [-> ->]. auto.
  - rewrite orb_true_iff, IH1, IH2. split.
    + intros [H|H]; [now apply LAltL | now apply LAltR].
    + apply lang_alt_inv.
  - split; [constructor | reflexivity].
Qed.

(** A non-empty word of a star starts with a non-empty word of its body. *)
Lemma star_cons (r : regex) (s : string) :
  lang (RStar r) s ->
  forall a s', s = String a s' ->
  exists s1 s2, s' = s1 +:+ s2 /\ lang r (String a s1) /\ lang (RStar r) s2.
Proof.
  intros H. remember (RStar r) as r' eqn:Hr.
  induction H as [| | | | | |r0 s1 s2 H1 _ H2 IH2]; try discriminate Hr.
  - intros a s' Hs. discriminate Hs.
  - injection Hr as ->. intros a s' Hs.
    destruct s1 as [|b s1]; [rewrite sapp_nil_l in Hs | rewrite sapp_cons in Hs].
    + now apply IH2.
    + injection Hs as -> <-. now exists s1, s2.
Qed.

Lemma deriv_lang (r : regex) :
  forall a s, lang (deriv a r) s <-> lang r (String a s).
Proof.
  induction r as [| |c|r1 IH1 r2 IH2|r1 IH1 r2 IH2|r IH]; intros a s; simpl.
  - split; intros H; now apply lang_none_inv in H.
  - split; intros H; [now apply lang_none_inv in H |].
    apply lang_eps_inv in H. discriminate.
  - destruct (in_charset c a) eqn:Hc; split; intros H.
    + apply lang_eps_inv in H as ->. now constructor.
    + apply lang_char_inv in H as (b & Hb & _). injection Hb as _ ->. constructor.
    + now apply lang_none_inv in H.
    + apply lang_char_inv in H as (b & Hb & Hin). injection Hb as -> _. congruence.
  - assert (Hseq : lang (RSeq (deriv a r1) r2) s -> lang (RSeq r1 r2) (String a s)).
    { intros H. apply lang_seq_inv in H as (s1 & s2 & -> & H1 & H2).
      apply lang_seq_cons; [now apply IH1 | assumption]. }
    assert (Hback : lang (RSeq r1 r2) (String a s) ->
              (lang r1 "" /\ lang r2 (String a s)) \/ lang (RSeq (deriv a r1) r2) s).
    { intros H. apply lang_seq_inv in H as (s1 & s2 & Heq & H1 & H2).
      destruct s1 as [|b s1]; [rewrite sapp_nil_l in Heq | rewrite sapp_cons in Heq].
      - left. subst. auto.
      - right. injection Heq as <- ->. constructor; [now apply IH1 | assumption]. }
    destruct (nullable r1) eqn:Hn; split; intros H.
    + apply lang_alt_inv in H as [H|H]; [now apply Hseq |].
      rewrite <- (sapp_nil_l (String a s)). constructor.
      * now apply nullable_lang.
      * now apply IH2.
    + destruct (Hback H) as [[_ H2]|Hd].
      * apply LAltR. now apply IH2.
      * now apply LAltL.
    + now apply Hseq.
    + destruct (Hback H) as [[H1 _]|Hd]; [|assumption].
      apply nullable_lang in H1. congruence.
  - split; intros H.
    + apply lang_alt_inv in H as [H|H];
        [apply LAltL; now apply IH1 | apply LAltR; now apply IH2].
    + apply lang_alt_inv in H as [H|H];
        [apply LAltL; now apply IH1 | apply LAltR; now apply IH2].
  - split; intros H.
    + apply lang_seq_inv in H as (s1 & s2 & -> & H1 & H2).
      rewrite <- sapp_cons. constructor; [now apply IH | assumption].
    + destruct (star_cons r _ H a s eq_refl) as (s1 & s2 & -> & H1 & H2).
      constructor; [now apply IH | assumption].
Qed.

Lemma re_matches_lang (s : string) :
  forall r, re_matches r s = true <-> lang r s.
Proof.
  induction s as [|a s IH]; intros r; simpl.
  - apply nullable_lang.
  - rewrite IH. apply deriv_lang.
Qed.

Lemma lang_any_star (s : string) : lang (RStar (RChar CAny)) s.
Proof.
  induction s as [|a s IH]; [constructor |].
  change (String a s) with (String a "" +:+ s). constructor; [now constructor | assumption].
Qed.

Lemma lang_dot_star (s : string) :
  lang (RStar (RChar CDot)) s <-> has_char newline s = false.
Proof.
  induction s as [|a s IH]; simpl.
  - split; [reflexivity | constructor].
  - rewrite orb_false_iff, <- IH. split.
    + intros H. destruct (star_cons _ _ H a s eq_refl) as (s1 & s2 & -> & H1 & H2).
      apply lang_char_inv in H1 as (b & Hb & Hin). injection Hb as -> ->.
      rewrite sapp_nil_l. split; [|assumption].
      simpl in Hin. now apply negb_true_iff in Hin.
    + intros [Ha H]. change (String a s) with (String a "" +:+ s).
      constructor; [|assumption]. constructor. simpl. now rewrite Ha.
Qed.

(** [re.search(r'\(.*\)', s)] finds a match exactly when [s] has an opening
    parenthesis and, later on the same line, a closing one. *)
Lemma search_group_spec (s : string) :
  re_search pat_group s = true <-> contains_group_on_line s.
Proof.
  unfold re_search, contains_group_on_line. rewrite re_matches_lang. split.
  - intros H. apply lang_seq_inv in H as (pre & s' & -> & _ & H).
    apply lang_seq_inv in H as (w & post & -> & H & _).
    unfold pat_group in H.
    apply lang_seq_inv in H as (o & w' & -> & Ho & H).
    apply lang_seq_inv in H as (mid & c & -> & Hm & Hc).
    apply lang_char_inv in Ho as (a & -> & Ha).
    apply lang_char_inv in Hc as (b & -> & Hb).
    simpl in Ha, Hb. apply Ascii.eqb_eq in Ha, Hb. subst a b.
    exists pre, mid, post. split; [|now apply lang_dot_star].
    now rewrite !sapp_assoc.
  - intros (pre & mid & post & -> & Hm).
    constructor; [apply lang_any_star |].
    rewrite <- (sapp_assoc mid), <- (sapp_assoc "(").
    constructor; [|apply lang_any_star].
    unfold pat_group. constructor; [now constructor |].
    constructor; [now apply lang_dot_star | now constructor].
Qed.

Lemma fullmatch_percentile_spec (s : string) :
  re_fullmatch pat_percentile s = true <-> percentile_token s.
Proof.
  unfold re_fullmatch, percentile_token. rewrite re_matches_lang. split.
  - intros H. unfold pat_percentile, ROpt in H.
    apply lang_seq_inv in H as (p & s' & -> & Hp & H).
    apply lang_seq_inv in H as (d1 & d2 & -> & H1 & H2).
    apply lang_char_inv in Hp as (a & -> & Ha).
    apply lang_char_inv in H1 as (d & -> & Hd).
    simpl in Ha, Hd. apply Ascii.eqb_eq in Ha. subst a.
    exists d. apply lang_alt_inv in H2 as [H2|H2].
    + right. apply lang_char_inv in H2 as (d' & -> & Hd'). exists d'. auto.
    + left. apply lang_eps_inv in H2 as ->. auto.
  - intros (d & [[-> Hd] | (d' & -> & Hd & Hd')]); unfold pat_percentile, ROpt.
    + change (lang (RSeq (RChar (CLit "p")) (RSeq (RChar CDigit) (RAlt (RChar CDigit) REps)))
                   ("p" +:+ String d "" +:+ "")).
      constructor; [now constructor |].
      constructor; [now constructor | apply LAltR; constructor].
    + change (lang (RSeq (RChar (CLit "p")) (RSeq (RChar CDigit) (RAlt (RChar CDigit) REps)))
                   ("p" +:+ String d "" +:+ String d' "")).
      constructor; [now constructor |].
      constructor; [now constructor | apply LAltL; now constructor].
Qed.

Lemma is_digit_cases (d : ascii) :
  is_digit d = true ->
  In d ["0"; "1"; "2"; "3"; "4"; "5"; "6"; "7"; "8"; "9"]%char.
Proof.
  destruct d as [[] [] [] [] [] [] [] []]; intros H; try discriminate H;
    simpl; auto 12.
Qed.

(** A percentile token starts with [p], and what is left of it when the
    [p] is stripped converts to an integer below 100. *)
Lemma percentile_token_int (s : string) :
  percentile_token s ->
  startswith s "p" = true /\
  exists v, int_of_str (strip "p" s) = Some v /\ 0 <= v <= 99.
Proof.
  intros (d & [[-> Hd] | (d' & -> & Hd & Hd')]).
  - apply is_digit_cases in Hd. simpl in Hd.
    repeat (destruct Hd as [<-|Hd];
            [split; [reflexivity | eexists; split; [vm_compute; reflexivity | lia]] |]).
    destruct Hd.
  - apply is_digit_cases in Hd. apply is_digit_cases in Hd'. simpl in Hd, Hd'.
    repeat (destruct Hd as [<-|Hd];
            [repeat (destruct Hd' as [<-|Hd'];
                     [split; [reflexivity
                             | eexists; split; [vm_compute; reflexivity | lia]] |]);
             destruct Hd' |]).
    destruct Hd.
Qed.

(** ** Dictionaries *)

Lemma dict_get_set_eq {A} (d : list (string * A)) (k : string) (v : A) :
  dict_get (dict_set d k v) k = Some v.
Proof.
  induction d as [|[k' v'] d IH]; simpl.
  - now rewrite String.eqb_refl.
  - destruct (String.eqb k' k) eqn:E; simpl; rewrite E; [reflexivity | assumption].
Qed.

Lemma dict_get_set_ne {A} (d : list (string * A)) (k k' : string) (v : A) :
  k <> k' -> dict_get (dict_set d k v) k' = dict_get d k'.
Proof.
  intros Hne. induction d as [|[k0 v0] d IH]; simpl.
  - apply String.eqb_neq in Hne. now rewrite Hne.
  - destruct (String.eqb k0 k) eqn:E; simpl.
    + apply String.eqb_eq in E. subst k0.
      apply String.eqb_neq in Hne. now rewrite Hne.
    + now rewrite IH.
Qed.

Lemma dict_set_same {A} (d : list (string * A)) (k : string) (v : A) :
  dict_get d k = Some v -> dict_set d k v = d.
Proof.
  induction d as [|[k' v'] d IH]; simpl; [discriminate |].
  destruct (String.eqb k' k) eqn:E.
  - now intros [= ->].
  - intros H. now rewrite IH.
Qed.

Lemma dict_mem_set_ne {A} (d : list (string * A)) (k k' : string) (v : A) :
  k <> k' -> dict_mem (dict_set d k v) k' = dict_mem d k'.
Proof. intros H. unfold dict_mem. now rewrite dict_get_set_ne. Qed.

Lemma dict_get_In {A} (d : list (string * A)) (k : string) (v : A) :
  dict_get d k = Some v -> In (k, v) d.
Proof.
  induction d as [|[k' v'] d IH]; simpl; [discriminate |].
  destruct (String.eqb k' k) eqn:E.
  - apply String.eqb_eq in E. intros [= ->]. subst. now left.
  - intros H. right. now apply IH.
Qed.

Lemma dict_get_keys {A} (d : list (string * A)) (k : string) (v : A) :
  dict_get d k = Some v -> In k (dict_keys d).
Proof.
  intros H. apply dict_get_In in H. unfold dict_keys.
  change k with (fst (k, v)). now apply in_map.
Qed.

Lemma no_self_reference_get (l2 : loc) (d2 : dict) :
  no_self_reference l2 d2 -> forall name, dict_get d2 name <> Some (VRef l2).
Proof.
  unfold no_self_reference. intros H name Hget. apply dict_get_In in Hget.
  assert (Hex : existsb (fun kv => refers_to l2 (snd kv)) d2 = true).
  { apply existsb_exists. exists (name, VRef l2). split; [assumption |].
    cbn. apply Pos.eqb_refl. }
  congruence.
Qed.

Lemma rules_of_document (h : heap) (rules : value) (l2 : loc) (d2 : dict) :
  rules_of h rules = Some (l2, d2) -> document h rules l2 d2.
Proof.
  unfold rules_of, document. destruct rules as [| | | | |l0]; try discriminate.
  destruct (h !! l0) as [d0|] eqn:H0; [|discriminate].
  destruct (dict_get d0 "superbench") as [[| | | | |l1]|] eqn:Hsb; try discriminate.
  destruct (h !! l1) as [d1|] eqn:H1; [|discriminate].
  destruct (dict_get d1 "rules") as [[| | | | |l2']|] eqn:Hr; try discriminate.
  destruct (h !! l2') as [d2'|] eqn:H2; [|discriminate].
  intros [= -> ->]. exists l0, d0, l1, d1. auto 10.
Qed.

(** ** The monad on known inputs *)

Lemma state_eta (s : state) :
  mkState (st_heap s) (st_sb_rules s) (st_enable_metrics s) (st_raw_data_df s)
          (st_log s) (st_out s) = s.
Proof. now destruct s. Qed.

Lemma bind_ok {A B} (m : M A) (f : A -> M B) (s s' : state) (a : A) :
  m s = (Ok a, s') -> bind m f s = f a s'.
Proof. intros H. unfold bind. now rewrite H. Qed.

Lemma bind_raise {A B} (m : M A) (f : A -> M B) (s s' : state) (e : exn) :
  m s = (Raise e, s') -> bind m f s = (Raise e, s').
Proof. intros H. unfold bind. now rewrite H. Qed.

Lemma bind_inv_ok {A B} (m : M A) (f : A -> M B) (s s' : state) (b : B) :
  bind m f s = (Ok b, s') ->
  exists a s1, m s = (Ok a, s1) /\ f a s1 = (Ok b, s').
Proof.
  unfold bind. destruct (m s) as [[a|e] s1]; [eauto | discriminate].
Qed.

Lemma contains_ref (l : loc) (d : dict) (k : string) (s : state) :
  st_heap s !! l = Some d -> contains (VRef l) k s = (Ok (dict_mem d k), s).
Proof. intros H. cbv beta iota delta [contains]. now rewrite H. Qed.

Lemma getitem_ref (l : loc) (d : dict) (k : string) (v : value) (s : state) :
  st_heap s !! l = Some d -> dict_get d k = Some v ->
  getitem (VRef l) k s = (Ok v, s).
Proof. intros H Hk. cbv beta iota delta [getitem]. now rewrite H, Hk. Qed.

Lemma getitem_ref_missing (l : loc) (d : dict) (k : string) (s : state) :
  st_heap s !! l = Some d -> dict_get d k = None ->
  getitem (VRef l) k s = (Raise (KeyError k), s).
Proof. intros H Hk. cbv beta iota delta [getitem]. now rewrite H, Hk. Qed.

Lemma setitem_ref (l : loc) (d : dict) (k : string) (x : value) (s : state) :
  st_heap s !! l = Some d ->
  setitem (VRef l) k x s = (Ok tt, with_heap s (<[l := dict_set d k x]> (st_heap s))).
Proof. intros H. cbv beta iota delta [setitem]. now rewrite H. Qed.

Lemma log_and_raise_eq {A} (msg : string) (s : state) :
  @log_and_raise A msg s = (Raise (Exception msg), add_error s msg).
Proof. reflexivity. Qed.

Lemma for_each_check_function (name : string) (fs : list value) (s : state) :
  for_each fs (check_function name) s =
  (match check_functions fs with Some e => Raise e | None => Ok tt end, s).
Proof.
  induction fs as [|f fs IH]; [reflexivity |].
  cbn [for_each check_functions]. unfold bind at 1.
  destruct f as [|b|z|f|l|l]; try reflexivity.
  unfold check_function.
  destruct (re_fullmatch pat_percentile f); [exact IH |].
  destruct (SummaryType_of f); [exact IH | reflexivity].
Qed.

(** [_check_rules] on a rule that is a dictionary of the heap. *)
Lemma check_rules_dict (l : loc) (d : dict) (name : string) (s : state) :
  st_heap s !! l = Some d ->
  _check_rules (VRef l) name s = check_dict l d name s.
Proof.
  intros Hl. unfold _check_rules, RuleBase_check_rules, check_dict.
  unfold bind at 1. unfold bind at 1. rewrite (contains_ref l d "categories" s Hl).
  destruct (dict_mem d "categories") eqn:Hc; cbn [negb]; [|reflexivity].
  cbn [ret]. unfold bind at 1. rewrite (contains_ref l d "metrics" s Hl).
  unfold bind at 1.
  destruct (dict_mem d "metrics") eqn:Hm; cbn [negb]; [|reflexivity].
  cbn [ret]. unfold bind at 1. rewrite (contains_ref l d "statistics" s Hl).
  unfold bind at 1. unfold dict_mem at 1.
  destruct (dict_get d "statistics") as [v|] eqn:Hs; cbn [negb]; [|reflexivity].
  cbn [ret]. unfold bind at 1. rewrite (getitem_ref l d "statistics" v s Hl Hs).
  unfold bind at 1.
  set (d' := dict_set d "statistics" (VList [v])).
  set (s1 := if is_list v then s else with_heap s (<[l := d']> (st_heap s))).
  assert (H1 : exists d1, st_heap s1 !! l = Some d1 /\
             dict_get d1 "statistics" = Some (VList (functions_of v)) /\
             dict_get d1 "aggregate" = dict_get d "aggregate").
  { subst s1. destruct v; cbn [is_list]; try (exists d; now auto);
      (exists d'; cbn [with_heap st_heap]; rewrite lookup_insert_eq;
       split; [reflexivity |]; subst d'; split;
       [apply dict_get_set_eq | now apply dict_get_set_ne]). }
  destruct H1 as (d1 & Hl1 & Hs1 & Ha1).
  assert (Hset : (if negb (is_list v) then setitem (VRef l) "statistics" (VList [v])
                  else ret tt) s = (Ok tt, s1)).
  { subst s1. destruct (is_list v); cbn [negb]; [reflexivity |].
    now rewrite (setitem_ref l d _ _ s Hl). }
  rewrite Hset. unfold bind at 1.
  rewrite (getitem_ref l d1 "statistics" _ s1 Hl1 Hs1).
  unfold bind at 1. cbn [iter_list ret]. unfold bind at 1. unfold bind at 1.
  rewrite for_each_check_function.
  destruct (check_functions (functions_of v)) as [e|]; [reflexivity |].
  unfold bind at 1. unfold bind at 1. rewrite (contains_ref l d1 "aggregate" s1 Hl1).
  unfold dict_mem. rewrite Ha1.
  destruct (dict_get d "aggregate") as [a|] eqn:Ha; [|reflexivity].
  unfold bind at 1. rewrite (getitem_ref l d1 "aggregate" a s1 Hl1);
    [|now rewrite Ha1].
  destruct a as [|b|z|a|la|la]; cbn [is_bool search_group]; try reflexivity.
  unfold ret at 1. destruct (re_search pat_group a); reflexivity.
Qed.

Lemma normalised_from_refl (h : heap) : normalised_from h h.
Proof. intros l. now left. Qed.

Lemma normalised_is_list (d d' : dict) :
  normalised d d' -> exists v, dict_get d' "statistics" = Some (VList [v]).
Proof. intros (v & _ & _ & ->). exists v. apply dict_get_set_eq. Qed.

Lemma normalised_from_trans (h1 h2 h3 : heap) :
  normalised_from h1 h2 -> normalised_from h2 h3 -> normalised_from h1 h3.
Proof.
  intros H12 H23 l. destruct (H12 l) as [E12|(d & d' & Hd & Hd' & Hn)];
    destruct (H23 l) as [E23|(e & e' & He & He' & Hn')].
  - left. congruence.
  - right. exists e, e'. rewrite <- E12. auto.
  - right. exists d, d'. rewrite E23. auto.
  - exfalso. rewrite Hd' in He. injection He as <-.
    destruct (normalised_is_list _ _ Hn) as (v & Hv).
    destruct Hn' as (v' & Hv' & Hl' & _). rewrite Hv in Hv'.
    injection Hv' as <-. discriminate Hl'.
Qed.

Lemma frame_refl (s : state) : frame s s.
Proof. repeat split. Qed.

Lemma frame_trans (s1 s2 s3 : state) : frame s1 s2 -> frame s2 s3 -> frame s1 s3.
Proof.
  intros (A1 & A2 & A3 & A4) (B1 & B2 & B3 & B4).
  repeat split; congruence.
Qed.

Lemma frame_add_error (s : state) (msg : string) : frame s (add_error s msg).
Proof. repeat split. Qed.

Lemma frame_with_heap (s : state) (h : heap) : frame s (with_heap s h).
Proof. repeat split. Qed.

(** [_check_rules] on a rule that is no dictionary raises, and leaves the
    heap as it is. *)
Lemma check_rules_nonref (r : value) (name : string) (s : state) :
  (forall l d, r = VRef l -> st_heap s !! l <> Some d) ->
  exists e s', _check_rules r name s = (Raise e, s') /\
               st_heap s' = st_heap s /\ frame s s'.
Proof.
  intros Hr. unfold _check_rules, RuleBase_check_rules.
  destruct r as [|b|z|t|l|l].
  1-3: eexists _, s; split; [reflexivity | split; [reflexivity | apply frame_refl]].
  - cbv beta iota delta [bind contains getitem log_and_raise logger raise ret negb].
    destruct (is_substring "categories" t); cbv beta iota;
      [|eexists _, _; split; [reflexivity | split; [reflexivity | repeat split]]].
    destruct (is_substring "metrics" t); cbv beta iota;
      [|eexists _, _; split; [reflexivity | split; [reflexivity | repeat split]]].
    destruct (is_substring "statistics" t); cbv beta iota;
      eexists _, _; (split; [reflexivity | split; [reflexivity | repeat split]]).
  - cbv beta iota delta [bind contains getitem log_and_raise logger raise ret negb].
    destruct (existsb (is_str "categories") l); cbv beta iota;
      [|eexists _, _; split; [reflexivity | split; [reflexivity | repeat split]]].
    destruct (existsb (is_str "metrics") l); cbv beta iota;
      [|eexists _, _; split; [reflexivity | split; [reflexivity | repeat split]]].
    destruct (existsb (is_str "statistics") l); cbv beta iota;
      eexists _, _; (split; [reflexivity | split; [reflexivity | repeat split]]).
  - cbv beta iota delta [bind contains].
    destruct (st_heap s !! l) as [d|] eqn:Hl; [now destruct (Hr l d) |].
    eexists _, s. split; [reflexivity | split; [reflexivity | apply frame_refl]].
Qed.

(** The states [check_dict] can end in. *)
Lemma check_dict_state (l : loc) (d : dict) (name : string) (s : state)
    (res : result value) (s' : state) :
  st_heap s !! l = Some d ->
  check_dict l d name s = (res, s') ->
  frame s s' /\
  (st_heap s' = st_heap s \/
   exists v, dict_get d "statistics" = Some v /\ is_list v = false /\
             dict_mem d "categories" = true /\ dict_mem d "metrics" = true /\
             st_heap s' = <[l := dict_set d "statistics" (VList [v])]> (st_heap s)) /\
  (forall x, res = Ok x -> x = VRef l).
Proof.
  intros Hl. unfold check_dict.
  destruct (dict_mem d "categories") eqn:Hc; cbn [negb];
    [|intros [= <- <-]; split; [apply frame_add_error | split; [now left | discriminate]]].
  destruct (dict_mem d "metrics") eqn:Hm; cbn [negb];
    [|intros [= <- <-]; split; [apply frame_add_error | split; [now left | discriminate]]].
  destruct (dict_get d "statistics") as [v|] eqn:Hs;
    [|intros [= <- <-]; split; [apply frame_add_error | split; [now left | discriminate]]].
  set (s1 := if is_list v then s
             else with_heap s (<[l := dict_set d "statistics" (VList [v])]> (st_heap s))).
  assert (H1 : frame s s1 /\
               (st_heap s1 = st_heap s \/
                exists v0, Some v = Some v0 /\ is_list v0 = false /\
                  true = true /\ true = true /\
                  st_heap s1 = <[l := dict_set d "statistics" (VList [v0])]> (st_heap s))).
  { subst s1. destruct (is_list v) eqn:Hv.
    - split; [apply frame_refl | now left].
    - split; [apply frame_with_heap |]. right. exists v. auto. }
  destruct H1 as [Hf Hh].
  assert (Hadd : forall msg, frame s (add_error s1 msg)).
  { intros msg. eapply frame_trans; [exact Hf | apply frame_add_error]. }
  destruct (check_functions (functions_of v));
    [intros [= <- <-]; split; [assumption | split; [assumption | discriminate]] |].
  destruct (dict_get d "aggregate") as [[|b|z|a|la|la]|];
    try (intros [= <- <-]; split; [assumption | split; [assumption |]];
         first [discriminate | now intros x [= <-]]).
  destruct (re_search pat_group a); intros [= <- <-].
  - split; [assumption | split; [assumption | now intros x [= <-]]].
  - split; [apply Hadd | split; [exact Hh | discriminate]].
Qed.

(** What [_check_rules] may change: the rule it is given, by
    normalisation, and the log. *)
Lemma check_rules_effect (r : value) (name : string) (s : state)
    (res : result value) (s' : state) :
  _check_rules r name s = (res, s') ->
  frame s s' /\
  (forall l, r <> VRef l -> st_heap s' !! l = st_heap s !! l) /\
  normalised_from (st_heap s) (st_heap s') /\
  (forall x, res = Ok x -> x = r).
Proof.
  intros H.
  assert (Hcase : (exists l d, r = VRef l /\ st_heap s !! l = Some d) \/
                  (forall l d, r = VRef l -> st_heap s !! l <> Some d)).
  { destruct r as [| | | | |l]; try (right; intros; discriminate).
    destruct (st_heap s !! l) as [d|] eqn:Hl.
    - left. eauto.
    - right. intros l' d' [= <-]. congruence. }
  destruct Hcase as [(l & d & -> & Hl)|Hn].
  - rewrite (check_rules_dict l d name s Hl) in H.
    destruct (check_dict_state l d name s res s' Hl H) as (Hf & Hh & Hres).
    split; [assumption |]. split; [|split; [|assumption]].
    + intros l' Hne. destruct Hh as [->|(v & _ & _ & _ & _ & ->)]; [reflexivity |].
      apply lookup_insert_ne. congruence.
    + intros l'. destruct Hh as [->|(v & Hv & Hlist & _ & _ & ->)]; [now left |].
      destruct (decide (l = l')) as [<-|Hne].
      * right. exists d, (dict_set d "statistics" (VList [v])).
        rewrite lookup_insert_eq. split; [assumption | split; [reflexivity |]].
        exists v. auto.
      * left. now apply lookup_insert_ne.
  - destruct (check_rules_nonref r name s Hn) as (e & s0 & H0 & Hh & Hf).
    rewrite H0 in H. injection H as <- <-.
    split; [assumption |]. split; [now rewrite Hh |].
    split; [rewrite Hh; apply normalised_from_refl | discriminate].
Qed.

(** ** Computations that keep the heap *)

Lemma keeps_ret {A} (a : A) : keeps (ret a).
Proof. intros s. repeat split. Qed.

Lemma keeps_raise {A} (e : exn) : keeps (@raise A e).
Proof. intros s. repeat split. Qed.

Lemma keeps_lift {A} (r : result A) : keeps (lift r).
Proof. intros s. repeat split. Qed.

Lemma keeps_bind {A B} (m : M A) (f : A -> M B) :
  keeps m -> (forall a, keeps (f a)) -> keeps (bind m f).
Proof.
  intros Hm Hf s. unfold bind. specialize (Hm s).
  destruct (m s) as [[a|e] s1]; cbn [snd] in *; [|assumption].
  destruct (Hf a s1) as (H1 & H2 & H3). destruct Hm as (G1 & G2 & G3).
  repeat split; congruence.
Qed.

Lemma keeps_try_except {A} (m : M A) (h : exn -> M A) :
  keeps m -> (forall e, keeps (h e)) -> keeps (try_except m h).
Proof.
  intros Hm Hh s. unfold try_except. specialize (Hm s).
  destruct (m s) as [[a|e] s1]; cbn [snd] in *; [assumption |].
  destruct (Hh e s1) as (H1 & H2 & H3). destruct Hm as (G1 & G2 & G3).
  repeat split; congruence.
Qed.

Lemma keeps_getitem (v : value) (k : string) : keeps (getitem v k).
Proof.
  intros s. unfold getitem. destruct v; try (repeat split; fail).
  destruct (st_heap s !! l) as [d|]; [|repeat split].
  destruct (dict_get d k); repeat split.
Qed.

Lemma keeps_contains (v : value) (k : string) : keeps (contains v k).
Proof.
  intros s. unfold contains. destruct v; try (repeat split; fail).
  destruct (st_heap s !! l); repeat split.
Qed.

Lemma keeps_iter_keys (v : value) : keeps (iter_keys v).
Proof.
  intros s. unfold iter_keys. destruct v as [| | |t|l|l]; try (repeat split; fail).
  - destruct t; repeat split.
  - destruct l; repeat split.
  - destruct (st_heap s !! l); repeat split.
Qed.

Lemma keeps_logger (lv : level) (msg : string) : keeps (logger lv msg).
Proof. intros s. repeat split. Qed.

Lemma keeps_set_sb_rules f : keeps (set_sb_rules f).
Proof. intros s. repeat split. Qed.

Lemma keeps_set_enable_metrics f : keeps (set_enable_metrics f).
Proof. intros s. repeat split. Qed.

Lemma keeps_get_raw_data_df : keeps get_raw_data_df.
Proof. intros s. repeat split. Qed.

Lemma keeps_get_heap : keeps get_heap.
Proof. intros s. repeat split. Qed.

Lemma keeps_for_each {A} (l : list A) (body : A -> M unit) :
  (forall x, keeps (body x)) -> keeps (for_each l body).
Proof.
  intros Hb. induction l as [|x l IH]; cbn [for_each].
  - apply keeps_ret.
  - apply keeps_bind; [apply Hb | intros _; exact IH].
Qed.

Create HintDb keeps.
#[export] Hint Resolve keeps_ret keeps_raise keeps_lift keeps_getitem keeps_contains
  keeps_iter_keys keeps_logger keeps_set_sb_rules keeps_set_enable_metrics
  keeps_get_raw_data_df keeps_get_heap : keeps.

Ltac keeps_tac :=
  repeat match goal with
         | |- keeps (bind _ _) => apply keeps_bind
         | |- keeps (for_each _ _) => apply keeps_for_each
         | |- keeps (if ?b then _ else _) => destruct b
         | |- forall _, keeps _ => intro
         | |- keeps _ => solve [auto with keeps]
         end.

Section Parsing.

Variable metric_match : string -> string -> bool.
Variable aggregate : DataFrame -> option value -> result DataFrame.
Variable std_of : list Q -> Q.
Variable percentile_of : Z -> list Q -> Q.

Lemma keeps_get_metrics (rule : string) (benchmark_rules : value) :
  keeps (_get_metrics metric_match rule benchmark_rules).
Proof.
  unfold _get_metrics. keeps_tac.
  destruct (resolve_metrics _ _ _); keeps_tac.
Qed.


(** The growth of [self._sb_rules[rule]['metrics']] in [_get_metrics]. *)
Lemma add_metrics_loop (rule : string) (ms : list string) :
  forall s,
    exists s',
      for_each ms (fun metric =>
        set_sb_rules (add_metric rule metric) ;;
        set_enable_metrics (set_add metric)) s = (Ok tt, s') /\
      st_sb_rules s' = fold_left (fun rs m => add_metric rule m rs) ms (st_sb_rules s).
Proof.
  induction ms as [|m ms IH]; intros s; cbn [for_each fold_left].
  - exists s. split; reflexivity.
  - unfold bind at 1. unfold bind at 1. cbn [set_sb_rules set_enable_metrics].
    match goal with |- context [for_each ms _ ?s0] => destruct (IH s0) as (s' & -> & Hs') end.
    exists s'. split; [reflexivity | exact Hs'].
Qed.

Lemma dict_set_set {A} (d : list (string * A)) (k : string) (v v' : A) :
  dict_set (dict_set d k v) k v' = dict_set d k v'.
Proof.
  induction d as [|[k0 v0] d IH]; cbn [dict_set].
  - now rewrite String.eqb_refl.
  - destruct (String.eqb k0 k) eqn:E; cbn [dict_set]; rewrite E;
      [reflexivity | now rewrite IH].
Qed.

Lemma dict_set_nonempty {A} (d : list (string * A)) (k : string) (v : A) :
  dict_set d k v <> [].
Proof.
  destruct d as [|[k0 v0] d]; cbn [dict_set]; [discriminate |].
  destruct (String.eqb k0 k); discriminate.
Qed.

Lemma dict_set_resolved (rs : list (string * sb_rule)) (k : string) (r : sb_rule) :
  all_resolved rs -> r_metrics r <> [] -> all_resolved (dict_set rs k r).
Proof.
  unfold all_resolved. intros H Hr.
  induction H as [|[k0 r0] rs H0 H IH]; cbn [dict_set].
  - constructor; [assumption | constructor].
  - destruct (String.eqb k0 k); constructor; assumption.
Qed.

Lemma add_metric_resolved (rule m : string) (rs : list (string * sb_rule)) :
  all_resolved rs -> all_resolved (add_metric rule m rs).
Proof.
  unfold add_metric. intros H.
  destruct (dict_get rs rule) as [r|]; [|assumption].
  apply dict_set_resolved; [assumption |]. apply dict_set_nonempty.
Qed.

Lemma add_metrics_resolved (rule : string) (ms : list string) :
  forall rs, all_resolved rs ->
             all_resolved (fold_left (fun rs m => add_metric rule m rs) ms rs).
Proof.
  induction ms as [|m ms IH]; intros rs H; cbn [fold_left]; [assumption |].
  apply IH. now apply add_metric_resolved.
Qed.

(** Once a rule has been entered with no metric, resolving at least one
    metric for it makes every entry resolved again. *)
Lemma enter_and_resolve (rule : string) (r0 : sb_rule) (m : string)
    (ms : list string) (rs : list (string * sb_rule)) :
  all_resolved rs ->
  all_resolved (fold_left (fun rs m => add_metric rule m rs) (m :: ms)
                  (dict_set rs rule r0)).
Proof.
  intros H. cbn [fold_left]. apply add_metrics_resolved.
  unfold add_metric. rewrite dict_get_set_eq, dict_set_set.
  apply dict_set_resolved; [assumption |]. apply dict_set_nonempty.
Qed.

Lemma getitem_state (v : value) (k : string) (s : state) res s' :
  getitem v k s = (res, s') -> s' = s.
Proof.
  unfold getitem. destruct v; try (now intros [= _ <-]).
  destruct (st_heap s !! l) as [d|]; [|now intros [= _ <-]].
  destruct (dict_get d k); now intros [= _ <-].
Qed.

Lemma contains_state (v : value) (k : string) (s : state) res s' :
  contains v k s = (res, s') -> s' = s.
Proof.
  unfold contains. destruct v; try (now intros [= _ <-]).
  destruct (st_heap s !! l); now intros [= _ <-].
Qed.

Lemma iter_keys_state (v : value) (s : state) res s' :
  iter_keys v s = (res, s') -> s' = s.
Proof.
  unfold iter_keys. destruct v as [| | |t|l|l]; try (now intros [= _ <-]).
  - destruct t; now intros [= _ <-].
  - destruct l; now intros [= _ <-].
  - destruct (st_heap s !! l); now intros [= _ <-].
Qed.

Lemma setitem_frame (v : value) (k : string) (x : value) (s : state) res s' :
  setitem v k x s = (res, s') -> frame s s'.
Proof.
  unfold setitem. destruct v; try (intros [= _ <-]; apply frame_refl).
  destruct (st_heap s !! l); intros [= _ <-];
    [apply frame_with_heap | apply frame_refl].
Qed.

(** A successful [_get_metrics] has resolved at least one metric. *)
Lemma get_metrics_ok (rule : string) (benchmark_rules : value) (s s' : state) :
  _get_metrics metric_match rule benchmark_rules s = (Ok tt, s') ->
  exists m ms,
    st_sb_rules s' =
    fold_left (fun rs m => add_metric rule m rs) (m :: ms) (st_sb_rules s).
Proof.
  unfold _get_metrics. intros H.
  apply bind_inv_ok in H as (r & s1 & H1 & H). apply getitem_state in H1 as ->.
  apply bind_inv_ok in H as (mv & s1 & H1 & H). apply getitem_state in H1 as ->.
  apply bind_inv_ok in H as (entries & s1 & H1 & H).
  unfold lift in H1. injection H1 as _ <-.
  apply bind_inv_ok in H as (raw & s1 & H1 & H).
  unfold get_raw_data_df in H1. injection H1 as <- <-.
  destruct (resolve_metrics metric_match entries (df_columns (st_raw_data_df s)))
    as [|m ms]; [discriminate H |].
  destruct (add_metrics_loop rule (m :: ms) s) as (s2 & H2 & Hs2).
  rewrite H2 in H. injection H as <-. now exists m, ms.
Qed.

(** A successful round of the loop of [_parse_rules] keeps every entry of
    [self._sb_rules] resolved. *)
Lemma parse_rule_resolved (benchmark_rules : value) (rule : string) (s s' : state) :
  parse_rule metric_match benchmark_rules rule s = (Ok tt, s') ->
  all_resolved (st_sb_rules s) -> all_resolved (st_sb_rules s').
Proof.
  unfold parse_rule, enter_rule. intros H Hall.
  apply bind_inv_ok in H as (r & s1 & H1 & H). apply getitem_state in H1 as ->.
  apply bind_inv_ok in H as (checked & s1 & H1 & H).
  apply check_rules_effect in H1 as ((Hsb1 & _) & _).
  apply bind_inv_ok in H as ([] & s2 & H2 & H).
  apply setitem_frame in H2 as (Hsb2 & _).
  apply bind_inv_ok in H as (r1 & s3 & H3 & H). apply getitem_state in H3 as ->.
  apply bind_inv_ok in H as (categories & s3 & H3 & H). apply getitem_state in H3 as ->.
  apply bind_inv_ok in H as (r2 & s3 & H3 & H). apply getitem_state in H3 as ->.
  apply bind_inv_ok in H as (statistics & s3 & H3 & H). apply getitem_state in H3 as ->.
  apply bind_inv_ok in H as (r3 & s3 & H3 & H). apply getitem_state in H3 as ->.
  apply bind_inv_ok in H as (has & s3 & H3 & H). apply contains_state in H3 as ->.
  apply bind_inv_ok in H as (agg & s3 & H3 & H).
  assert (s3 = s2) as ->.
  { destruct has.
    - apply bind_inv_ok in H3 as (r4 & s4 & H4 & H3).
      apply getitem_state in H4 as ->. now apply getitem_state in H3.
    - now injection H3 as _ <-. }
  apply bind_inv_ok in H as ([] & s4 & H4 & H).
  unfold set_sb_rules in H4. injection H4 as <-.
  apply get_metrics_ok in H as (m & ms & ->). cbn [st_sb_rules].
  apply enter_and_resolve. congruence.
Qed.

Lemma parse_loop_resolved (benchmark_rules : value) (names : list string) :
  forall s s',
    for_each names (parse_rule metric_match benchmark_rules) s = (Ok tt, s') ->
    all_resolved (st_sb_rules s) -> all_resolved (st_sb_rules s').
Proof.
  induction names as [|n names IH]; intros s s' H Hall; cbn [for_each] in H.
  - injection H as <-. assumption.
  - apply bind_inv_ok in H as ([] & s1 & H1 & H).
    eapply IH; [exact H |]. eapply parse_rule_resolved; eassumption.
Qed.

Lemma keeps_enter_rule (benchmark_rules : value) (rule : string) :
  keeps (enter_rule metric_match benchmark_rules rule).
Proof.
  unfold enter_rule. keeps_tac. apply keeps_get_metrics.
Qed.

(** What one round of the loop of [_parse_rules] may change, whatever
    its outcome. *)
Lemma parse_rule_effect (l2 : loc) (d2 : dict) (rule : string) (s : state)
    (res : result unit) (s' : state) :
  st_heap s !! l2 = Some d2 -> no_self_reference l2 d2 ->
  parse_rule metric_match (VRef l2) rule s = (res, s') ->
  st_heap s' !! l2 = Some d2 /\ normalised_from (st_heap s) (st_heap s') /\
  st_raw_data_df s' = st_raw_data_df s /\ st_out s' = st_out s.
Proof.
  intros Hl2 Hself. unfold parse_rule.
  destruct (dict_get d2 rule) as [r|] eqn:Hr.
  - rewrite (bind_ok _ _ _ _ _ (getitem_ref l2 d2 rule r s Hl2 Hr)).
    destruct (_check_rules r rule s) as [res1 s1] eqn:Hc.
    destruct (check_rules_effect _ _ _ _ _ Hc) as ((_ & _ & Hraw & Hout) & Hsame & Hn & Hres).
    assert (Hl2' : st_heap s1 !! l2 = Some d2).
    { rewrite Hsame; [assumption |]. intros ->.
      now apply (no_self_reference_get _ _ Hself rule). }
    destruct res1 as [x|e].
    + rewrite (bind_ok _ _ _ _ _ Hc). rewrite (Hres x eq_refl).
      rewrite (bind_ok _ _ _ _ _ (setitem_ref l2 d2 rule r s1 Hl2')).
      rewrite (dict_set_same _ _ _ Hr), (insert_id _ _ _ Hl2').
      intros H. pose proof (keeps_enter_rule (VRef l2) rule (with_heap s1 (st_heap s1))) as K.
      rewrite H in K. cbn [snd with_heap st_heap st_raw_data_df st_out] in K.
      destruct K as (K1 & K2 & K3). rewrite K1, K2, K3. auto.
    + rewrite (bind_raise _ _ _ _ _ Hc). intros [= _ <-]. auto.
  - rewrite (bind_raise _ _ _ _ _ (getitem_ref_missing l2 d2 rule s Hl2 Hr)).
    intros [= _ <-]. split; [assumption |].
    split; [apply normalised_from_refl | auto].
Qed.

Lemma parse_loop_effect (l2 : loc) (d2 : dict) (names : list string) :
  forall s res s',
    st_heap s !! l2 = Some d2 -> no_self_reference l2 d2 ->
    for_each names (parse_rule metric_match (VRef l2)) s = (res, s') ->
    st_heap s' !! l2 = Some d2 /\ normalised_from (st_heap s) (st_heap s') /\
    st_raw_data_df s' = st_raw_data_df s /\ st_out s' = st_out s.
Proof.
  induction names as [|n names IH]; intros s res s' Hl2 Hself; cbn [for_each].
  - intros [= _ <-]. split; [assumption |].
    split; [apply normalised_from_refl | auto].
  - destruct (parse_rule metric_match (VRef l2) n s) as [res1 s1] eqn:H1.
    destruct (parse_rule_effect _ _ _ _ _ _ Hl2 Hself H1) as (A1 & A2 & A3 & A4).
    destruct res1 as [[]|e].
    + rewrite (bind_ok _ _ _ _ _ H1). intros H.
      destruct (IH _ _ _ A1 Hself H) as (B1 & B2 & B3 & B4).
      split; [assumption |].
      split; [eapply normalised_from_trans; eassumption |].
      split; congruence.
    + rewrite (bind_raise _ _ _ _ _ H1). intros [= _ <-]. auto.
Qed.

(** A loop stops with an exception as soon as one round raises, if the
    reason for that round to raise survives the rounds before it. *)
Lemma for_each_raises {A} (body : A -> M unit) (I : state -> Prop) (x : A)
    (xs : list A) :
  (forall y s, I s -> I (snd (body y s))) ->
  (forall s, I s -> exists e, fst (body x s) = Raise e) ->
  In x xs ->
  forall s, I s -> exists e, fst (for_each xs body s) = Raise e.
Proof.
  intros Hkeep Hbad. induction xs as [|y xs IH]; intros Hin s Hs; [destruct Hin |].
  cbn [for_each]. unfold bind.
  destruct (body y s) as [[[]|e] s1] eqn:Hy.
  - destruct Hin as [->|Hin].
    + destruct (Hbad s Hs) as (e & He). rewrite Hy in He. discriminate He.
    + apply IH; [assumption |]. specialize (Hkeep y s Hs). now rewrite Hy in Hkeep.
  - now exists e.
Qed.

(** [_parse_rules] on a document of the expected shape: the loop runs
    over the rule names, and an exception of the loop is logged and
    turned into [False]. *)
Lemma parse_rules_document (rules : value) (l2 : loc) (d2 : dict) (s : state) :
  document (st_heap s) rules l2 d2 ->
  _parse_rules metric_match rules s =
  match for_each (dict_keys d2) (parse_rule metric_match (VRef l2)) (reset_rules s) with
  | (Ok _, s1) => (Ok true, s1)
  | (Raise e, s1) =>
      (Ok false, add_error s1 ("ResultSummary: parse rules failed - " +:+ str_exn e))
  end.
Proof.
  intros (l0 & d0 & l1 & d1 & -> & H0 & Hsb & Hd1 & Hr & H2).
  unfold _parse_rules, try_except.
  unfold bind at 1. cbn [get_heap truthy]. rewrite H0.
  destruct d0 as [|kv d0]; [discriminate Hsb |]. cbn [negb].
  unfold bind at 1. cbn [set_sb_rules]. unfold bind at 1. cbn [set_enable_metrics].
  fold (reset_rules s).
  assert (R0 : st_heap (reset_rules s) !! l0 = Some (kv :: d0)) by exact H0.
  assert (R1 : st_heap (reset_rules s) !! l1 = Some d1) by exact Hd1.
  assert (R2 : st_heap (reset_rules s) !! l2 = Some d2) by exact H2.
  rewrite (bind_ok _ _ _ _ _ (getitem_ref l0 _ _ _ _ R0 Hsb)).
  rewrite (bind_ok _ _ _ _ _ (getitem_ref l1 _ _ _ _ R1 Hr)).
  unfold bind at 1. cbv beta iota delta [iter_keys]. rewrite R2.
  unfold bind at 1.
  destruct (for_each (dict_keys d2) (parse_rule metric_match (VRef l2)) (reset_rules s))
    as [[[]|e] s1]; reflexivity.
Qed.

(** A successful parse leaves no rule without metrics. *)
Lemma parse_rules_resolved (rules : value) (s s' : state) :
  _parse_rules metric_match rules s = (Ok true, s') ->
  all_resolved (st_sb_rules s').
Proof.
  unfold _parse_rules, try_except.
  match goal with |- context [bind get_heap ?f s] =>
    destruct (bind get_heap f s) as [[b|e] s1] eqn:H end;
    [|intros [= ?]; discriminate].
  intros [= -> ->]. unfold bind at 1 in H. cbn [get_heap] in H.
  destruct (negb (truthy (st_heap s) rules)); [discriminate H |].
  apply bind_inv_ok in H as ([] & s1 & H1 & H). injection H1 as <-.
  apply bind_inv_ok in H as ([] & s1 & H1 & H). injection H1 as <-.
  apply bind_inv_ok in H as (sb & s1 & H1 & H). apply getitem_state in H1 as ->.
  apply bind_inv_ok in H as (br & s1 & H1 & H). apply getitem_state in H1 as ->.
  apply bind_inv_ok in H as (names & s1 & H1 & H). apply iter_keys_state in H1 as ->.
  apply bind_inv_ok in H as ([] & s1 & H1 & H). injection H as <-.
  eapply parse_loop_resolved; [exact H1 |]. constructor.
Qed.

(** What [_check_rules] has established when it returns. *)
Lemma check_dict_ok (l : loc) (d : dict) (name : string) (s : state) x s1 :
  st_heap s !! l = Some d ->
  check_dict l d name s = (Ok x, s1) ->
  dict_mem d "categories" = true /\ dict_mem d "metrics" = true /\
  (exists v, dict_get d "statistics" = Some v /\
             check_functions (functions_of v) = None) /\
  st_heap s1 !! l = Some (checked_dict d) /\
  (forall l', l' <> l -> st_heap s1 !! l' = st_heap s !! l').
Proof.
  intros Hl. unfold check_dict, checked_dict.
  destruct (dict_mem d "categories"); cbn [negb]; [|discriminate].
  destruct (dict_mem d "metrics"); cbn [negb]; [|discriminate].
  destruct (dict_get d "statistics") as [v|]; [|discriminate].
  set (s0 := if is_list v then s else _).
  assert (H0 : st_heap s0 !! l =
               Some (if is_list v then d else dict_set d "statistics" (VList [v])) /\
               forall l', l' <> l -> st_heap s0 !! l' = st_heap s !! l').
  { subst s0. destruct (is_list v); [auto |]. cbn [with_heap st_heap].
    split; [apply lookup_insert_eq |]. intros l' Hne. now apply lookup_insert_ne. }
  destruct (check_functions (functions_of v)) eqn:Hf; [discriminate |].
  destruct (dict_get d "aggregate") as [[|b|z|a|la|la]|]; try discriminate;
    try (intros [= _ <-]; split; [reflexivity | split; [reflexivity |]];
         split; [now exists v | exact H0]).
  destruct (re_search pat_group a); [|discriminate].
  intros [= _ <-]. split; [reflexivity | split; [reflexivity |]].
  split; [now exists v | exact H0].
Qed.

(** The loaders change neither the heap nor the recorded outputs. *)
Lemma preprocess_effect (w : world) (raw_data_file : string)
    (rule_file : option string) (s : state) res s' :
  preprocess w raw_data_file rule_file s = (res, s') ->
  st_heap s' = st_heap s /\ st_out s' = st_out s.
Proof.
  unfold preprocess, read_raw_data, read_rules, is_file_missing.
  destruct (raw_files w !! raw_data_file) as [ls|];
    [destruct (read_raw_data_try ls) as [df [e|]]
    | destruct (stat_errors w !! raw_data_file);
      [intros [= _ <-]; split; reflexivity |]];
    match goal with
    | |- context [rule_files w !! ?p] =>
        destruct (rule_files w !! p); [|destruct (stat_errors w !! p)]
    end;
    intros [= _ <-]; split; reflexivity.
Qed.

(** When parsing fails, [run] stops: no summary is generated, and none
    is handed to a writer. *)
Lemma run_parse_failed (w : world) (raw_data_file : string)
    (rule_file : option string) (output_dir output_format : string)
    (s s1 s2 : state) (rules : value) :
  preprocess w raw_data_file rule_file s = (Ok rules, s1) ->
  _parse_rules metric_match rules s1 = (Ok false, s2) ->
  run metric_match aggregate std_of percentile_of w raw_data_file rule_file
      output_dir output_format s = (Ok tt, s2).
Proof.
  intros Hp Hr. unfold run, try_except.
  rewrite (bind_ok _ _ _ _ _ Hp), (bind_ok _ _ _ _ _ Hr). reflexivity.
Qed.

(** A document with a rule that cannot be parsed makes [_parse_rules]
    return [False], with nothing written out. *)
Lemma parse_rules_fails (rules : value) (l2 : loc) (d2 : dict) (name : string)
    (I : state -> Prop) (s : state) :
  document (st_heap s) rules l2 d2 -> no_self_reference l2 d2 ->
  In name (dict_keys d2) ->
  (forall y s0, I s0 -> I (snd (parse_rule metric_match (VRef l2) y s0))) ->
  (forall s0, I s0 -> exists e, fst (parse_rule metric_match (VRef l2) name s0) = Raise e) ->
  I (reset_rules s) ->
  exists s', _parse_rules metric_match rules s = (Ok false, s') /\
             st_out s' = st_out s.
Proof.
  intros Hdoc Hself Hin Hkeep Hbad HI.
  rewrite (parse_rules_document _ _ _ _ Hdoc).
  destruct (for_each_raises _ I name _ Hkeep Hbad Hin _ HI) as (e & He).
  destruct (for_each (dict_keys d2) (parse_rule metric_match (VRef l2)) (reset_rules s))
    as [res s1] eqn:Hloop.
  cbn [fst] in He. subst res.
  assert (Hl2 : st_heap (reset_rules s) !! l2 = Some d2).
  { destruct Hdoc as (? & ? & ? & ? & _ & _ & _ & _ & _ & H2). exact H2. }
  destruct (parse_loop_effect _ _ _ _ _ _ Hl2 Hself Hloop) as (_ & _ & _ & Hout).
  eexists. split; [reflexivity |]. exact Hout.
Qed.

(** A rule without [statistics] or without [metrics] stays so while the
    rules before it are parsed. *)
Lemma normalised_from_lacks (h h' : heap) (l : loc) (d : dict) :
  normalised_from h h' -> h !! l = Some d ->
  dict_mem d "statistics" = false \/ dict_mem d "metrics" = false ->
  exists d', h' !! l = Some d' /\
             (dict_mem d' "statistics" = false \/ dict_mem d' "metrics" = false).
Proof.
  intros Hn Hl Hlack. destruct (Hn l) as [E|(d0 & d' & H0 & H' & v & Hv & _ & ->)].
  - exists d. rewrite E. auto.
  - rewrite Hl in H0. injection H0 as <-.
    exists (dict_set d "statistics" (VList [v])). split; [assumption |].
    right. rewrite dict_mem_set_ne by discriminate.
    destruct Hlack as [Hs|Hm]; [|assumption].
    unfold dict_mem in Hs. now rewrite Hv in Hs.
Qed.

Lemma check_dict_lacks (l : loc) (d : dict) (name : string) (s : state) :
  dict_mem d "statistics" = false \/ dict_mem d "metrics" = false ->
  exists msg, check_dict l d name s = (Raise (Exception msg), add_error s msg).
Proof.
  intros Hlack. unfold check_dict.
  destruct (dict_mem d "categories"); cbn [negb]; [|eauto].
  destruct (dict_mem d "metrics") eqn:Hm; cbn [negb]; [|eauto].
  destruct Hlack as [Hs|?]; [|discriminate].
  unfold dict_mem in Hs. destruct (dict_get d "statistics"); [discriminate | eauto].
Qed.

(** C5: a rule document in which some rule lacks the [statistics] field
    (or the [metrics] field) is refused: [_check_rules] raises its
    validation exception for that rule without touching the document,
    [_parse_rules] returns [False], and [run] stops there, so that no
    summary is generated and nothing is handed to a writer, not even for
    the valid rules. *)
Theorem C5_missing_field_computes_nothing
    (w : world) (raw_data_file : string) (rule_file : option string)
    (output_dir output_format : string) (s s1 : state) (rules : value)
    (l2 : loc) (d2 : dict) (name : string) (l : loc) (d : dict) :
  preprocess w raw_data_file rule_file s = (Ok rules, s1) ->
  rules_of (st_heap s) rules = Some (l2, d2) ->
  no_self_reference l2 d2 ->
  dict_get d2 name = Some (VRef l) ->
  st_heap s !! l = Some d ->
  dict_mem d "statistics" = false \/ dict_mem d "metrics" = false ->
  (exists msg,
      _check_rules (VRef l) name s = (Raise (Exception msg), add_error s msg)) /\
  exists s2,
    _parse_rules metric_match rules s1 = (Ok false, s2) /\
    run metric_match aggregate std_of percentile_of w raw_data_file rule_file
        output_dir output_format s = (Ok tt, s2) /\
    st_out s2 = st_out s.
Proof.
  intros Hpre Hdoc Hself Hname Hl Hlack. split.
  - rewrite (check_rules_dict l d name s Hl). now apply check_dict_lacks.
  - destruct (preprocess_effect _ _ _ _ _ _ Hpre) as (Hheap & Hout).
    apply rules_of_document in Hdoc. rewrite <- Hheap in Hdoc, Hl.
    assert (Hl2 : st_heap s1 !! l2 = Some d2).
    { destruct Hdoc as (? & ? & ? & ? & _ & _ & _ & _ & _ & H2). exact H2. }
    set (I := fun s0 : state =>
                st_heap s0 !! l2 = Some d2 /\
                exists d', st_heap s0 !! l = Some d' /\
                  (dict_mem d' "statistics" = false \/ dict_mem d' "metrics" = false)).
    destruct (parse_rules_fails rules l2 d2 name I s1 Hdoc Hself) as (s2 & Hparse & Hout2).
    + eapply dict_get_keys; eassumption.
    + intros y s0 (H2 & d' & Hd' & Hlack').
      destruct (parse_rule metric_match (VRef l2) y s0) as [res s0'] eqn:Hy.
      destruct (parse_rule_effect _ _ _ _ _ _ H2 Hself Hy) as (A1 & A2 & _).
      split; [exact A1 |]. eapply normalised_from_lacks; eassumption.
    + intros s0 (H2 & d' & Hd' & Hlack'). unfold parse_rule.
      rewrite (bind_ok _ _ _ _ _ (getitem_ref l2 d2 name _ s0 H2 Hname)).
      destruct (check_dict_lacks l d' name s0 Hlack') as (msg & Hmsg).
      rewrite <- (check_rules_dict l d' name s0 Hd') in Hmsg.
      rewrite (bind_raise _ _ _ _ _ Hmsg). eauto.
    + split; [exact Hl2 |]. exists d. auto.
    + exists s2. split; [assumption |]. split; [|congruence].
      eapply run_parse_failed; eassumption.
Qed.

End Parsing.

Lemma C5_missing_field_witness :
  exists s2,
    run_example two_nodes doc_lacking = (Ok tt, s2) /\ st_out s2 = [].
Proof.
  destruct (C5_missing_field_computes_nothing no_match no_aggregate first_of
              (fun _ => first_of) (the_world two_nodes) "raw.jsonl" (Some "rules.yaml")
              "out" "md" (init_state doc_lacking)
              (snd (preprocess (the_world two_nodes) "raw.jsonl" (Some "rules.yaml")
                      (init_state doc_lacking)))
              (VRef 1) 3%positive [("r1", VRef 4); ("r2", VRef 5)] "r2" 5%positive
              [("categories", VStr "B"); ("metrics", VList [VStr "foo"])])
    as (_ & s2 & _ & Hrun & Hout).
  - vm_compute. reflexivity.
  - vm_compute. reflexivity.
  - vm_compute. reflexivity.
  - vm_compute. reflexivity.
  - vm_compute. reflexivity.
  - left. vm_compute. reflexivity.
  - exists s2. split; assumption.
Defined.

Lemma checked_dict_other (d : dict) (k : string) :
  k <> "statistics" -> dict_get (checked_dict d) k = dict_get d k.
Proof.
  intros Hk. unfold checked_dict.
  destruct (dict_get d "statistics") as [v|]; [|reflexivity].
  destruct (is_list v); [reflexivity |]. apply dict_get_set_ne. congruence.
Qed.

Lemma checked_dict_statistics (d : dict) (v : value) :
  dict_get d "statistics" = Some v ->
  dict_get (checked_dict d) "statistics" = Some (VList (functions_of v)).
Proof.
  intros Hv. unfold checked_dict. rewrite Hv.
  destruct v; cbn [is_list functions_of]; try apply dict_get_set_eq. assumption.
Qed.

Lemma dict_mem_true {A} (d : list (string * A)) (k : string) :
  dict_mem d k = true -> exists v, dict_get d k = Some v.
Proof. unfold dict_mem. destruct (dict_get d k); [eauto | discriminate]. Qed.

Section Resolution.

Variable metric_match : string -> string -> bool.
Variable aggregate : DataFrame -> option value -> result DataFrame.
Variable std_of : list Q -> Q.
Variable percentile_of : Z -> list Q -> Q.

Lemma get_metrics_no_match (l2 : loc) (d2 : dict) (name : string) (l : loc)
    (d1 : dict) (mv : value) (entries : list string) (s : state) :
  st_heap s !! l2 = Some d2 -> dict_get d2 name = Some (VRef l) ->
  st_heap s !! l = Some d1 -> dict_get d1 "metrics" = Some mv ->
  metrics_spec mv = Ok entries ->
  resolve_metrics metric_match entries (df_columns (st_raw_data_df s)) = [] ->
  _get_metrics metric_match name (VRef l2) s = (Raise (NoMatchingMetrics name), s).
Proof.
  intros H2 Hname Hl Hm Hspec Hres. unfold _get_metrics.
  rewrite (bind_ok _ _ _ _ _ (getitem_ref l2 d2 name _ s H2 Hname)).
  rewrite (bind_ok _ _ _ _ _ (getitem_ref l d1 "metrics" _ s Hl Hm)).
  rewrite Hspec. unfold bind at 1. cbn [lift]. unfold bind at 1. cbn [get_raw_data_df].
  now rewrite Hres.
Qed.

(** A rule that has passed [_check_rules] and whose [metrics] match no
    column of the raw table is entered and then refused. *)
Lemma enter_rule_no_match (l2 : loc) (d2 : dict) (name : string) (l : loc)
    (d1 : dict) (mv : value) (entries : list string) (s : state) :
  st_heap s !! l2 = Some d2 -> dict_get d2 name = Some (VRef l) ->
  st_heap s !! l = Some d1 ->
  dict_mem d1 "categories" = true -> dict_mem d1 "statistics" = true ->
  dict_get d1 "metrics" = Some mv -> metrics_spec mv = Ok entries ->
  resolve_metrics metric_match entries (df_columns (st_raw_data_df s)) = [] ->
  fst (enter_rule metric_match (VRef l2) name s) = Raise (NoMatchingMetrics name).
Proof.
  intros H2 Hname Hl Hc Hs Hm Hspec Hres. unfold enter_rule.
  apply dict_mem_true in Hc as (c & Hc). apply dict_mem_true in Hs as (st & Hs).
  rewrite (bind_ok _ _ _ _ _ (getitem_ref l2 d2 name _ s H2 Hname)).
  rewrite (bind_ok _ _ _ _ _ (getitem_ref l d1 "categories" _ s Hl Hc)).
  rewrite (bind_ok _ _ _ _ _ (getitem_ref l2 d2 name _ s H2 Hname)).
  rewrite (bind_ok _ _ _ _ _ (getitem_ref l d1 "statistics" _ s Hl Hs)).
  rewrite (bind_ok _ _ _ _ _ (getitem_ref l2 d2 name _ s H2 Hname)).
  rewrite (bind_ok _ _ _ _ _ (contains_ref l d1 "aggregate" s Hl)).
  assert (Hagg : exists a,
             (if dict_mem d1 "aggregate"
              then let* r4 := getitem (VRef l2) name in getitem r4 "aggregate"
              else ret (VBool false)) s = (Ok a, s)).
  { unfold dict_mem. destruct (dict_get d1 "aggregate") as [a|] eqn:Ha.
    - exists a. rewrite (bind_ok _ _ _ _ _ (getitem_ref l2 d2 name _ s H2 Hname)).
      now apply getitem_ref with (d := d1).
    - now exists (VBool false). }
  destruct Hagg as (a & Hagg). rewrite (bind_ok _ _ _ _ _ Hagg).
  unfold bind at 1. cbn [set_sb_rules].
  erewrite get_metrics_no_match; try eassumption; reflexivity.
Qed.

(** The round of the loop of [_parse_rules] for a rule whose [metrics]
    match no column raises; if the rule passes [_check_rules], what it
    raises is [NoMatchingMetrics]. *)
Lemma parse_rule_no_match (l2 : loc) (d2 : dict) (name : string) (l : loc)
    (d : dict) (mv : value) (entries : list string) (s : state) :
  st_heap s !! l2 = Some d2 -> no_self_reference l2 d2 ->
  dict_get d2 name = Some (VRef l) ->
  st_heap s !! l = Some d -> dict_get d "metrics" = Some mv ->
  metrics_spec mv = Ok entries ->
  resolve_metrics metric_match entries (df_columns (st_raw_data_df s)) = [] ->
  exists e, fst (parse_rule metric_match (VRef l2) name s) = Raise e /\
            (forall x s', _check_rules (VRef l) name s = (Ok x, s') ->
                          e = NoMatchingMetrics name).
Proof.
  intros H2 Hself Hname Hl Hm Hspec Hres. unfold parse_rule.
  rewrite (bind_ok _ _ _ _ _ (getitem_ref l2 d2 name _ s H2 Hname)).
  assert (Hne : l2 <> l).
  { intros ->. now apply (no_self_reference_get _ _ Hself name). }
  destruct (_check_rules (VRef l) name s) as [[x|e] s1] eqn:Hcheck.
  - rewrite (bind_ok _ _ _ _ _ Hcheck).
    pose proof Hcheck as Hd. rewrite (check_rules_dict l d name s Hl) in Hd.
    destruct (check_dict_ok _ _ _ _ _ _ Hl Hd) as (Hc & _ & (v & Hv & _) & Hl1 & Hoth).
    destruct (check_dict_state _ _ _ _ _ _ Hl Hd) as ((_ & _ & Hraw & _) & _ & Hx).
    rewrite (Hx x eq_refl).
    assert (H21 : st_heap s1 !! l2 = Some d2) by (rewrite Hoth; assumption).
    rewrite (bind_ok _ _ _ _ _ (setitem_ref l2 d2 name _ s1 H21)).
    rewrite (dict_set_same _ _ _ Hname), (insert_id _ _ _ H21).
    exists (NoMatchingMetrics name). split; [|reflexivity].
    eapply enter_rule_no_match with (d1 := checked_dict d); try eassumption.
    + unfold dict_mem. rewrite checked_dict_other by discriminate. exact Hc.
    + unfold dict_mem. now rewrite (checked_dict_statistics _ _ Hv).
    + rewrite checked_dict_other by discriminate. exact Hm.
    + cbn [with_heap st_raw_data_df]. now rewrite Hraw.
  - rewrite (bind_raise _ _ _ _ _ Hcheck). exists e. split; [reflexivity |].
    intros x s' [=].
Qed.

(** C2: a rule whose [metrics] match no column of the raw table is
    refused while the rules are parsed.  In the round of the loop that
    parses it, a rule that passes [_check_rules] fails with
    [NoMatchingMetrics]; whatever the other rules are, [_parse_rules]
    returns [False] and [run] stops before any statistic is computed;
    and whenever [_parse_rules] returns [True], every rule it has entered
    in [self._sb_rules] has at least one metric. *)
Theorem C2_no_matching_metrics
    (w : world) (raw_data_file : string) (rule_file : option string)
    (output_dir output_format : string) (s s1 : state) (rules : value)
    (l2 : loc) (d2 : dict) (name : string) (l : loc) (d : dict)
    (mv : value) (entries : list string) :
  preprocess w raw_data_file rule_file s = (Ok rules, s1) ->
  rules_of (st_heap s) rules = Some (l2, d2) ->
  no_self_reference l2 d2 ->
  dict_get d2 name = Some (VRef l) ->
  st_heap s !! l = Some d ->
  dict_get d "metrics" = Some mv ->
  metrics_spec mv = Ok entries ->
  resolve_metrics metric_match entries (df_columns (st_raw_data_df s1)) = [] ->
  (forall x s',
      _check_rules (VRef l) name (reset_rules s1) = (Ok x, s') ->
      fst (parse_rule metric_match (VRef l2) name (reset_rules s1))
      = Raise (NoMatchingMetrics name)) /\
  (exists s2,
      _parse_rules metric_match rules s1 = (Ok false, s2) /\
      run metric_match aggregate std_of percentile_of w raw_data_file rule_file
          output_dir output_format s = (Ok tt, s2) /\
      st_out s2 = st_out s) /\
  (forall rules' s0 s0',
      _parse_rules metric_match rules' s0 = (Ok true, s0') ->
      all_resolved (st_sb_rules s0')).
Proof.
  intros Hpre Hdoc Hself Hname Hl Hm Hspec Hres.
  destruct (preprocess_effect _ _ _ _ _ _ Hpre) as (Hheap & Hout).
  apply rules_of_document in Hdoc. rewrite <- Hheap in Hdoc, Hl.
  assert (Hl2 : st_heap s1 !! l2 = Some d2).
  { destruct Hdoc as (? & ? & ? & ? & _ & _ & _ & _ & _ & H2). exact H2. }
  split; [|split].
  - intros x s' Hcheck.
    destruct (parse_rule_no_match l2 d2 name l d mv entries (reset_rules s1))
      as (e & He & Hkind); try assumption.
    rewrite He. f_equal. eapply Hkind. exact Hcheck.
  - set (I := fun s0 : state =>
                st_heap s0 !! l2 = Some d2 /\
                st_raw_data_df s0 = st_raw_data_df s1 /\
                exists d', st_heap s0 !! l = Some d' /\ dict_get d' "metrics" = Some mv).
    destruct (parse_rules_fails metric_match rules l2 d2 name I s1 Hdoc Hself)
      as (s2 & Hparse & Hout2).
    + eapply dict_get_keys; eassumption.
    + intros y s0 (H2 & Hraw & d' & Hd' & Hm').
      destruct (parse_rule metric_match (VRef l2) y s0) as [res s0'] eqn:Hy.
      destruct (parse_rule_effect _ _ _ _ _ _ _ H2 Hself Hy) as (A1 & A2 & A3 & _).
      split; [exact A1 |]. split; [cbn [snd]; congruence |]. cbn [snd].
      destruct (A2 l) as [E|(d0 & d0' & H0 & H0' & v & _ & _ & ->)].
      * exists d'. rewrite E. auto.
      * rewrite Hd' in H0. injection H0 as <-. eexists. split; [exact H0' |].
        now rewrite dict_get_set_ne by discriminate.
    + intros s0 (H2 & Hraw & d' & Hd' & Hm').
      destruct (parse_rule_no_match l2 d2 name l d' mv entries s0)
        as (e & He & _); try assumption; [now rewrite Hraw | eauto].
    + split; [exact Hl2 |]. split; [reflexivity |]. exists d. auto.
    + exists s2. split; [assumption |]. split; [|congruence].
      eapply run_parse_failed; eassumption.
  - intros rules' s0 s0'. apply parse_rules_resolved.
Qed.

(** A successful round of the loop leaves the rule it has parsed in its
    checked form. *)
Lemma parse_rule_ok_heap (l2 : loc) (d2 : dict) (name : string) (l : loc)
    (d0 : dict) (s s1 : state) :
  st_heap s !! l2 = Some d2 -> no_self_reference l2 d2 ->
  dict_get d2 name = Some (VRef l) -> st_heap s !! l = Some d0 ->
  parse_rule metric_match (VRef l2) name s = (Ok tt, s1) ->
  st_heap s1 !! l = Some (checked_dict d0).
Proof.
  intros H2 Hself Hname Hl. unfold parse_rule.
  rewrite (bind_ok _ _ _ _ _ (getitem_ref l2 d2 name _ s H2 Hname)).
  assert (Hne : l2 <> l).
  { intros ->. now apply (no_self_reference_get _ _ Hself name). }
  destruct (_check_rules (VRef l) name s) as [[x|e] s0] eqn:Hcheck;
    [|rewrite (bind_raise _ _ _ _ _ Hcheck); discriminate].
  rewrite (bind_ok _ _ _ _ _ Hcheck).
  pose proof Hcheck as Hd. rewrite (check_rules_dict l d0 name s Hl) in Hd.
  destruct (check_dict_ok _ _ _ _ _ _ Hl Hd) as (_ & _ & _ & Hl1 & Hoth).
  destruct (check_dict_state _ _ _ _ _ _ Hl Hd) as (_ & _ & Hx).
  rewrite (Hx x eq_refl).
  assert (H21 : st_heap s0 !! l2 = Some d2) by (rewrite Hoth; assumption).
  rewrite (bind_ok _ _ _ _ _ (setitem_ref l2 d2 name _ s0 H21)).
  rewrite (dict_set_same _ _ _ Hname), (insert_id _ _ _ H21).
  intros H. pose proof (keeps_enter_rule metric_match (VRef l2) name
                          (with_heap s0 (st_heap s0))) as K.
  rewrite H in K. cbn [snd with_heap st_heap] in K.
  destruct K as (K1 & _). now rewrite K1.
Qed.

(** Once the loop has gone through a rule with a scalar [statistics], the
    rule holds the one-element list, and keeps it. *)
Lemma parse_loop_normalises (l2 : loc) (d2 : dict) (name : string) (l : loc)
    (d : dict) (v : value) (names : list string) :
  no_self_reference l2 d2 -> dict_get d2 name = Some (VRef l) ->
  dict_get d "statistics" = Some v -> is_list v = false ->
  forall s s',
    st_heap s !! l2 = Some d2 ->
    st_heap s !! l = Some d \/ st_heap s !! l = Some (checked_dict d) ->
    In name names ->
    for_each names (parse_rule metric_match (VRef l2)) s = (Ok tt, s') ->
    st_heap s' !! l = Some (checked_dict d).
Proof.
  intros Hself Hname Hv Hlist.
  assert (Hcc : checked_dict (checked_dict d) = checked_dict d).
  { unfold checked_dict at 1. rewrite (checked_dict_statistics _ _ Hv). reflexivity. }
  assert (Hstay : forall h h', normalised_from h h' ->
            h !! l = Some (checked_dict d) -> h' !! l = Some (checked_dict d)).
  { intros h h' Hn Hh. destruct (Hn l) as [E|(d0 & d0' & H0 & _ & v0 & Hv0 & Hl0 & _)].
    - congruence.
    - rewrite Hh in H0. injection H0 as <-.
      rewrite (checked_dict_statistics _ _ Hv) in Hv0. injection Hv0 as <-.
      discriminate Hl0. }
  assert (Hstep : forall h h', normalised_from h h' ->
            h !! l = Some d \/ h !! l = Some (checked_dict d) ->
            h' !! l = Some d \/ h' !! l = Some (checked_dict d)).
  { intros h h' Hn [Hh|Hh]; [|right; eapply Hstay; eassumption].
    destruct (Hn l) as [E|(d0 & d0' & H0 & H0' & v0 & Hv0 & Hl0 & ->)].
    - left. congruence.
    - right. rewrite Hh in H0. injection H0 as <-. rewrite H0'.
      unfold checked_dict. rewrite Hv, Hlist. rewrite Hv in Hv0. now injection Hv0 as <-. }
  induction names as [|n names IH]; intros s s' H2 Hd Hin; [destruct Hin |].
  cbn [for_each]. intros H. apply bind_inv_ok in H as ([] & s1 & H1 & H).
  destruct (parse_rule_effect _ _ _ _ _ _ _ H2 Hself H1) as (A1 & A2 & _).
  destruct (String.eqb_spec n name) as [->|Hne].
  - assert (Hl1 : st_heap s1 !! l = Some (checked_dict d)).
    { destruct Hd as [Hd|Hd].
      - exact (parse_rule_ok_heap l2 d2 name l d s s1 H2 Hself Hname Hd H1).
      - rewrite <- Hcc.
        exact (parse_rule_ok_heap l2 d2 name l _ s s1 H2 Hself Hname Hd H1). }
    destruct (parse_loop_effect _ _ _ _ _ _ _ A1 Hself H) as (_ & B2 & _).
    eapply Hstay; eassumption.
  - destruct Hin as [->|Hin]; [contradiction |].
    eapply IH; [exact A1 | | exact Hin | exact H].
    eapply Hstep; eassumption.
Qed.

(** C10: rule validation mutates the rule document in place.  For a rule
    dictionary whose [statistics] is a single value and not a list,
    [_check_rules] stores the one-element list in the caller's own
    dictionary, whether it then returns or raises; and when
    [_parse_rules] has gone through a document holding that rule, the
    dictionary in the document holds the list, so the document is no
    longer the one the caller passed in. *)
Theorem C10_check_rules_mutates_document
    (s : state) (l : loc) (d : dict) (name : string) (v : value) :
  st_heap s !! l = Some d ->
  dict_mem d "categories" = true -> dict_mem d "metrics" = true ->
  dict_get d "statistics" = Some v -> is_list v = false ->
  (forall res s',
      _check_rules (VRef l) name s = (res, s') ->
      st_heap s' !! l = Some (dict_set d "statistics" (VList [v])) /\
      st_heap s' !! l <> st_heap s !! l) /\
  (forall rules l2 d2 s',
      rules_of (st_heap s) rules = Some (l2, d2) ->
      no_self_reference l2 d2 ->
      dict_get d2 name = Some (VRef l) ->
      _parse_rules metric_match rules s = (Ok true, s') ->
      st_heap s' !! l = Some (dict_set d "statistics" (VList [v])) /\
      st_heap s' <> st_heap s).
Proof.
  intros Hl Hc Hm Hv Hlist.
  assert (Hdiff : Some (dict_set d "statistics" (VList [v])) <> Some d).
  { intros [= E]. pose proof (dict_get_set_eq d "statistics" (VList [v])) as G.
    rewrite E, Hv in G. injection G as G. rewrite G in Hlist. discriminate Hlist. }
  assert (Hcd : checked_dict d = dict_set d "statistics" (VList [v])).
  { unfold checked_dict. now rewrite Hv, Hlist. }
  split.
  - intros res s'. rewrite (check_rules_dict l d name s Hl). unfold check_dict.
    rewrite Hc, Hm, Hv, Hlist. cbn [negb].
    assert (G : st_heap (with_heap s (<[l := dict_set d "statistics" (VList [v])]>
                                         (st_heap s))) !! l
                = Some (dict_set d "statistics" (VList [v]))).
    { cbn [with_heap st_heap]. apply lookup_insert_eq. }
    destruct (check_functions (functions_of v));
      [intros [= _ <-]; rewrite G, Hl; auto |].
    destruct (dict_get d "aggregate") as [[|b|z|a|la|la]|];
      try (intros [= _ <-]; rewrite G, Hl; auto).
    destruct (re_search pat_group a); intros [= _ <-];
      cbn [add_error st_heap] in *; rewrite G, Hl; auto.
  - intros rules l2 d2 s' Hdoc Hself Hname Hparse.
    apply rules_of_document in Hdoc.
    rewrite (parse_rules_document _ _ _ _ _ Hdoc) in Hparse.
    destruct (for_each (dict_keys d2) (parse_rule metric_match (VRef l2)) (reset_rules s))
      as [[[]|e] s1] eqn:Hloop; [|discriminate Hparse].
    injection Hparse as <-.
    assert (Hl2 : st_heap (reset_rules s) !! l2 = Some d2).
    { destruct Hdoc as (? & ? & ? & ? & _ & _ & _ & _ & _ & H2). exact H2. }
    assert (G : st_heap s1 !! l = Some (dict_set d "statistics" (VList [v]))).
    { rewrite <- Hcd.
      eapply (parse_loop_normalises l2 d2 name l d v (dict_keys d2) Hself Hname Hv Hlist
                (reset_rules s) s1 Hl2); [now left | | exact Hloop].
      eapply dict_get_keys; eassumption. }
    split; [exact G |]. intros E. rewrite E, Hl in G. now apply Hdiff.
Qed.

End Resolution.

Lemma C2_no_matching_metrics_witness :
  exists s2,
    run_example two_nodes doc_unmatched = (Ok tt, s2) /\ st_out s2 = [].
Proof.
  destruct (C2_no_matching_metrics no_match no_aggregate first_of
              (fun _ => first_of) (the_world two_nodes) "raw.jsonl" (Some "rules.yaml")
              "out" "md" (init_state doc_unmatched)
              (snd (preprocess (the_world two_nodes) "raw.jsonl" (Some "rules.yaml")
                      (init_state doc_unmatched)))
              (VRef 1) 3%positive [("r1", VRef 4); ("r2", VRef 5)] "r2" 5%positive
              (rule_of "B" ["baz"] (VList [VStr "mean"]))
              (VList [VStr "baz"]) ["baz"])
    as (_ & (s2 & _ & Hrun & Hout) & _).
  - vm_compute. reflexivity.
  - vm_compute. reflexivity.
  - vm_compute. reflexivity.
  - vm_compute. reflexivity.
  - vm_compute. reflexivity.
  - vm_compute. reflexivity.
  - vm_compute. reflexivity.
  - vm_compute. reflexivity.
  - exists s2. split; assumption.
Defined.

Lemma C10_check_rules_mutates_witness :
  st_heap (snd (_check_rules (VRef 4) "r1" (init_state doc_scalar))) !! 4%positive
  = Some (rule_of "A" ["foo"; "bar"] (VList [VStr "mean"])).
Proof.
  destruct (C10_check_rules_mutates_document no_match (init_state doc_scalar) 4%positive
              (rule_of "A" ["foo"; "bar"] (VStr "mean")) "r1" (VStr "mean"))
    as (Hcheck & _).
  - vm_compute. reflexivity.
  - vm_compute. reflexivity.
  - vm_compute. reflexivity.
  - vm_compute. reflexivity.
  - vm_compute. reflexivity.
  - destruct (_check_rules (VRef 4) "r1" (init_state doc_scalar)) as [res s'] eqn:E.
    destruct (Hcheck res s' eq_refl) as (H & _). exact H.
Defined.

(** ** The aggregate field *)

(** What the code checks: for a rule that passes the other checks,
    [_check_rules] raises exactly when the [aggregate] field is present and
    is neither a boolean nor a string in which an opening parenthesis is
    followed, later on the same line, by a closing one. *)
Lemma aggregate_validation
    (s : state) (l : loc) (d : dict) (name : string) (v : value) :
  st_heap s !! l = Some d ->
  dict_mem d "categories" = true -> dict_mem d "metrics" = true ->
  dict_get d "statistics" = Some v -> check_functions (functions_of v) = None ->
  (exists e s', _check_rules (VRef l) name s = (Raise e, s')) <->
  (exists a, dict_get d "aggregate" = Some a /\ is_bool a = false /\
             ~ exists t, a = VStr t /\ contains_group_on_line t).
Proof.
  intros Hl Hc Hm Hv Hf. rewrite (check_rules_dict l d name s Hl).
  unfold check_dict. rewrite Hc, Hm, Hv, Hf. cbn [negb].
  destruct (dict_get d "aggregate") as [a|].
  - destruct a as [|b|z|t|la|la].
    1, 3, 5, 6: split;
      [intros _; eexists; split; [reflexivity |]; split; [reflexivity |];
       intros (t & Ht & _); discriminate Ht
      | intros _; eauto].
    + split; [intros (e & s' & [=]) | intros (a & [= <-] & Hb & _); discriminate Hb].
    + destruct (re_search pat_group t) eqn:Hs.
      * split; [intros (e & s' & [=]) |].
        intros (a & [= <-] & _ & Hno). exfalso. apply Hno. exists t.
        split; [reflexivity | now apply search_group_spec].
      * split; [|intros _; eauto].
        intros _. exists (VStr t). split; [reflexivity |]. split; [reflexivity |].
        intros (t' & [= <-] & Hg). apply search_group_spec in Hg. congruence.
  - split; [intros (e & s' & [=]) | intros (a & [=] & _)].
Qed.

(** C7: the check of the aggregate is a search on one line.  The comment
    of the code asks for [None or bool or pattern in regex with () group],
    as the claim does; the test is [re.search(r'\(.*\)', aggregate)], in
    which [.] matches no line break.  So a pattern whose parenthesised
    group spans a line break, a string containing a parenthesised group,
    is refused: for a rule that passes the other checks, [_check_rules]
    logs and raises [aggregate must be bool type]. *)
Theorem C7_group_over_lines_rejected
    (s : state) (l : loc) (d : dict) (name : string) (v : value) (t : string) :
  st_heap s !! l = Some d ->
  dict_mem d "categories" = true -> dict_mem d "metrics" = true ->
  dict_get d "statistics" = Some v -> check_functions (functions_of v) = None ->
  dict_get d "aggregate" = Some (VStr t) ->
  contains_group t -> ~ contains_group_on_line t ->
  exists s',
    _check_rules (VRef l) name s
    = (Raise (Exception (name +:+ " aggregate must be bool type")), s') /\
    st_log s' = st_log s ++ [(LError, name +:+ " aggregate must be bool type")].
Proof.
  intros Hl Hc Hm Hv Hf Ha _ Hline. rewrite (check_rules_dict l d name s Hl).
  unfold check_dict. rewrite Hc, Hm, Hv, Hf, Ha. cbn [negb].
  destruct (re_search pat_group t) eqn:Hs.
  - exfalso. apply Hline. now apply search_group_spec.
  - eexists. split; [reflexivity |]. now destruct (is_list v).
Qed.

Lemma C7_group_over_lines_witness :
  contains_group group_over_lines /\
  exists s',
    _check_rules (VRef 4) "r1" (init_state (doc_aggregate (VStr group_over_lines)))
    = (Raise (Exception "r1 aggregate must be bool type"), s') /\
    st_log s' = [(LError, "r1 aggregate must be bool type")].
Proof.
  assert (Hgroup : contains_group group_over_lines)
    by (exists "", (String newline ""), ""; reflexivity).
  split; [exact Hgroup |].
  apply (C7_group_over_lines_rejected
           (init_state (doc_aggregate (VStr group_over_lines))) 4%positive
           (rule_with_aggregate (VStr group_over_lines)) "r1" (VList [VStr "mean"])
           group_over_lines).
  - vm_compute. reflexivity.
  - vm_compute. reflexivity.
  - vm_compute. reflexivity.
  - vm_compute. reflexivity.
  - vm_compute. reflexivity.
  - vm_compute. reflexivity.
  - exact Hgroup.
  - intros H. apply search_group_spec in H. vm_compute in H. discriminate H.
Defined.

(** ** Statistics *)

Lemma SummaryType_of_p (name : string) (t : SummaryType) :
  SummaryType_of name = Some t -> startswith name "p" = true -> name = "percentile".
Proof.
  unfold SummaryType_of.
  repeat match goal with
         | |- context [String.eqb name ?k] =>
             destruct (String.eqb_spec name k) as [->|_];
             [first [reflexivity | intros _; discriminate] |]
         end.
  discriminate.
Qed.

Section Statistics.

Variable std_of : list Q -> Q.
Variable percentile_of : Z -> list Q -> Q.

(** C9: every statistic name that starts with [p] is given to the
    percentile reducer with the integer read from the name stripped of
    its [p]s, whatever the name is; and a name that [_check_rules] accepts
    as a member of [SummaryType], that starts with [p] and is no
    [p<digits>] token (it can only be [percentile]) makes that conversion
    raise [ValueError] instead of yielding a row. *)
Theorem C9_p_prefix_dispatch (df : DataFrame) (name : string) :
  startswith name "p" = true ->
  statistic_row std_of percentile_of df (VStr name) =
    match int_of_str (strip "p" name) with
    | Some val => get_summary_func std_of percentile_of PERCENTILE df (Some val)
    | None => Raise (ValueError ("invalid literal for int() with base 10: '"
                                   +:+ strip "p" name +:+ "'"))
    end /\
  (forall t rule s,
      SummaryType_of name = Some t ->
      re_fullmatch pat_percentile name = false ->
      check_function rule (VStr name) s = (Ok tt, s) /\
      exists msg, statistic_row std_of percentile_of df (VStr name)
                  = Raise (ValueError msg)).
Proof.
  intros Hp.
  assert (Hrow : statistic_row std_of percentile_of df (VStr name) =
            match int_of_str (strip "p" name) with
            | Some val => get_summary_func std_of percentile_of PERCENTILE df (Some val)
            | None => Raise (ValueError ("invalid literal for int() with base 10: '"
                                           +:+ strip "p" name +:+ "'"))
            end).
  { unfold statistic_row. rewrite Hp. reflexivity. }
  split; [exact Hrow |].
  intros t rule s Ht Hpat. split.
  - unfold check_function. now rewrite Hpat, Ht.
  - rewrite Hrow. rewrite (SummaryType_of_p name t Ht Hp). eexists. reflexivity.
Qed.

End Statistics.

Lemma C9_p_prefix_dispatch_witness :
  check_function "r1" (VStr "percentile") (init_state ∅) = (Ok tt, init_state ∅) /\
  exists msg, statistic_row first_of (fun _ => first_of) df_empty (VStr "percentile")
              = Raise (ValueError msg).
Proof.
  destruct (C9_p_prefix_dispatch first_of (fun _ => first_of) df_empty "percentile")
    as (_ & H).
  - vm_compute. reflexivity.
  - apply (H PERCENTILE "r1" (init_state ∅)).
    + vm_compute. reflexivity.
    + vm_compute. reflexivity.
Defined.

(** ** Reducers on columns without data *)

Section Generation.

Variable aggregate : DataFrame -> option value -> result DataFrame.
Variable std_of : list Q -> Q.
Variable percentile_of : Z -> list Q -> Q.

Lemma reduce_columns_empty (t : SummaryType) (val : option Z)
    (cols : list (string * list cell)) :
  (exists c cells, In (c, cells) cols /\ usable cells = []) ->
  exists m cells, In (m, cells) cols /\ usable cells = [] /\
    reduce_columns std_of percentile_of t val cols = Raise (EmptyColumnReduction m t val).
Proof.
  induction cols as [|[c0 cells0] cols IH]; intros (c & cells & Hin & Hu);
    [destruct Hin |].
  cbn [reduce_columns]. destruct (usable cells0) as [|x xs] eqn:H0.
  - exists c0, cells0. split; [now left | auto].
  - destruct Hin as [[= -> ->]|Hin]; [congruence |].
    destruct IH as (m & cells' & Hin' & Hu' & ->); [eauto |].
    exists m, cells'. split; [now right | auto].
Qed.

Lemma get_summary_func_empty (t : SummaryType) (val : option Z) (df : DataFrame)
    (c : string) :
  In c (df_columns df) -> usable (column_cells df c) = [] ->
  exists m, In m (df_columns df) /\ usable (column_cells df m) = [] /\
    get_summary_func std_of percentile_of t df val
    = Raise (EmptyColumnReduction m t val).
Proof.
  intros Hin Hu. unfold get_summary_func.
  destruct (reduce_columns_empty t val (df_cols df)) as (m & cells & Hm & Hum & ->).
  - exists c, (column_cells df c). split; [|assumption].
    unfold df_cols. apply in_map_iff. exists c. auto.
  - unfold df_cols in Hm. apply in_map_iff in Hm as (m' & [= <- <-] & Hm').
    exists m'. auto.
Qed.

(** A validated statistic name other than [percentile] reaches its
    reducer: the percentile reducer with the number of the token, or the
    reducer of the named statistic. *)
Lemma statistic_row_validated (df : DataFrame) (name : string) :
  check_functions [VStr name] = None -> name <> "percentile" ->
  exists t val,
    statistic_row std_of percentile_of df (VStr name)
    = get_summary_func std_of percentile_of t df val /\
    ((startswith name "p" = true /\ t = PERCENTILE /\
      exists p, val = Some p /\ int_of_str (strip "p" name) = Some p) \/
     (startswith name "p" = false /\ SummaryType_of name = Some t /\ val = None)).
Proof.
  intros Hcheck Hne. cbn [check_functions] in Hcheck. unfold statistic_row.
  destruct (re_fullmatch pat_percentile name) eqn:Hpat.
  - apply fullmatch_percentile_spec in Hpat.
    destruct (percentile_token_int name Hpat) as (Hp & p & Hint & _).
    rewrite Hp, Hint. cbn. exists PERCENTILE, (Some p). split; [reflexivity |].
    left. eauto.
  - destruct (SummaryType_of name) as [t|] eqn:Ht; [|discriminate Hcheck].
    destruct (startswith name "p") eqn:Hp.
    + now destruct (Hne (SummaryType_of_p name t Ht Hp)).
    + exists t, None. split; [reflexivity |]. right. auto.
Qed.

(** An exception of a rule is the outcome of the whole generation, if no
    rule before it raises; and no summary is returned in any case. *)
Lemma generate_loop_raises (h : heap) (raw : DataFrame) (r : sb_rule) (e : exn) :
  summary_lines_of_rule aggregate std_of percentile_of h raw r = Raise e ->
  (forall n rest acc,
      generate_loop aggregate std_of percentile_of h raw ((n, r) :: rest) acc = Raise e) /\
  (forall rules n acc,
      In (n, r) rules ->
      exists e', generate_loop aggregate std_of percentile_of h raw rules acc = Raise e').
Proof.
  intros Hr. split.
  - intros n rest acc. cbn [generate_loop]. now rewrite Hr.
  - induction rules as [|[n0 r0] rules IH]; intros n acc Hin; [destruct Hin |].
    cbn [generate_loop].
    destruct (summary_lines_of_rule _ _ _ h raw r0) as [lines|e0] eqn:H0; [|eauto].
    destruct Hin as [[= -> ->]|Hin]; [congruence |].
    destruct (hashable (r_categories r0)); [|eauto].
    eapply IH. exact Hin.
Qed.

(** C3: when a reducer is applied to a column with no usable data, the
    generation fails with [EmptyColumnReduction] naming the metric and
    the statistic.  For a rule whose first statistic is a validated name
    (other than [percentile], which C9 covers) and whose data has a
    column without a number, the reducer, the rule and the generation
    starting at this rule all raise that exception for such a column and
    for this statistic; and whatever rules come before it, the generation
    raises and returns no summary, so no default value reaches the
    output. *)
Theorem C3_empty_column_reduction
    (h : heap) (raw : DataFrame) (r : sb_rule) (data : DataFrame)
    (name : string) (rest : list value) (c : string) :
  data_of_rule aggregate h raw r = Ok data ->
  r_statistics r = VList (VStr name :: rest) ->
  check_functions [VStr name] = None -> name <> "percentile" ->
  In c (df_columns data) -> usable (column_cells data c) = [] ->
  exists m t val,
    In m (df_columns data) /\ usable (column_cells data m) = [] /\
    ((startswith name "p" = true /\ t = PERCENTILE /\
      exists p, val = Some p /\ int_of_str (strip "p" name) = Some p) \/
     (startswith name "p" = false /\ SummaryType_of name = Some t /\ val = None)) /\
    statistic_row std_of percentile_of data (VStr name)
    = Raise (EmptyColumnReduction m t val) /\
    summary_lines_of_rule aggregate std_of percentile_of h raw r
    = Raise (EmptyColumnReduction m t val) /\
    (forall n rules acc,
        generate_loop aggregate std_of percentile_of h raw ((n, r) :: rules) acc
        = Raise (EmptyColumnReduction m t val)) /\
    (forall rules n acc,
        In (n, r) rules ->
        exists e, generate_loop aggregate std_of percentile_of h raw rules acc = Raise e).
Proof.
  intros Hdata Hstats Hcheck Hne Hc Hu.
  destruct (statistic_row_validated data name Hcheck Hne) as (t & val & Hrow & Hkind).
  destruct (get_summary_func_empty t val data c Hc Hu) as (m & Hm & Hum & Hraise).
  rewrite Hraise in Hrow.
  assert (Hlines : summary_lines_of_rule aggregate std_of percentile_of h raw r
                   = Raise (EmptyColumnReduction m t val)).
  { unfold summary_lines_of_rule, summary_df_of. rewrite Hdata, Hstats.
    cbn [statistics_loop]. now rewrite Hrow. }
  destruct (generate_loop_raises h raw r _ Hlines) as (Hfirst & Hany).
  exists m, t, val. auto 10.
Qed.

End Generation.

Lemma C3_empty_column_reduction_witness :
  exists m t val,
    generate_loop no_aggregate first_of (fun _ => first_of) doc_r1 bar_missing
      [("r1", mkRule "r1" (VStr "A") [("foo", VNone); ("bar", VNone)]
                     (VList [VStr "mean"]) (VBool false))] []
    = Raise (EmptyColumnReduction m t val).
Proof.
  destruct (C3_empty_column_reduction no_aggregate first_of (fun _ => first_of)
              doc_r1 bar_missing
              (mkRule "r1" (VStr "A") [("foo", VNone); ("bar", VNone)]
                      (VList [VStr "mean"]) (VBool false))
              bar_missing "mean" [] "bar")
    as (m & t & val & _ & _ & _ & _ & _ & Hgen & _).
  - vm_compute. reflexivity.
  - vm_compute. reflexivity.
  - vm_compute. reflexivity.
  - discriminate.
  - vm_compute. auto.
  - vm_compute. reflexivity.
  - exists m, t, val. apply Hgen.
Defined.

(** The same failure seen from the rule file: the run of the example on a
    table without [bar] names that column and the mean. *)
Example empty_column_example :
  summary_example bar_missing doc_r1 = Raise (EmptyColumnReduction "bar" MEAN None).
Proof. vm_compute. reflexivity. Qed.

(** ** Order and rounding of the summary lines *)

Lemma insert_sorted_perm (x : string) (l : list string) :
  Permutation (x :: l) (insert_sorted x l).
Proof.
  induction l as [|y l IH]; cbn [insert_sorted]; [reflexivity |].
  destruct (str_le x y); [reflexivity |].
  rewrite perm_swap. now constructor.
Qed.

Lemma sorted_perm (l : list string) : Permutation l (sorted l).
Proof.
  induction l as [|x l IH]; cbn; [constructor |].
  rewrite <- insert_sorted_perm. now constructor.
Qed.

Lemma insert_sorted_Sorted (x : string) (l : list string) :
  Sorted (fun a b => str_le a b = true) l ->
  Sorted (fun a b => str_le a b = true) (insert_sorted x l).
Proof.
  induction 1 as [|y l Hs IH Hhd]; cbn [insert_sorted]; [repeat constructor |].
  destruct (str_le x y) eqn:Hxy.
  - constructor; [now constructor | now constructor].
  - assert (Hyx : str_le y x = true).
    { destruct (String.leb_total x y) as [H|H]; [unfold str_le in Hxy; congruence | exact H]. }
    constructor; [assumption |].
    destruct l as [|z l]; cbn [insert_sorted]; [now constructor |].
    destruct (str_le x z); constructor; [assumption |].
    now inversion Hhd.
Qed.

Lemma sorted_Sorted (l : list string) :
  Sorted (fun a b => str_le a b = true) (sorted l).
Proof.
  induction l as [|x l IH]; cbn; [constructor | now apply insert_sorted_Sorted].
Qed.

Lemma df_loc_set_shape (df : DataFrame) (label : cell) (row : Series) (df' : DataFrame) :
  df_loc_set df label row = Ok df' ->
  df_columns df' = df_columns df /\ df_index df' = add_label (df_index df) label.
Proof.
  unfold df_loc_set, add_label. destruct (df_columns df) as [|c cs] eqn:Hc; [discriminate |].
  destruct (existsb (cell_eqb label) (df_index df)); intros [= <-]; cbn [df_columns];
    (split; [reflexivity |]); unfold df_index; cbn [df_rows].
  - rewrite map_map. apply map_ext. intros r. now destruct (cell_eqb label (fst r)).
  - now rewrite map_app.
Qed.

Lemma df_round_shape (df : DataFrame) :
  df_columns (df_round df) = df_columns df /\ df_index (df_round df) = df_index df.
Proof.
  split; [reflexivity |]. unfold df_index, df_round. cbn [df_rows].
  rewrite map_map. reflexivity.
Qed.



Lemma format_summary_In (category : value) (df : DataFrame) (c : value)
    (m : string) (st v : cell) :
  In (c, m, st, v) (_format_summary_of_rule category df) ->
  c = category /\ In m (df_columns df) /\ In st (df_index df) /\ v = df_loc df st m.
Proof.
  unfold _format_summary_of_rule. intros H.
  apply in_flat_map in H as (m' & Hm & H).
  apply in_map_iff in H as (st' & [= <- <- <- <-] & Hst). auto.
Qed.






(** The float written [8.0000005] lies above the half between 8 and
    8.000001, and is rounded up. *)
Example round6_above_half :
  (80000005 # 10000000 < 4503599908845473 # 562949953421312)%Q /\
  round6 (4503599908845473 # 562949953421312) = (8000001 # 1000000)%Q.
Proof. split; vm_compute; reflexivity. Qed.



Lemma key_eqb_refl (k : value) : hashable k = true -> key_eqb k k = true.
Proof.
  destruct k as [|b|z|t|l|l]; cbn; try discriminate; intros _;
    [reflexivity | now destruct b | apply Z.eqb_refl | apply String.eqb_refl].
Qed.

Section Lines.

Variable aggregate : DataFrame -> option value -> result DataFrame.
Variable std_of : list Q -> Q.
Variable percentile_of : Z -> list Q -> Q.

Lemma statistics_loop_shape (data : DataFrame) (statistics : list value) :
  forall df0 df,
    statistics_loop std_of percentile_of data statistics df0 = Ok df ->
    df_columns df = df_columns df0 /\
    df_index df = fold_left add_label (map statistic_label statistics) (df_index df0).
Proof.
  induction statistics as [|n statistics IH]; intros df0 df; cbn [statistics_loop].
  - intros [= <-]. auto.
  - destruct (statistic_row std_of percentile_of data n) as [row|e]; [|discriminate].
    destruct (df_loc_set df0 (statistic_label n) row) as [df1|e] eqn:Hset;
      [|discriminate].
    intros H. apply IH in H as (Hc & Hi).
    apply df_loc_set_shape in Hset as (Hc1 & Hi1).
    cbn [map fold_left]. rewrite Hc, Hi, Hc1, Hi1. auto.
Qed.

(** What a rule's lines are made of. *)
Lemma summary_lines_inv (h : heap) (raw : DataFrame) (r : sb_rule)
    (lines : list line) :
  summary_lines_of_rule aggregate std_of percentile_of h raw r = Ok lines ->
  exists data statistics udf,
    data_of_rule aggregate h raw r = Ok data /\
    r_statistics r = VList statistics /\
    statistics_loop std_of percentile_of data statistics
      (mkDF (sorted (df_columns data)) []) = Ok udf /\
    summary_df_of aggregate std_of percentile_of h raw r = Ok (df_round udf) /\
    lines = _format_summary_of_rule (r_categories r) (df_round udf).
Proof.
  unfold summary_lines_of_rule, summary_df_of.
  destruct (data_of_rule aggregate h raw r) as [data|e]; [|discriminate].
  destruct (r_statistics r) as [| | | |statistics|]; try discriminate.
  destruct (statistics_loop _ _ data statistics _) as [udf|e] eqn:Hloop; [|discriminate].
  intros [= <-]. exists data, statistics, udf. auto.
Qed.


(** C6: the lines of a rule are metric-major: the metrics in sorted
    order, and for each metric the statistics in the order the rule
    declares them (a name given twice has one row, at its first place).
    In the end-to-end scenario, the table with columns foo, bar and the
    rule r1 of category A with the mean give the two lines of bar and
    foo, in this order. *)
Theorem C6_metric_major_order :
  (forall (h : heap) (raw : DataFrame) (r : sb_rule) (data : DataFrame)
          (statistics : list value) (lines : list line),
      data_of_rule aggregate h raw r = Ok data ->
      r_statistics r = VList statistics ->
      summary_lines_of_rule aggregate std_of percentile_of h raw r = Ok lines ->
      exists df,
        summary_df_of aggregate std_of percentile_of h raw r = Ok df /\
        lines = flat_map
                  (fun metric =>
                     map (fun statistic =>
                            (r_categories r, metric, statistic, df_loc df statistic metric))
                         (labels_of statistics))
                  (sorted (df_columns data)) /\
        Sorted (fun a b => str_le a b = true) (sorted (df_columns data)) /\
        Permutation (df_columns data) (sorted (df_columns data))) /\
  summary_example foo_bar doc_r1
  = Ok [(VStr "A", [(VStr "A", "bar", Str "mean", Num 3);
                    (VStr "A", "foo", Str "mean", Num 2)])].
Proof.
  split; [|vm_compute; reflexivity].
  intros h raw r data statistics lines Hdata Hstats Hlines.
  destruct (summary_lines_inv _ _ _ _ Hlines)
    as (data' & statistics' & udf & Hd & Hs & Hloop & Hdf & ->).
  rewrite Hdata in Hd. injection Hd as <-.
  rewrite Hstats in Hs. injection Hs as <-.
  exists (df_round udf). split; [assumption |].
  destruct (statistics_loop_shape _ _ _ _ Hloop) as (Hc & Hi).
  destruct (df_round_shape udf) as (Hrc & Hri).
  split; [|split; [apply sorted_Sorted | apply sorted_perm]].
  unfold _format_summary_of_rule. rewrite Hrc, Hri, Hc, Hi. reflexivity.
Qed.


(** C1: the code does not append.  The last statement of the loop of
    [_generate_summary] is the assignment
    [summary[category] = summary_lines_of_rule]: of two rules of one
    category, only the lines of the second are in the summary. *)
Theorem C1_shared_category_overwritten
    (h : heap) (raw : DataFrame) (n1 n2 : string) (r1 r2 : sb_rule)
    (lines1 lines2 : list line) :
  summary_lines_of_rule aggregate std_of percentile_of h raw r1 = Ok lines1 ->
  summary_lines_of_rule aggregate std_of percentile_of h raw r2 = Ok lines2 ->
  r_categories r1 = r_categories r2 ->
  hashable (r_categories r1) = true ->
  generate_loop aggregate std_of percentile_of h raw [(n1, r1); (n2, r2)] []
  = Ok [(r_categories r1, lines2)].
Proof.
  intros H1 H2 Hcat Hhash. cbn [generate_loop].
  rewrite H1, H2, <- Hcat, Hhash. cbn [summary_set].
  now rewrite key_eqb_refl.
Qed.

End Lines.

Lemma C6_metric_major_order_witness :
  exists df,
    lines_example = flat_map
      (fun metric => map (fun statistic => (VStr "A", metric, statistic,
                                            df_loc df statistic metric))
                         [Str "mean"])
      ["bar"; "foo"].
Proof.
  destruct (proj1 (C6_metric_major_order no_aggregate first_of (fun _ => first_of))
              doc_r1 foo_bar rule_r1 foo_bar [VStr "mean"] lines_example)
    as (df & _ & Hlines & _).
  - vm_compute. reflexivity.
  - vm_compute. reflexivity.
  - vm_compute. reflexivity.
  - exists df. exact Hlines.
Defined.


Lemma C1_shared_category_witness :
  generate_loop no_aggregate first_of (fun _ => first_of) doc_shared foo_bar
    [("r1", rule_foo); ("r2", rule_bar)] []
  = Ok [(VStr "A", [(VStr "A", "bar", Str "mean", Num 3)])].
Proof.
  apply (C1_shared_category_overwritten no_aggregate first_of (fun _ => first_of)
           doc_shared foo_bar "r1" "r2" rule_foo rule_bar
           [(VStr "A", "foo", Str "mean", Num 2)]
           [(VStr "A", "bar", Str "mean", Num 3)]).
  - vm_compute. reflexivity.
  - vm_compute. reflexivity.
  - reflexivity.
  - reflexivity.
Defined.

(** The same from the rule file: of the two rules of category A, the
    summary holds the lines of r2 only; the line of foo is lost. *)
Example shared_category_example :
  summary_example foo_bar doc_shared
  = Ok [(VStr "A", [(VStr "A", "bar", Str "mean", Num 3)])].
Proof. vm_compute. reflexivity. Qed.

(** ** What a run logs and writes *)

Lemma quiet_ret {A} (a : A) : quiet (ret a).
Proof. intros s. split; [reflexivity |]. exists []. cbn. now rewrite app_nil_r. Qed.

Lemma quiet_raise {A} (e : exn) : quiet (@raise A e).
Proof. intros s. split; [reflexivity |]. exists []. cbn. now rewrite app_nil_r. Qed.

Lemma quiet_lift {A} (r : result A) : quiet (lift r).
Proof. intros s. split; [reflexivity |]. exists []. cbn. now rewrite app_nil_r. Qed.

Lemma quiet_same {A} (m : M A) : (forall s, snd (m s) = s) -> quiet m.
Proof.
  intros H s. rewrite H. split; [reflexivity |]. exists []. now rewrite app_nil_r.
Qed.

Lemma quiet_bind {A B} (m : M A) (f : A -> M B) :
  quiet m -> (forall a, quiet (f a)) -> quiet (bind m f).
Proof.
  intros Hm Hf s. unfold bind. specialize (Hm s).
  destruct (m s) as [[a|e] s1]; cbn [snd] in *; [|assumption].
  destruct Hm as (Ho & more & Hl). destruct (Hf a s1) as (Ho' & more' & Hl').
  split; [congruence |]. exists (more ++ more'). rewrite Hl', Hl. now rewrite app_assoc.
Qed.

Lemma quiet_try_except {A} (m : M A) (h : exn -> M A) :
  quiet m -> (forall e, quiet (h e)) -> quiet (try_except m h).
Proof.
  intros Hm Hh s. unfold try_except. specialize (Hm s).
  destruct (m s) as [[a|e] s1]; cbn [snd] in *; [assumption |].
  destruct Hm as (Ho & more & Hl). destruct (Hh e s1) as (Ho' & more' & Hl').
  split; [congruence |]. exists (more ++ more'). rewrite Hl', Hl. now rewrite app_assoc.
Qed.

Lemma getitem_snd (v : value) (k : string) (s : state) : snd (getitem v k s) = s.
Proof.
  destruct (getitem v k s) as [res s'] eqn:H. now apply getitem_state in H.
Qed.

Lemma contains_snd (v : value) (k : string) (s : state) : snd (contains v k s) = s.
Proof.
  destruct (contains v k s) as [res s'] eqn:H. now apply contains_state in H.
Qed.

Lemma iter_keys_snd (v : value) (s : state) : snd (iter_keys v s) = s.
Proof.
  destruct (iter_keys v s) as [res s'] eqn:H. now apply iter_keys_state in H.
Qed.

Lemma quiet_getitem (v : value) (k : string) : quiet (getitem v k).
Proof. apply quiet_same. apply getitem_snd. Qed.

Lemma quiet_contains (v : value) (k : string) : quiet (contains v k).
Proof. apply quiet_same. apply contains_snd. Qed.

Lemma quiet_iter_keys (v : value) : quiet (iter_keys v).
Proof. apply quiet_same. apply iter_keys_snd. Qed.

Lemma quiet_setitem (v : value) (k : string) (x : value) : quiet (setitem v k x).
Proof.
  intros s. unfold setitem.
  destruct v; try (split; [reflexivity | exists []; cbn; now rewrite app_nil_r]).
  destruct (st_heap s !! l); (split; [reflexivity | exists []; cbn; now rewrite app_nil_r]).
Qed.

Lemma quiet_logger (lv : level) (msg : string) : quiet (logger lv msg).
Proof. intros s. split; [reflexivity |]. now exists [(lv, msg)]. Qed.

Lemma quiet_log_and_raise {A} (msg : string) : quiet (@log_and_raise A msg).
Proof. intros s. split; [reflexivity |]. now exists [(LError, msg)]. Qed.

Lemma quiet_set_sb_rules f : quiet (set_sb_rules f).
Proof. intros s. split; [reflexivity |]. exists []. cbn. now rewrite app_nil_r. Qed.

Lemma quiet_set_enable_metrics f : quiet (set_enable_metrics f).
Proof. intros s. split; [reflexivity |]. exists []. cbn. now rewrite app_nil_r. Qed.

Lemma quiet_set_raw_data_df df : quiet (set_raw_data_df df).
Proof. intros s. split; [reflexivity |]. exists []. cbn. now rewrite app_nil_r. Qed.

Lemma quiet_get_raw_data_df : quiet get_raw_data_df.
Proof. now apply quiet_same. Qed.

Lemma quiet_get_heap : quiet get_heap.
Proof. now apply quiet_same. Qed.

Lemma quiet_iter_list (v : value) : quiet (iter_list v).
Proof. destruct v; first [apply quiet_ret | apply quiet_raise]. Qed.

Lemma quiet_check_function (name : string) (f : value) : quiet (check_function name f).
Proof.
  unfold check_function. destruct f; try apply quiet_raise.
  destruct (re_fullmatch pat_percentile s); [apply quiet_ret |].
  destruct (SummaryType_of s); [apply quiet_ret | apply quiet_raise].
Qed.

Lemma quiet_search_group (v : value) : quiet (search_group v).
Proof. destruct v; first [apply quiet_ret | apply quiet_raise]. Qed.

Lemma quiet_for_each {A} (l : list A) (body : A -> M unit) :
  (forall x, quiet (body x)) -> quiet (for_each l body).
Proof.
  intros Hb. induction l as [|x l IH]; cbn [for_each].
  - apply quiet_ret.
  - apply quiet_bind; [apply Hb | intros _; exact IH].
Qed.

Create HintDb quiet.
#[export] Hint Resolve quiet_ret quiet_raise quiet_lift quiet_getitem quiet_contains
  quiet_iter_keys quiet_setitem quiet_logger quiet_log_and_raise quiet_set_sb_rules
  quiet_set_enable_metrics quiet_set_raw_data_df quiet_get_raw_data_df quiet_get_heap
  quiet_iter_list quiet_check_function quiet_search_group : quiet.

Ltac quiet_tac :=
  repeat match goal with
         | |- quiet (bind _ _) => apply quiet_bind
         | |- quiet (for_each _ _) => apply quiet_for_each
         | |- quiet (try_except _ _) => apply quiet_try_except
         | |- quiet (if ?b then _ else _) => destruct b
         | |- quiet (match ?x with Some _ => _ | None => _ end) => destruct x
         | |- quiet (match ?x with [] => _ | _ :: _ => _ end) => destruct x
         | |- forall _, quiet _ => intro
         | |- quiet _ => solve [auto with quiet]
         end.

Lemma quiet_check_rules (r : value) (name : string) : quiet (_check_rules r name).
Proof. unfold _check_rules, RuleBase_check_rules. quiet_tac. Qed.

Lemma silent_ret {A} (a : A) : silent (ret a).
Proof. intros s a' s' [= _ <-]. reflexivity. Qed.

Lemma silent_raise {A} (e : exn) : silent (@raise A e).
Proof. intros s a s' [=]. Qed.

Lemma silent_lift {A} (r : result A) : silent (lift r).
Proof. intros s a s' [= _ <-]. reflexivity. Qed.

Lemma silent_same {A} (m : M A) : (forall s, snd (m s) = s) -> silent m.
Proof. intros H s a s' E. specialize (H s). rewrite E in H. cbn in H. now subst. Qed.

Lemma silent_bind {A B} (m : M A) (f : A -> M B) :
  silent m -> (forall a, silent (f a)) -> silent (bind m f).
Proof.
  intros Hm Hf s b s' H. apply bind_inv_ok in H as (a & s1 & H1 & H2).
  rewrite (Hf a _ _ _ H2). now apply (Hm _ _ _ H1).
Qed.

Lemma silent_log_and_raise {A} (msg : string) : silent (@log_and_raise A msg).
Proof. intros s a s' [=]. Qed.

Lemma silent_setitem (v : value) (k : string) (x : value) : silent (setitem v k x).
Proof.
  intros s a s'. unfold setitem. destruct v; try discriminate.
  destruct (st_heap s !! l); [|discriminate]. now intros [= _ <-].
Qed.

Lemma silent_set_sb_rules f : silent (set_sb_rules f).
Proof. intros s a s' [= _ <-]. reflexivity. Qed.

Lemma silent_set_enable_metrics f : silent (set_enable_metrics f).
Proof. intros s a s' [= _ <-]. reflexivity. Qed.

Lemma silent_getitem (v : value) (k : string) : silent (getitem v k).
Proof. apply silent_same. apply getitem_snd. Qed.

Lemma silent_contains (v : value) (k : string) : silent (contains v k).
Proof. apply silent_same. apply contains_snd. Qed.

Lemma silent_iter_keys (v : value) : silent (iter_keys v).
Proof. apply silent_same. apply iter_keys_snd. Qed.

Lemma silent_get_raw_data_df : silent get_raw_data_df.
Proof. now apply silent_same. Qed.

Lemma silent_iter_list (v : value) : silent (iter_list v).
Proof. destruct v; first [apply silent_ret | apply silent_raise]. Qed.

Lemma silent_check_function (name : string) (f : value) : silent (check_function name f).
Proof.
  unfold check_function. destruct f; try apply silent_raise.
  destruct (re_fullmatch pat_percentile s); [apply silent_ret |].
  destruct (SummaryType_of s); [apply silent_ret | apply silent_raise].
Qed.

Lemma silent_search_group (v : value) : silent (search_group v).
Proof. destruct v; first [apply silent_ret | apply silent_raise]. Qed.

Lemma silent_for_each {A} (l : list A) (body : A -> M unit) :
  (forall x, silent (body x)) -> silent (for_each l body).
Proof.
  intros Hb. induction l as [|x l IH]; cbn [for_each].
  - apply silent_ret.
  - apply silent_bind; [apply Hb | intros _; exact IH].
Qed.

Create HintDb silent.
#[export] Hint Resolve silent_ret silent_raise silent_lift silent_getitem silent_contains
  silent_iter_keys silent_setitem silent_log_and_raise silent_set_sb_rules
  silent_set_enable_metrics silent_get_raw_data_df silent_iter_list
  silent_check_function silent_search_group : silent.

Ltac silent_tac :=
  repeat match goal with
         | |- silent (bind _ _) => apply silent_bind
         | |- silent (for_each _ _) => apply silent_for_each
         | |- silent (if ?b then _ else _) => destruct b
         | |- silent (match ?x with Some _ => _ | None => _ end) => destruct x
         | |- silent (match ?x with [] => _ | _ :: _ => _ end) => destruct x
         | |- forall _, silent _ => intro
         | |- silent _ => solve [auto with silent]
         end.

Lemma silent_check_rules (r : value) (name : string) : silent (_check_rules r name).
Proof. unfold _check_rules, RuleBase_check_rules. silent_tac. Qed.

Section Outcomes.

Variable metric_match : string -> string -> bool.
Variable aggregate : DataFrame -> option value -> result DataFrame.
Variable std_of : list Q -> Q.
Variable percentile_of : Z -> list Q -> Q.

Lemma quiet_get_metrics (rule : string) (benchmark_rules : value) :
  quiet (_get_metrics metric_match rule benchmark_rules).
Proof. unfold _get_metrics. quiet_tac. Qed.

Lemma silent_get_metrics (rule : string) (benchmark_rules : value) :
  silent (_get_metrics metric_match rule benchmark_rules).
Proof. unfold _get_metrics. silent_tac. Qed.

Lemma quiet_parse_rule (benchmark_rules : value) (rule : string) :
  quiet (parse_rule metric_match benchmark_rules rule).
Proof.
  unfold parse_rule, enter_rule. quiet_tac;
    first [apply quiet_check_rules | apply quiet_get_metrics].
Qed.

Lemma silent_parse_rule (benchmark_rules : value) (rule : string) :
  silent (parse_rule metric_match benchmark_rules rule).
Proof.
  unfold parse_rule, enter_rule. silent_tac;
    first [apply silent_check_rules | apply silent_get_metrics].
Qed.

Lemma quiet_is_file_missing (w : world) (path : string) :
  quiet (is_file_missing w path).
Proof. unfold is_file_missing. quiet_tac. Qed.

Lemma quiet_preprocess (w : world) (raw_data_file : string) (rule_file : option string) :
  quiet (preprocess w raw_data_file rule_file).
Proof.
  unfold preprocess, read_raw_data, read_rules.
  quiet_tac; try apply quiet_is_file_missing.
  destruct (read_raw_data_try l) as [df [e|]]; quiet_tac.
Qed.

(** How [_parse_rules] ends, for any argument and in any state. *)
Lemma parse_rules_ends (rules : value) (s : state) :
  exists b s',
    _parse_rules metric_match rules s = (Ok b, s') /\
    st_out s' = st_out s /\
    (b = true -> st_log s' = st_log s) /\
    (b = false -> exists more msg, st_log s' = st_log s ++ more ++ [(LError, msg)]).
Proof.
  unfold _parse_rules, try_except. unfold bind at 1. cbn [get_heap].
  destruct (negb (truthy (st_heap s) rules)).
  - eexists false, _. split; [reflexivity |]. split; [reflexivity |].
    split; [discriminate |]. intros _. now exists [], "ResultSummary: get rules failed".
  - match goal with
    | |- context [bind (set_sb_rules ?f) ?k s] => set (body := bind (set_sb_rules f) k)
    end.
    assert (Hq : quiet body) by (subst body; quiet_tac; apply quiet_parse_rule).
    assert (Hs : silent body) by (subst body; silent_tac; apply silent_parse_rule).
    assert (Ht : forall s0 b s1, body s0 = (Ok b, s1) -> b = true).
    { subst body. intros s0 b s1 H.
      repeat (apply bind_inv_ok in H as (? & ? & _ & H)). now injection H as <-. }
    specialize (Hq s). specialize (Hs s). specialize (Ht s).
    destruct (body s) as [[b|e] s1]; cbn [snd] in Hq; destruct Hq as (Ho & more & Hl).
    + exists b, s1. rewrite (Ht b s1 eq_refl). split; [reflexivity |].
      split; [assumption |]. split; [intros _; now apply (Hs b) | discriminate].
    + eexists false, _. split; [reflexivity |]. split; [exact Ho |].
      split; [discriminate |]. intros _. exists more. eexists. cbn [st_log logger bind snd].
      unfold bind, logger, ret. cbn [st_log]. rewrite Hl. now rewrite app_assoc.
Qed.

(** X1: [_parse_rules] never raises, whatever it is given: it returns
    [True] or [False], and calls no writer.  When it returns [True] it has
    logged nothing; when it returns [False] the last entry of the log is an
    error it has added. *)
Theorem X1_parse_rules_never_raises (rules : value) (s : state) :
  exists b s',
    _parse_rules metric_match rules s = (Ok b, s') /\
    st_out s' = st_out s /\
    (b = true -> st_log s' = st_log s) /\
    (b = false -> exists more msg, st_log s' = st_log s ++ more ++ [(LError, msg)]).
Proof. apply parse_rules_ends. Qed.

(** X2: [run] never raises and calls at most one writer; a run that calls
    no writer has added an error to the log. *)
Theorem X2_run_writes_or_logs
    (w : world) (raw_data_file : string) (rule_file : option string)
    (output_dir output_format : string) (s : state) :
  exists s' more,
    run metric_match aggregate std_of percentile_of w raw_data_file rule_file
        output_dir output_format s = (Ok tt, s') /\
    st_log s' = st_log s ++ more /\
    ((exists o, st_out s' = st_out s ++ [o]) \/
     (st_out s' = st_out s /\ exists msg, In (LError, msg) more)).
Proof.
  unfold run, try_except. unfold bind at 1.
  pose proof (quiet_preprocess w raw_data_file rule_file s) as Hp.
  destruct (preprocess w raw_data_file rule_file s) as [[rules|e] s1];
    cbn [snd] in Hp; destruct Hp as (Ho1 & m1 & Hl1).
  - unfold bind at 1.
    destruct (parse_rules_ends rules s1) as (b & s2 & -> & Ho2 & Ht & Hf).
    destruct b; cbn [negb].
    + specialize (Ht eq_refl). unfold bind at 1. unfold _generate_summary at 1.
      destruct (generate_loop aggregate std_of percentile_of (st_heap s2)
                  (st_raw_data_df s2) (st_sb_rules s2) []) as [summary|e].
      * destruct (String.eqb output_format "excel");
          [|destruct (String.eqb output_format "md");
            [|destruct (String.eqb output_format "html")]];
          cbv beta iota delta [bind emit logger ret get_raw_data_df];
          cbn [st_log st_out st_raw_data_df];
          eexists _, _; (split; [reflexivity |]); cbn [st_log st_out];
          rewrite Ht, Hl1, Ho2, Ho1;
          (split; [rewrite <- ?app_assoc; reflexivity |]).
        1-3: left; eauto.
        right. split; [reflexivity |]. eexists. apply in_or_app. right. now left.
      * cbv beta iota delta [logger]. eexists _, _. split; [reflexivity |].
        cbn [st_log st_out]. rewrite Ht, Hl1, Ho2, Ho1.
        split; [rewrite <- app_assoc; reflexivity |]. right. split; [reflexivity |].
        eexists. apply in_or_app. right. now left.
    + destruct (Hf eq_refl) as (m2 & msg & Hl2). cbn [ret].
      eexists _, _. split; [reflexivity |]. rewrite Hl2, Hl1, Ho2, Ho1.
      split; [rewrite <- app_assoc; reflexivity |]. right. split; [reflexivity |].
      exists msg. apply in_or_app. right. apply in_or_app. right. now left.
  - cbv beta iota delta [logger]. eexists _, _. split; [reflexivity |].
    cbn [st_log st_out]. rewrite Hl1, Ho1.
    split; [rewrite <- app_assoc; reflexivity |]. right. split; [reflexivity |].
    eexists. apply in_or_app. right. now left.
Qed.

End Outcomes.

(** ** What validation establishes *)

Lemma check_dict_ok_aggregate (l : loc) (d : dict) (name : string) (s : state) x s1 :
  check_dict l d name s = (Ok x, s1) ->
  match dict_get d "aggregate" with
  | Some a => valid_aggregate a = true
  | None => True
  end.
Proof.
  unfold check_dict.
  destruct (dict_mem d "categories"); cbn [negb]; [|discriminate].
  destruct (dict_mem d "metrics"); cbn [negb]; [|discriminate].
  destruct (dict_get d "statistics") as [v|]; [|discriminate].
  destruct (check_functions (functions_of v)); [discriminate |].
  destruct (dict_get d "aggregate") as [[|b|z|a|la|la]|]; try discriminate; try easy.
  cbn [valid_aggregate]. now destruct (re_search pat_group a).
Qed.

Lemma check_rules_ok_dict (r : value) (name : string) (s : state) x s1 :
  _check_rules r name s = (Ok x, s1) ->
  exists l d, r = VRef l /\ st_heap s !! l = Some d /\
              check_dict l d name s = (Ok x, s1).
Proof.
  intros H.
  assert (Hcase : (exists l d, r = VRef l /\ st_heap s !! l = Some d) \/
                  (forall l d, r = VRef l -> st_heap s !! l <> Some d)).
  { destruct r as [| | | | |l]; try (right; intros; discriminate).
    destruct (st_heap s !! l) as [d|] eqn:Hl.
    - left. eauto.
    - right. intros l' d' [= <-]. congruence. }
  destruct Hcase as [(l & d & -> & Hl)|Hn].
  - exists l, d. rewrite (check_rules_dict l d name s Hl) in H. auto.
  - destruct (check_rules_nonref r name s Hn) as (e & s0 & H0 & _).
    rewrite H0 in H. discriminate H.
Qed.

(** X3: validating a rule twice is validating it once: when
    [_check_rules] has accepted a rule, a second call on the same rule
    returns it again and changes nothing, neither the rule nor the log. *)
Theorem X3_check_rules_idempotent
    (r : value) (name : string) (s : state) (x : value) (s1 : state) :
  _check_rules r name s = (Ok x, s1) ->
  _check_rules r name s1 = (Ok r, s1).
Proof.
  intros H. destruct (check_rules_ok_dict _ _ _ _ _ H) as (l & d & -> & Hl & Hd).
  destruct (check_dict_ok _ _ _ _ _ _ Hl Hd) as (Hc & Hm & (v & Hv & Hf) & Hl1 & _).
  pose proof (check_dict_ok_aggregate _ _ _ _ _ _ Hd) as Ha.
  rewrite (check_rules_dict l (checked_dict d) name s1 Hl1). unfold check_dict.
  assert (Ec : dict_mem (checked_dict d) "categories" = true).
  { unfold dict_mem. rewrite checked_dict_other by discriminate. exact Hc. }
  assert (Em : dict_mem (checked_dict d) "metrics" = true).
  { unfold dict_mem. rewrite checked_dict_other by discriminate. exact Hm. }
  assert (Ea : dict_get (checked_dict d) "aggregate" = dict_get d "aggregate").
  { apply checked_dict_other. discriminate. }
  rewrite Ec, Em, Ea. cbn [negb].
  rewrite (checked_dict_statistics _ _ Hv). cbn [is_list functions_of].
  rewrite Hf.
  destruct (dict_get d "aggregate") as [[|b|z|a|la|la]|]; try discriminate Ha;
    try reflexivity.
  cbn [valid_aggregate] in Ha. now rewrite Ha.
Qed.

Lemma X3_check_rules_idempotent_witness :
  let s1 := snd (_check_rules (VRef 4) "r1" (init_state doc_scalar)) in
  _check_rules (VRef 4) "r1" s1 = (Ok (VRef 4), s1).
Proof.
  apply (X3_check_rules_idempotent (VRef 4) "r1" (init_state doc_scalar) (VRef 4)).
  vm_compute. reflexivity.
Defined.

Lemma getitem_ok_inv (v : value) (k : string) (s : state) x s' :
  getitem v k s = (Ok x, s') ->
  exists l d, v = VRef l /\ st_heap s !! l = Some d /\ dict_get d k = Some x.
Proof.
  unfold getitem. destruct v; try discriminate.
  destruct (st_heap s !! l) as [d|] eqn:Hl; [|discriminate].
  destruct (dict_get d k) eqn:Hk; [|discriminate].
  intros [= <- _]. eauto.
Qed.

Lemma dict_set_Forall {A} (P : A -> Prop) (rs : list (string * A)) (k : string) (v : A) :
  Forall (fun nr => P (snd nr)) rs -> P v ->
  Forall (fun nr => P (snd nr)) (dict_set rs k v).
Proof.
  intros H Hv. induction H as [|[k0 v0] rs H0 H IH]; cbn [dict_set].
  - constructor; [assumption | constructor].
  - destruct (String.eqb k0 k); constructor; assumption.
Qed.

Lemma dict_get_Forall {A} (P : A -> Prop) (rs : list (string * A)) (k : string) (v : A) :
  Forall (fun nr => P (snd nr)) rs -> dict_get rs k = Some v -> P v.
Proof.
  intros H Hk. apply dict_get_In in Hk.
  exact (proj1 (List.Forall_forall _ _) H _ Hk).
Qed.

Lemma dict_mem_keys {A} (rs : list (string * A)) (k : string) :
  dict_mem rs k = true <-> In k (dict_keys rs).
Proof.
  unfold dict_mem. induction rs as [|[k0 v0] rs IH]; cbn [dict_get dict_keys map fst].
  - split; [discriminate | intros []].
  - destruct (String.eqb_spec k0 k) as [->|Hne].
    + split; [now left | reflexivity].
    + rewrite IH. split; [now right | intros [E|H]; [contradiction | assumption]].
Qed.

Lemma dict_keys_set {A} (rs : list (string * A)) (k : string) (v : A) :
  dict_keys (dict_set rs k v)
  = if dict_mem rs k then dict_keys rs else dict_keys rs ++ [k].
Proof.
  unfold dict_mem, dict_keys.
  induction rs as [|[k0 v0] rs IH]; cbn [dict_set dict_get]; [reflexivity |].
  destruct (String.eqb k0 k) eqn:E; [reflexivity |].
  cbn [map fst]. rewrite IH.
  now destruct (dict_get rs k).
Qed.

Lemma add_metric_keys (rule m : string) (rs : list (string * sb_rule)) :
  dict_keys (add_metric rule m rs) = dict_keys rs.
Proof.
  unfold add_metric. destruct (dict_get rs rule) as [r|] eqn:Hr; [|reflexivity].
  rewrite dict_keys_set. unfold dict_mem. now rewrite Hr.
Qed.

Lemma add_metric_well_formed (rule m : string) (rs : list (string * sb_rule)) :
  Forall (fun nr => well_formed (snd nr)) rs ->
  Forall (fun nr => well_formed (snd nr)) (add_metric rule m rs).
Proof.
  intros H. unfold add_metric. destruct (dict_get rs rule) as [r|] eqn:Hr; [|assumption].
  apply dict_set_Forall; [assumption |].
  exact (dict_get_Forall well_formed _ _ _ H Hr).
Qed.

Lemma add_metrics_keep (rule : string) (ms : list string) :
  forall rs,
    Forall (fun nr => well_formed (snd nr)) rs ->
    Forall (fun nr => well_formed (snd nr))
           (fold_left (fun rs m => add_metric rule m rs) ms rs) /\
    dict_keys (fold_left (fun rs m => add_metric rule m rs) ms rs) = dict_keys rs.
Proof.
  induction ms as [|m ms IH]; intros rs H; cbn [fold_left]; [auto |].
  destruct (IH (add_metric rule m rs) (add_metric_well_formed _ _ _ H)) as (A & B).
  split; [assumption |]. now rewrite B, add_metric_keys.
Qed.

Section Entered.

Variable metric_match : string -> string -> bool.

(** The entry a successful round of the loop of [_parse_rules] makes. *)
Lemma parse_rule_ok_entry (l2 : loc) (d2 : dict) (name : string) (s s' : state) :
  st_heap s !! l2 = Some d2 -> no_self_reference l2 d2 ->
  parse_rule metric_match (VRef l2) name s = (Ok tt, s') ->
  exists R ms,
    well_formed R /\
    st_sb_rules s' = fold_left (fun rs m => add_metric name m rs) ms
                               (dict_set (st_sb_rules s) name R).
Proof.
  intros H2 Hself H. unfold parse_rule in H.
  apply bind_inv_ok in H as (r & s0 & Hg & H).
  pose proof (getitem_state _ _ _ _ _ Hg) as ->.
  apply getitem_ok_inv in Hg as (l2' & d2' & [= <-] & Hd2' & Hname).
  rewrite H2 in Hd2'. injection Hd2' as <-.
  apply bind_inv_ok in H as (x & s1 & Hc & H).
  destruct (check_rules_ok_dict _ _ _ _ _ Hc) as (l & d & -> & Hl & Hd).
  destruct (check_dict_ok _ _ _ _ _ _ Hl Hd) as (Hcat & _ & (v & Hv & Hf) & Hl1 & Hoth).
  destruct (check_dict_state _ _ _ _ _ _ Hl Hd) as ((Hsb & _) & _ & Hx).
  pose proof (check_dict_ok_aggregate _ _ _ _ _ _ Hd) as Ha.
  rewrite (Hx x eq_refl) in H.
  assert (Hne : l2 <> l).
  { intros ->. now apply (no_self_reference_get _ _ Hself name). }
  assert (H21 : st_heap s1 !! l2 = Some d2) by (rewrite Hoth; assumption).
  rewrite (bind_ok _ _ _ _ _ (setitem_ref l2 d2 name _ s1 H21)) in H.
  rewrite (dict_set_same _ _ _ Hname), (insert_id _ _ _ H21) in H.
  set (s2 := with_heap s1 (st_heap s1)) in H.
  assert (G2 : st_heap s2 !! l2 = Some d2) by exact H21.
  assert (Gl : st_heap s2 !! l = Some (checked_dict d)) by exact Hl1.
  apply dict_mem_true in Hcat as (c & Hcat).
  assert (Gc : dict_get (checked_dict d) "categories" = Some c).
  { rewrite checked_dict_other by discriminate. exact Hcat. }
  pose proof (checked_dict_statistics _ _ Hv) as Gs.
  assert (Ga : dict_get (checked_dict d) "aggregate" = dict_get d "aggregate").
  { apply checked_dict_other. discriminate. }
  unfold enter_rule in H.
  rewrite (bind_ok _ _ _ _ _ (getitem_ref l2 d2 name _ s2 G2 Hname)) in H.
  rewrite (bind_ok _ _ _ _ _ (getitem_ref l _ "categories" _ s2 Gl Gc)) in H.
  rewrite (bind_ok _ _ _ _ _ (getitem_ref l2 d2 name _ s2 G2 Hname)) in H.
  rewrite (bind_ok _ _ _ _ _ (getitem_ref l _ "statistics" _ s2 Gl Gs)) in H.
  rewrite (bind_ok _ _ _ _ _ (getitem_ref l2 d2 name _ s2 G2 Hname)) in H.
  rewrite (bind_ok _ _ _ _ _ (contains_ref l _ "aggregate" s2 Gl)) in H.
  assert (Hagg : exists a,
             (if dict_mem (checked_dict d) "aggregate"
              then let* r4 := getitem (VRef l2) name in getitem r4 "aggregate"
              else ret (VBool false)) s2 = (Ok a, s2) /\ valid_aggregate a = true).
  { unfold dict_mem. rewrite Ga. destruct (dict_get d "aggregate") as [a|] eqn:Hda.
    - exists a. split; [|exact Ha].
      rewrite (bind_ok _ _ _ _ _ (getitem_ref l2 d2 name _ s2 G2 Hname)).
      apply getitem_ref with (d := checked_dict d); [exact Gl | now rewrite Ga].
    - now exists (VBool false). }
  destruct Hagg as (a & Hagg & Hva). rewrite (bind_ok _ _ _ _ _ Hagg) in H.
  unfold bind at 1 in H. cbn [set_sb_rules] in H.
  apply get_metrics_ok in H as (m & ms & ->). cbn [st_sb_rules with_heap s2].
  exists (mkRule name c [] (VList (functions_of v)) a), (m :: ms).
  split; [|now rewrite Hsb].
  split; [|exact Hva]. exists (functions_of v). auto.
Qed.

Lemma parse_loop_entries (l2 : loc) (d2 : dict) (names : list string) :
  no_self_reference l2 d2 ->
  forall s s',
    st_heap s !! l2 = Some d2 ->
    for_each names (parse_rule metric_match (VRef l2)) s = (Ok tt, s') ->
    Forall (fun nr => well_formed (snd nr)) (st_sb_rules s) ->
    NoDup (dict_keys (st_sb_rules s) ++ names) ->
    Forall (fun nr => well_formed (snd nr)) (st_sb_rules s') /\
    dict_keys (st_sb_rules s') = dict_keys (st_sb_rules s) ++ names.
Proof.
  intros Hself. induction names as [|n names IH]; intros s s' H2 H Hwf Hnd;
    cbn [for_each] in H.
  - injection H as <-. now rewrite app_nil_r.
  - apply bind_inv_ok in H as ([] & s1 & H1 & H).
    destruct (parse_rule_effect _ _ _ _ _ _ _ H2 Hself H1) as (A1 & _).
    destruct (parse_rule_ok_entry _ _ _ _ _ H2 Hself H1) as (R & ms & HR & Hsb).
    destruct (add_metrics_keep n ms (dict_set (st_sb_rules s) n R)) as (B1 & B2).
    { now apply dict_set_Forall. }
    rewrite <- Hsb in B1, B2.
    assert (Hkeys : dict_keys (st_sb_rules s1) = dict_keys (st_sb_rules s) ++ [n]).
    { rewrite B2, dict_keys_set.
      destruct (dict_mem (st_sb_rules s) n) eqn:Hmem; [|reflexivity].
      apply dict_mem_keys in Hmem. apply NoDup_app in Hnd as (_ & Hdis & _).
      exfalso. apply (Hdis n); [now apply list_elem_of_In | left]. }
    destruct (IH s1 s' A1 H B1) as (C1 & C2).
    { rewrite Hkeys, <- app_assoc. exact Hnd. }
    split; [exact C1 |]. rewrite C2, Hkeys, <- app_assoc. reflexivity.
Qed.

(** X5: what a successful parse leaves in [self._sb_rules]: the rules of
    the document, in the order of the document; each with at least one
    metric, with a list of statistic names that are all percentile tokens
    or members of [SummaryType], and with an aggregate that is a boolean or
    a pattern with a group. *)
Theorem X5_parsed_rules_well_formed
    (rules : value) (l2 : loc) (d2 : dict) (s s' : state) :
  rules_of (st_heap s) rules = Some (l2, d2) ->
  no_self_reference l2 d2 ->
  NoDup (dict_keys d2) ->
  _parse_rules metric_match rules s = (Ok true, s') ->
  dict_keys (st_sb_rules s') = dict_keys d2 /\
  Forall (fun nr => well_formed (snd nr)) (st_sb_rules s') /\
  all_resolved (st_sb_rules s').
Proof.
  intros Hdoc Hself Hnd Hparse. apply rules_of_document in Hdoc.
  pose proof (parse_rules_resolved _ _ _ _ Hparse) as Hres.
  rewrite (parse_rules_document _ _ _ _ _ Hdoc) in Hparse.
  destruct (for_each (dict_keys d2) (parse_rule metric_match (VRef l2)) (reset_rules s))
    as [[[]|e] s1] eqn:Hloop; [|discriminate Hparse].
  injection Hparse as <-.
  assert (Hl2 : st_heap (reset_rules s) !! l2 = Some d2).
  { destruct Hdoc as (? & ? & ? & ? & _ & _ & _ & _ & _ & H2). exact H2. }
  destruct (parse_loop_entries l2 d2 (dict_keys d2) Hself _ _ Hl2 Hloop) as (A & B).
  - constructor.
  - exact Hnd.
  - auto.
Qed.

End Entered.

Lemma X5_parsed_rules_witness :
  exists s',
    _parse_rules no_match (VRef 1) (mkState doc_shared [] [] foo_bar [] []) = (Ok true, s') /\
    dict_keys (st_sb_rules s') = ["r1"; "r2"].
Proof.
  destruct (X5_parsed_rules_well_formed no_match (VRef 1) 3%positive
              [("r1", VRef 4); ("r2", VRef 5)]
              (mkState doc_shared [] [] foo_bar [] [])
              (snd (_parse_rules no_match (VRef 1) (mkState doc_shared [] [] foo_bar [] []))))
    as (Hkeys & _).
  - vm_compute. reflexivity.
  - vm_compute. reflexivity.
  - cbn. constructor;
      [intros H; apply list_elem_of_In in H; cbn in H; intuition congruence |].
    constructor; [intros H; apply list_elem_of_In in H; destruct H | constructor].
  - vm_compute. reflexivity.
  - eexists. split; [vm_compute; reflexivity | exact Hkeys].
Defined.

(** ** The summary dictionary *)

Lemma key_eqb_true_l (a b : value) :
  key_eqb a b = true -> forall c, key_eqb a c = key_eqb b c.
Proof.
  intros H c.
  destruct a as [|x|x|x|x|x], b as [|y|y|y|y|y]; cbn in H; try discriminate H;
    try (apply Z.eqb_eq in H); try (apply String.eqb_eq in H); subst;
    try reflexivity;
    destruct c as [|z|z|z|z|z]; cbn; try reflexivity;
    repeat match goal with b : bool |- _ => destruct b end;
    cbn in *; try reflexivity; try discriminate; try (subst; reflexivity).
Qed.

Lemma key_eqb_hashable (a b : value) : key_eqb a b = true -> hashable a = true.
Proof. destruct a, b; cbn; congruence. Qed.

Lemma summary_lookup_set_eq (acc : summary_dict) (k : value) (v : list line) :
  hashable k = true -> summary_lookup (summary_set acc k v) k = Some v.
Proof.
  intros Hk. induction acc as [|[k0 v0] acc IH]; cbn [summary_set summary_lookup].
  - now rewrite key_eqb_refl.
  - destruct (key_eqb k0 k) eqn:E; cbn [summary_lookup]; rewrite E;
      [reflexivity | exact IH].
Qed.

Lemma summary_lookup_set_ne (acc : summary_dict) (k k' : value) (v : list line) :
  key_eqb k k' = false ->
  summary_lookup (summary_set acc k v) k' = summary_lookup acc k'.
Proof.
  intros Hne. induction acc as [|[k0 v0] acc IH]; cbn [summary_set summary_lookup].
  - now rewrite Hne.
  - destruct (key_eqb k0 k) eqn:E; cbn [summary_lookup].
    + now rewrite (key_eqb_true_l _ _ E k'), Hne.
    + now rewrite IH.
Qed.

Lemma summary_set_keys (acc : summary_dict) (k : value) (v : list line) :
  map fst (summary_set acc k v)
  = if existsb (fun k0 => key_eqb k0 k) (map fst acc)
    then map fst acc else map fst acc ++ [k].
Proof.
  induction acc as [|[k0 v0] acc IH]; cbn [summary_set map fst existsb]; [reflexivity |].
  destruct (key_eqb k0 k) eqn:E; cbn [map fst orb]; [reflexivity |].
  rewrite IH. now destruct (existsb _ (map fst acc)).
Qed.

(** The keys of a dictionary are pairwise different, and hashable. *)
Lemma summary_set_distinct (acc : summary_dict) (k : value) (v : list line) :
  hashable k = true ->
  ForallOrdPairs (fun a b => key_eqb a b = false) (map fst acc) ->
  Forall (fun a => hashable a = true) (map fst acc) ->
  ForallOrdPairs (fun a b => key_eqb a b = false) (map fst (summary_set acc k v)) /\
  Forall (fun a => hashable a = true) (map fst (summary_set acc k v)).
Proof.
  intros Hk Hd Hh. rewrite summary_set_keys.
  destruct (existsb (fun k0 => key_eqb k0 k) (map fst acc)) eqn:E; [auto |].
  split.
  - assert (Hall : Forall (fun a => key_eqb a k = false) (map fst acc)).
    { apply List.Forall_forall. intros a Ha.
      destruct (key_eqb a k) eqn:Ea; [|reflexivity].
      assert (existsb (fun k0 => key_eqb k0 k) (map fst acc) = true)
        by (apply existsb_exists; eauto).
      congruence. }
    clear E Hh. induction Hd as [|a l Ha Hd IH]; cbn [app].
    + constructor; [constructor | constructor].
    + inversion Hall; subst. constructor.
      * apply Forall_app. split; [assumption |]. now constructor.
      * now apply IH.
  - apply Forall_app. split; [assumption |]. now constructor.
Qed.

Section Summary.

Variable aggregate : DataFrame -> option value -> result DataFrame.
Variable std_of : list Q -> Q.
Variable percentile_of : Z -> list Q -> Q.

Lemma generate_loop_app (h : heap) (raw : DataFrame) (l1 l2 : list (string * sb_rule)) :
  forall acc,
    generate_loop aggregate std_of percentile_of h raw (l1 ++ l2) acc
    = match generate_loop aggregate std_of percentile_of h raw l1 acc with
      | Ok acc' => generate_loop aggregate std_of percentile_of h raw l2 acc'
      | Raise e => Raise e
      end.
Proof.
  induction l1 as [|[n r] l1 IH]; intros acc; cbn [app generate_loop]; [reflexivity |].
  destruct (summary_lines_of_rule _ _ _ h raw r); [|reflexivity].
  destruct (hashable (r_categories r)); [apply IH | reflexivity].
Qed.

Lemma generate_loop_keeps (h : heap) (raw : DataFrame) (k : value) (lines : list line)
    (rules : list (string * sb_rule)) :
  Forall (fun nr => key_eqb (r_categories (snd nr)) k = false) rules ->
  forall acc summary,
    generate_loop aggregate std_of percentile_of h raw rules acc = Ok summary ->
    summary_lookup acc k = Some lines ->
    summary_lookup summary k = Some lines.
Proof.
  induction 1 as [|[n r] rules Hr Hrest IH]; intros acc summary; cbn [generate_loop].
  - now intros [= <-].
  - destruct (summary_lines_of_rule _ _ _ h raw r) as [ls|e]; [|discriminate].
    destruct (hashable (r_categories r)); [|discriminate].
    intros H Hacc. eapply IH; [exact H |].
    cbn [snd] in Hr. now rewrite summary_lookup_set_ne.
Qed.

(** X6: the last rule of a category decides what the summary holds for
    it: after a generation that succeeds, the entry of the category of a
    rule is made of the lines of that rule, if no rule after it has the
    same category. *)
Theorem X6_last_rule_of_category_wins
    (h : heap) (raw : DataFrame) (before after : list (string * sb_rule))
    (n : string) (r : sb_rule) (summary : summary_dict) :
  generate_loop aggregate std_of percentile_of h raw (before ++ (n, r) :: after) []
  = Ok summary ->
  Forall (fun nr => key_eqb (r_categories (snd nr)) (r_categories r) = false) after ->
  exists lines,
    summary_lines_of_rule aggregate std_of percentile_of h raw r = Ok lines /\
    summary_lookup summary (r_categories r) = Some lines.
Proof.
  intros Hgen Hafter. rewrite generate_loop_app in Hgen.
  destruct (generate_loop aggregate std_of percentile_of h raw before []) as [acc|e];
    [|discriminate Hgen].
  cbn [generate_loop] in Hgen.
  destruct (summary_lines_of_rule _ _ _ h raw r) as [lines|e]; [|discriminate Hgen].
  destruct (hashable (r_categories r)) eqn:Hh; [|discriminate Hgen].
  exists lines. split; [reflexivity |].
  eapply generate_loop_keeps; [exact Hafter | exact Hgen |].
  now apply summary_lookup_set_eq.
Qed.

Lemma generate_loop_keys (h : heap) (raw : DataFrame) (rules : list (string * sb_rule)) :
  forall acc summary,
    generate_loop aggregate std_of percentile_of h raw rules acc = Ok summary ->
    ForallOrdPairs (fun a b => key_eqb a b = false) (map fst acc) ->
    Forall (fun a => hashable a = true) (map fst acc) ->
    ForallOrdPairs (fun a b => key_eqb a b = false) (map fst summary) /\
    Forall (fun a => hashable a = true) (map fst summary) /\
    (length summary <= length acc + length rules)%nat.
Proof.
  induction rules as [|[n r] rules IH]; intros acc summary; cbn [generate_loop].
  - intros [= <-] Hd Hh. cbn. split; [assumption |]. split; [assumption | lia].
  - destruct (summary_lines_of_rule _ _ _ h raw r) as [ls|e]; [|discriminate].
    destruct (hashable (r_categories r)) eqn:Hhash; [|discriminate].
    intros H Hd Hh.
    destruct (summary_set_distinct acc (r_categories r) ls Hhash Hd Hh) as (Hd' & Hh').
    destruct (IH _ _ H Hd' Hh') as (A & B & C).
    split; [assumption |]. split; [assumption |].
    assert (Hlen : (length (summary_set acc (r_categories r) ls) <= S (length acc))%nat).
    { rewrite <- (length_map fst (summary_set acc (r_categories r) ls)), summary_set_keys.
      destruct (existsb _ (map fst acc)); rewrite ?length_app, !length_map; cbn; lia. }
    cbn [length]. lia.
Qed.

(** X7: the categories of a generated summary are pairwise different as
    dictionary keys and hashable, and there are at most as many of them as
    there are rules. *)
Theorem X7_summary_keys_distinct
    (h : heap) (raw : DataFrame) (rules : list (string * sb_rule))
    (summary : summary_dict) :
  generate_loop aggregate std_of percentile_of h raw rules [] = Ok summary ->
  ForallOrdPairs (fun a b => key_eqb a b = false) (map fst summary) /\
  Forall (fun a => hashable a = true) (map fst summary) /\
  (length summary <= length rules)%nat.
Proof.
  intros H. destruct (generate_loop_keys h raw rules [] summary H) as (A & B & C).
  - constructor.
  - constructor.
  - auto.
Qed.

Lemma summary_set_In_key (acc : summary_dict) (k : value) (v : list line)
    (k' : value) (v' : list line) :
  hashable k = true ->
  In (k', v') (summary_set acc k v) ->
  In (k', v') acc \/ (v' = v /\ key_eqb k' k = true).
Proof.
  intros Hk. induction acc as [|[k0 v0] acc IH]; cbn [summary_set].
  - intros [[= <- <-]|[]]. right. split; [reflexivity | now apply key_eqb_refl].
  - destruct (key_eqb k0 k) eqn:E.
    + intros [[= <- <-]|H]; [right; auto | left; now right].
    + intros [H|H]; [left; now left |].
      destruct (IH H) as [G|G]; [left; now right | now right].
Qed.

Lemma summary_lookup_set_some (acc : summary_dict) (k k' : value) (v : list line) :
  hashable k' = true ->
  summary_lookup acc k <> None -> summary_lookup (summary_set acc k' v) k <> None.
Proof.
  intros Hk' H. induction acc as [|[k0 v0] acc IH]; cbn [summary_set summary_lookup] in *.
  - congruence.
  - destruct (key_eqb k0 k') eqn:E; cbn [summary_lookup];
      destruct (key_eqb k0 k) eqn:E'; try discriminate; auto.
Qed.

Lemma generate_loop_entries (h : heap) (raw : DataFrame)
    (rules : list (string * sb_rule)) :
  forall acc summary,
    generate_loop aggregate std_of percentile_of h raw rules acc = Ok summary ->
    (forall k, summary_lookup acc k <> None -> summary_lookup summary k <> None) /\
    (forall n r, In (n, r) rules -> summary_lookup summary (r_categories r) <> None) /\
    (forall k lines,
        In (k, lines) summary ->
        In (k, lines) acc \/
        exists n r, In (n, r) rules /\ key_eqb k (r_categories r) = true /\
          summary_lines_of_rule aggregate std_of percentile_of h raw r = Ok lines).
Proof.
  induction rules as [|[n r] rules IH]; intros acc summary; cbn [generate_loop].
  - intros [= <-]. split; [auto |]. split; [intros ? ? [] | auto].
  - destruct (summary_lines_of_rule _ _ _ h raw r) as [ls|e] eqn:Hr; [|discriminate].
    destruct (hashable (r_categories r)) eqn:Hh; [|discriminate].
    intros H. destruct (IH _ _ H) as (A & B & C). split; [|split].
    + intros k Hk. apply A. now apply summary_lookup_set_some.
    + intros n' r' [[= <- <-]|Hin]; [|now apply (B n')].
      apply A. rewrite summary_lookup_set_eq by assumption. discriminate.
    + intros k lines Hin. destruct (C _ _ Hin) as [G|(n' & r' & G1 & G2 & G3)].
      * apply summary_set_In_key in G as [G|[-> G]]; [now left | | assumption].
        right. exists n, r. split; [now left | auto].
      * right. exists n', r'. split; [now right | auto].
Qed.

(** X8: a generated summary has an entry for the category of every rule,
    and nothing else: each of its entries holds the lines of one of the
    rules, a rule whose category is the key of the entry, and all those
    lines carry that category in their first field. *)
Theorem X8_summary_entries
    (h : heap) (raw : DataFrame) (rules : list (string * sb_rule))
    (summary : summary_dict) :
  generate_loop aggregate std_of percentile_of h raw rules [] = Ok summary ->
  (forall n r, In (n, r) rules -> summary_lookup summary (r_categories r) <> None) /\
  (forall k lines,
      In (k, lines) summary ->
      exists n r,
        In (n, r) rules /\ key_eqb k (r_categories r) = true /\
        summary_lines_of_rule aggregate std_of percentile_of h raw r = Ok lines /\
        forall c m st v, In (c, m, st, v) lines -> c = r_categories r).
Proof.
  intros H. destruct (generate_loop_entries h raw rules [] summary H) as (_ & B & C).
  split; [exact B |]. intros k lines Hin.
  destruct (C _ _ Hin) as [[]|(n & r & G1 & G2 & G3)].
  exists n, r. split; [assumption |]. split; [assumption |]. split; [assumption |].
  intros c m st v Hline.
  destruct (summary_lines_inv _ _ _ _ _ _ _ G3) as (data & sts & udf & _ & _ & _ & _ & ->).
  now apply format_summary_In in Hline as (-> & _).
Qed.

Lemma flat_map_length_const {A B} (f : A -> list B) (l : list A) (k : nat) :
  (forall x, In x l -> length (f x) = k) -> length (flat_map f l) = (length l * k)%nat.
Proof.
  induction l as [|x l IH]; intros H; cbn [flat_map length]; [reflexivity |].
  rewrite length_app, (H x) by now left. rewrite IH; [lia |].
  intros y Hy. apply H. now right.
Qed.

(** X9: a rule gives one line for each pair of a column of its data and a
    row of its statistics: as many lines as the product of the number of
    columns by the number of different statistic names. *)
Theorem X9_lines_count
    (h : heap) (raw : DataFrame) (r : sb_rule) (data : DataFrame)
    (statistics : list value) (lines : list line) :
  data_of_rule aggregate h raw r = Ok data ->
  r_statistics r = VList statistics ->
  summary_lines_of_rule aggregate std_of percentile_of h raw r = Ok lines ->
  length lines = (length (df_columns data) * length (labels_of statistics))%nat.
Proof.
  intros Hdata Hstats Hlines.
  destruct (summary_lines_inv _ _ _ _ _ _ _ Hlines)
    as (data' & sts & udf & Hd & Hs & Hloop & _ & ->).
  rewrite Hdata in Hd. injection Hd as <-. rewrite Hstats in Hs. injection Hs as <-.
  destruct (statistics_loop_shape _ _ _ _ _ _ Hloop) as (Hc & Hi).
  destruct (df_round_shape udf) as (Hrc & Hri).
  unfold _format_summary_of_rule. rewrite Hrc, Hri, Hc, Hi. cbn [df_columns df_index df_rows map].
  rewrite (flat_map_length_const _ _ (length (labels_of statistics))).
  - now rewrite <- (Permutation_length (sorted_perm (df_columns data))).
  - intros x _. now rewrite length_map.
Qed.

(** X10: a statistic name that validation accepts as a percentile token
    never fails at its conversion: it reaches the percentile reducer with
    the number written after the [p], which lies between 0 and 99. *)
Theorem X10_percentile_token_dispatch (df : DataFrame) (name : string) :
  re_fullmatch pat_percentile name = true ->
  exists val,
    0 <= val <= 99 /\
    int_of_str (strip "p" name) = Some val /\
    statistic_row std_of percentile_of df (VStr name)
    = get_summary_func std_of percentile_of PERCENTILE df (Some val).
Proof.
  intros H. apply fullmatch_percentile_spec in H.
  destruct (percentile_token_int name H) as (Hp & val & Hint & Hrange).
  exists val. split; [assumption |]. split; [assumption |].
  unfold statistic_row. now rewrite Hp, Hint.
Qed.

Lemma select_rows_agree (cs : list string) (cols1 cols2 : list string) :
  forall rows1 rows2 : list (cell * list cell),
    map fst rows1 = map fst rows2 ->
    (forall c, In c cs ->
               map (fun r => cell_at cols1 (snd r) c) rows1
               = map (fun r => cell_at cols2 (snd r) c) rows2) ->
    map (fun r => (fst r, map (cell_at cols1 (snd r)) cs)) rows1
    = map (fun r => (fst r, map (cell_at cols2 (snd r)) cs)) rows2.
Proof.
  induction rows1 as [|r1 rows1 IH]; intros [|r2 rows2] Hi Hc; try discriminate Hi;
    [reflexivity |].
  cbn [map] in *. injection Hi as Hf Hi. f_equal.
  - rewrite Hf. f_equal. apply map_ext_in. intros c Hin.
    specialize (Hc c Hin). now injection Hc as Hc _.
  - apply IH; [assumption |]. intros c Hin. specialize (Hc c Hin). now injection Hc as _ Hc.
Qed.

Lemma df_select_agree (cs : list string) (raw1 raw2 : DataFrame) :
  agree_on cs raw1 raw2 -> df_select raw1 cs = df_select raw2 cs.
Proof.
  intros (Hi & Hc). unfold df_select.
  assert (Hf : filter (fun c => negb (mem_string c (df_columns raw1))) cs
               = filter (fun c => negb (mem_string c (df_columns raw2))) cs).
  { clear Hi. induction cs as [|c cs IH]; [reflexivity |].
    rewrite !filter_cons. rewrite (proj1 (Hc c (or_introl eq_refl))).
    rewrite IH; [reflexivity |]. intros c' Hin. apply Hc. now right. }
  rewrite Hf. clear Hf.
  destruct (filter (fun c => negb (mem_string c (df_columns raw2))) cs); [|reflexivity].
  f_equal. f_equal. apply select_rows_agree; [exact Hi |].
  intros c Hin. exact (proj2 (Hc c Hin)).
Qed.

(** X11: with no aggregation, the lines of a rule depend on the raw table
    through the columns named by its metrics only: two tables with the same
    rows that agree on these columns give the same outcome, lines or
    exception, whatever their other columns hold. *)
Theorem X11_column_independence
    (h : heap) (raw1 raw2 : DataFrame) (r : sb_rule) :
  truthy h (r_aggregate r) = false ->
  agree_on (dict_keys (r_metrics r)) raw1 raw2 ->
  summary_lines_of_rule aggregate std_of percentile_of h raw1 r
  = summary_lines_of_rule aggregate std_of percentile_of h raw2 r.
Proof.
  intros Hagg Hsel. unfold summary_lines_of_rule, summary_df_of, data_of_rule.
  now rewrite Hagg, (df_select_agree _ _ _ Hsel).
Qed.

End Summary.

Lemma X6_last_rule_witness :
  exists lines,
    summary_lines_of_rule no_aggregate first_of (fun _ => first_of) doc_shared foo_bar
      rule_bar = Ok lines /\
    summary_lookup [(VStr "A", [(VStr "A", "bar", Str "mean", Num 3)])] (VStr "A")
    = Some lines.
Proof.
  apply (X6_last_rule_of_category_wins no_aggregate first_of (fun _ => first_of)
           doc_shared foo_bar [("r1", rule_foo)] [] "r2" rule_bar).
  - vm_compute. reflexivity.
  - constructor.
Defined.

Lemma X7_summary_keys_witness :
  ForallOrdPairs (fun a b => key_eqb a b = false) [VStr "A"] /\
  Forall (fun a => hashable a = true) [VStr "A"] /\
  (1 <= 2)%nat.
Proof.
  apply (X7_summary_keys_distinct no_aggregate first_of (fun _ => first_of)
           doc_shared foo_bar [("r1", rule_foo); ("r2", rule_bar)]
           [(VStr "A", [(VStr "A", "bar", Str "mean", Num 3)])]).
  vm_compute. reflexivity.
Defined.

Lemma X8_summary_entries_witness :
  summary_lookup [(VStr "A", [(VStr "A", "bar", Str "mean", Num 3)])]
    (r_categories rule_foo) <> None.
Proof.
  destruct (X8_summary_entries no_aggregate first_of (fun _ => first_of)
              doc_shared foo_bar [("r1", rule_foo); ("r2", rule_bar)]
              [(VStr "A", [(VStr "A", "bar", Str "mean", Num 3)])]) as (H & _).
  - vm_compute. reflexivity.
  - apply (H "r1"). left. reflexivity.
Defined.

Lemma X9_lines_count_witness : length lines_example = (2 * 1)%nat.
Proof.
  apply (X9_lines_count no_aggregate first_of (fun _ => first_of)
           doc_r1 foo_bar rule_r1 foo_bar [VStr "mean"] lines_example).
  - vm_compute. reflexivity.
  - vm_compute. reflexivity.
  - vm_compute. reflexivity.
Defined.

Lemma X10_percentile_token_witness :
  exists val,
    0 <= val <= 99 /\
    int_of_str (strip "p" "p95") = Some val /\
    statistic_row first_of (fun _ => first_of) foo_bar (VStr "p95")
    = get_summary_func first_of (fun _ => first_of) PERCENTILE foo_bar (Some val).
Proof.
  apply (X10_percentile_token_dispatch first_of (fun _ => first_of) foo_bar "p95").
  vm_compute. reflexivity.
Defined.

Lemma X11_column_independence_witness :
  summary_lines_of_rule no_aggregate first_of (fun _ => first_of) doc_r1 foo_bar rule_r1
  = summary_lines_of_rule no_aggregate first_of (fun _ => first_of) doc_r1 foo_bar_baz
      rule_r1.
Proof.
  apply (X11_column_independence no_aggregate first_of (fun _ => first_of)
           doc_r1 foo_bar foo_bar_baz rule_r1).
  - vm_compute. reflexivity.
  - split; [vm_compute; reflexivity |].
    intros c [<-|[<-|[]]]; split; vm_compute; reflexivity.
Defined.

(** ** More on the raw-data loader *)

Lemma read_records_app (recs : list (list (string * cell))) (tail : list jsonl) :
  forall n df,
    read_records (map JRecord recs ++ tail) n df
    = read_records tail (n + length recs) (fold_left df_append_record recs df).
Proof.
  induction recs as [|rec recs IH]; intros n df; cbn [map app read_records fold_left length].
  - now rewrite Nat.add_0_r.
  - rewrite IH. f_equal. lia.
Qed.

Lemma relabel_fst (rows : list (cell * list cell)) :
  forall n, map fst (relabel n rows)
            = map (fun i => Num (inject_Z (Z.of_nat i))) (seq n (length rows)).
Proof.
  induction rows as [|r rows IH]; intros n; cbn [relabel map fst length seq]; [reflexivity |].
  now rewrite IH.
Qed.

Lemma relabel_snd (rows : list (cell * list cell)) :
  forall n, map snd (relabel n rows) = map snd rows.
Proof.
  induction rows as [|r rows IH]; intros n; cbn [relabel map snd]; [reflexivity |].
  now rewrite IH.
Qed.

Lemma append_record_rows (df : DataFrame) (rec : list (string * cell)) :
  length (df_rows (df_append_record df rec)) = S (length (df_rows df)) /\
  df_index (df_append_record df rec) = numbered (S (length (df_rows df))).
Proof.
  split.
  - rewrite <- (length_map snd). unfold df_append_record. cbn [df_rows].
    rewrite relabel_snd, length_map, length_app, length_map. cbn. lia.
  - unfold df_index, numbered, df_append_record. cbn [df_rows].
    rewrite relabel_fst, length_app, length_map. cbn [length].
    now rewrite Nat.add_1_r.
Qed.

Lemma appended_rows (recs : list (list (string * cell))) :
  forall df,
    df_index df = numbered (length (df_rows df)) ->
    length (df_rows (fold_left df_append_record recs df))
    = (length (df_rows df) + length recs)%nat /\
    df_index (fold_left df_append_record recs df)
    = numbered (length (df_rows df) + length recs).
Proof.
  induction recs as [|rec recs IH]; intros df Hdf; cbn [fold_left length].
  - rewrite Nat.add_0_r. auto.
  - destruct (append_record_rows df rec) as (Hl & Hi).
    destruct (IH (df_append_record df rec)) as (A & B).
    + now rewrite Hl.
    + rewrite Hl in A, B. rewrite A, B.
      replace (S (length (df_rows df)) + length recs)%nat
        with (length (df_rows df) + S (length recs))%nat by lia. auto.
Qed.

Lemma position_None (c : string) (l : list string) :
  position c l = None <-> ~ In c l.
Proof.
  induction l as [|y l IH]; cbn [position In]; [tauto |].
  destruct (String.eqb_spec y c) as [->|Hne].
  - split; [discriminate | intros H; exfalso; apply H; now left].
  - destruct (position c l); cbn [option_map].
    + split; [discriminate |]. intros H. exfalso. apply H. right.
      destruct IH as [_ IH]. destruct (in_dec string_dec c l) as [Hin|Hin]; [assumption |].
      specialize (IH Hin). discriminate IH.
    + split; [|reflexivity]. intros _ [E|Hin]; [contradiction |].
      now apply (proj1 IH).
Qed.

Lemma append_record_columns (df : DataFrame) (rec : list (string * cell)) (c : string) :
  In c (df_columns (df_append_record df rec))
  <-> In c (df_columns df) \/ In c (dict_keys rec).
Proof.
  unfold df_append_record. cbn [df_columns]. rewrite in_app_iff.
  rewrite <- (list_elem_of_In (filter _ _)), list_elem_of_filter,
    (list_elem_of_In (dict_keys rec)).
  split.
  - intros [H|[_ H]]; auto.
  - intros [H|H]; [now left |].
    destruct (mem_string c (df_columns df)) eqn:E.
    + left. unfold mem_string in E. apply existsb_exists in E as (x & Hx & Ex).
      apply String.eqb_eq in Ex. now subst.
    + right. split; [exact I | assumption].
Qed.

Lemma appended_columns (recs : list (list (string * cell))) (c : string) :
  forall df,
    In c (df_columns (fold_left df_append_record recs df))
    <-> In c (df_columns df) \/ exists rec, In rec recs /\ In c (dict_keys rec).
Proof.
  induction recs as [|rec recs IH]; intros df; cbn [fold_left].
  - split; [now left | intros [H|(rec & [] & _)]; assumption].
  - rewrite IH, append_record_columns. split.
    + intros [[H|H]|(rec' & H1 & H2)]; [now left | right | right].
      * exists rec. split; [now left | assumption].
      * exists rec'. split; [now right | assumption].
    + intros [H|(rec' & [<-|H1] & H2)]; [left; now left | left; now right |].
      right. eauto.
Qed.

Lemma position_lt (c : string) (l : list string) :
  forall i, position c l = Some i -> (i < length l)%nat.
Proof.
  induction l as [|y l IH]; intros i; cbn [position length]; [discriminate |].
  destruct (String.eqb y c).
  - intros [= <-]. lia.
  - destruct (position c l) as [j|]; cbn [option_map]; [|discriminate].
    intros [= <-]. specialize (IH j eq_refl). lia.
Qed.

Lemma position_app_l (c : string) (l k : list string) (i : nat) :
  position c l = Some i -> position c (l ++ k) = Some i.
Proof.
  revert i. induction l as [|y l IH]; intros i; cbn [position app]; [discriminate |].
  destruct (String.eqb y c); [auto |].
  destruct (position c l) as [j|]; cbn [option_map]; [|discriminate].
  intros [= <-]. now rewrite (IH j eq_refl).
Qed.

Lemma position_app_r (c : string) (l k : list string) :
  position c l = None ->
  position c (l ++ k) = option_map (Nat.add (length l)) (position c k).
Proof.
  induction l as [|y l IH]; cbn [position app length].
  - intros _. now destruct (position c k).
  - destruct (String.eqb y c); [discriminate |].
    destruct (position c l) as [j|]; cbn [option_map]; [discriminate |].
    intros _. rewrite (IH eq_refl). now destruct (position c k).
Qed.

Lemma nth_missing (A : Type) (l : list A) :
  forall j, nth j (map (fun _ => NaN) l) NaN = NaN.
Proof. induction l as [|x l IH]; intros [|j]; cbn; auto. Qed.

Lemma cell_at_extend (cols fresh : list string) (row : list cell) (c : string) :
  length row = length cols ->
  cell_at (cols ++ fresh) (row ++ map (fun _ => NaN) fresh) c = cell_at cols row c.
Proof.
  intros Hlen. unfold cell_at. destruct (position c cols) as [i|] eqn:E.
  - rewrite (position_app_l _ _ fresh _ E). apply app_nth1.
    rewrite Hlen. now apply (position_lt c).
  - rewrite (position_app_r _ _ fresh E).
    destruct (position c fresh) as [j|]; cbn [option_map]; [|reflexivity].
    rewrite app_nth2 by lia. apply nth_missing.
Qed.

Lemma cell_at_map (f : string -> cell) (l : list string) (c : string) :
  cell_at l (map f l) c = match position c l with Some _ => f c | None => NaN end.
Proof.
  unfold cell_at. destruct (position c l) as [i|] eqn:E; [|reflexivity].
  revert i E. induction l as [|y l IH]; intros i; cbn [position map]; [discriminate |].
  destruct (String.eqb_spec y c) as [->|Hne].
  - now intros [= <-].
  - destruct (position c l) as [j|]; cbn [option_map]; [|discriminate].
    intros [= <-]. cbn [nth]. now apply IH.
Qed.

Lemma record_cell_missing (rec : list (string * cell)) (c : string) :
  ~ In c (dict_keys rec) -> record_cell rec c = NaN.
Proof.
  intros Hc. unfold record_cell. destruct (dict_get rec c) eqn:E; [|reflexivity].
  exfalso. apply Hc. now apply (dict_get_keys _ _ _ E).
Qed.

Lemma Forall2_map_l (A B C : Type) (P : A -> C -> Prop) (Q : B -> C -> Prop)
    (g : A -> B) (l : list A) (k : list C) :
  (forall x y, P x y -> Q (g x) y) -> Forall2 P l k -> Forall2 Q (map g l) k.
Proof. intros Hg H. induction H; cbn [map]; constructor; auto. Qed.

Lemma append_record_holds (df : DataFrame) (rec : list (string * cell))
    (done : list (list (string * cell))) :
  holds_records df done -> NoDup (dict_keys rec) ->
  holds_records (df_append_record df rec) (done ++ [rec]).
Proof.
  intros (Hnd & Hrows) Hrec. unfold holds_records, df_append_record.
  cbn [df_columns df_rows].
  set (fresh := filter (fun k => negb (mem_string k (df_columns df)))
                       (dict_keys rec)).
  split.
  - apply NoDup_app. split; [assumption |]. split.
    + intros x Hx Hf. unfold fresh in Hf.
      apply list_elem_of_filter in Hf as (Hf & _).
      apply list_elem_of_In in Hx.
      assert (E : mem_string x (df_columns df) = true).
      { unfold mem_string. apply existsb_exists. exists x. split; [assumption |].
        apply String.eqb_refl. }
      rewrite E in Hf. exact Hf.
    + unfold fresh. now apply NoDup_filter.
  - rewrite relabel_snd, map_app, map_map. cbn [map snd].
    apply Forall2_app.
    + rewrite <- (map_map snd (fun x => x ++ map (fun _ : string => NaN) fresh)).
      eapply Forall2_map_l; [|exact Hrows].
      intros row r (Hlen & Hcells). split.
      * rewrite !length_app, length_map. now rewrite Hlen.
      * intros c. now rewrite cell_at_extend, Hcells.
    + constructor; [|constructor]. split; [now rewrite length_map |].
      intros c. fold (record_cell rec).
      change (map (fun c0 => record_cell rec c0) (df_columns df ++ fresh))
        with (map (record_cell rec) (df_columns df ++ fresh)).
      rewrite cell_at_map.
      destruct (position c (df_columns df ++ fresh)) eqn:E; [reflexivity |].
      symmetry. apply record_cell_missing. intros Hin.
      apply position_None in E. apply E.
      apply (append_record_columns df rec c). now right.
Qed.

Lemma appended_holds (recs : list (list (string * cell))) :
  forall df done,
    holds_records df done -> Forall (fun rec => NoDup (dict_keys rec)) recs ->
    holds_records (fold_left df_append_record recs df) (done ++ recs).
Proof.
  induction recs as [|rec recs IH]; intros df done Hdf Hrecs; cbn [fold_left].
  - now rewrite app_nil_r.
  - inversion Hrecs as [|? ? Hrec Hrest]; subst.
    replace (done ++ rec :: recs) with ((done ++ [rec]) ++ recs)
      by now rewrite <- app_assoc.
    apply IH; [|assumption]. now apply append_record_holds.
Qed.

Lemma read_raw_data_malformed
    (w : world) (path : string) (recs : list (list (string * cell)))
    (message : string) (rest : list jsonl) (s : state) :
  raw_files w !! path = Some (map JRecord recs ++ JBad message :: rest) ->
  read_raw_data w path s
  = (Ok (appended recs),
     add_error s ("Analyzer: invalid raw data fomat - " +:+ message
                    +:+ " (line " +:+ pretty (S (length recs)) +:+ ")")).
Proof.
  intros Hfile. unfold read_raw_data, read_raw_data_try.
  rewrite Hfile, read_records_app. cbn [read_records]. reflexivity.
Qed.

Lemma appended_table (recs : list (list (string * cell))) :
  Forall (fun rec => NoDup (dict_keys rec)) recs ->
  df_index (appended recs) = numbered (length recs) /\
  NoDup (df_columns (appended recs)) /\
  (forall c, In c (df_columns (appended recs))
             <-> exists rec, In rec recs /\ In c (dict_keys rec)) /\
  Forall2 (fun row rec =>
             length row = length (df_columns (appended recs)) /\
             forall c, cell_at (df_columns (appended recs)) row c = record_cell rec c)
          (map snd (df_rows (appended recs))) recs.
Proof.
  intros Hkeys.
  assert (Hinv : holds_records (appended recs) recs).
  { apply (appended_holds recs df_empty []); [|assumption].
    split; [apply NoDup_nil_2 | constructor]. }
  destruct Hinv as (Hnd & Hrows).
  split; [exact (proj2 (appended_rows recs df_empty eq_refl)) |].
  split; [exact Hnd |]. split; [|exact Hrows].
  intros c. unfold appended. rewrite appended_columns. cbn [df_columns df_empty In].
  tauto.
Qed.

(** X12: a malformed line stops the loader where it stands.  With a line
    the reader refuses after some records (of distinct keys each),
    [read_raw_data] logs the message of the reader with the number of that
    line, whatever the lines after it, and returns the table of the records
    before it as the loop has built it: one row a record, in file order and
    still numbered from 0; the columns are the keys of these records, [node]
    among them if a record has it; the cell under a column is the record's
    value for the key, missing where the record has no such key. *)
Theorem X12_malformed_line_partial_table
    (w : world) (path : string) (recs : list (list (string * cell)))
    (message : string) (rest : list jsonl) (s : state) :
  raw_files w !! path = Some (map JRecord recs ++ JBad message :: rest) ->
  Forall (fun rec => NoDup (dict_keys rec)) recs ->
  exists df,
    read_raw_data w path s
    = (Ok df,
       add_error s ("Analyzer: invalid raw data fomat - " +:+ message
                      +:+ " (line " +:+ pretty (S (length recs)) +:+ ")")) /\
    df_index df = numbered (length recs) /\
    NoDup (df_columns df) /\
    (forall c, In c (df_columns df) <-> exists rec, In rec recs /\ In c (dict_keys rec)) /\
    Forall2 (fun row rec =>
               length row = length (df_columns df) /\
               forall c, cell_at (df_columns df) row c = record_cell rec c)
            (map snd (df_rows df)) recs.
Proof.
  intros Hfile Hkeys. exists (appended recs).
  split; [now apply (read_raw_data_malformed w path recs message rest)
         | now apply appended_table].
Qed.

Lemma X12_malformed_line_witness :
  exists df,
    read_raw_data
      (the_world (JRecord [("node", Str "n1"); ("foo", Num 1)] :: bad_first_line))
      "raw.jsonl" (init_state ∅)
    = (Ok df,
       add_error (init_state ∅)
         "Analyzer: invalid raw data fomat - line contains invalid json: Expecting value: line 1 column 1 (char 0) (line 2)") /\
    df_index df = [Num 0] /\
    (In "node" (df_columns df) /\ In "foo" (df_columns df)).
Proof.
  destruct (X12_malformed_line_partial_table
              (the_world (JRecord [("node", Str "n1"); ("foo", Num 1)] :: bad_first_line))
              "raw.jsonl" [[("node", Str "n1"); ("foo", Num 1)]] invalid_json two_nodes
              (init_state ∅))
    as (df & H & Hidx & _ & Hcols & _).
  - vm_compute. reflexivity.
  - repeat constructor; intros H; apply list_elem_of_In in H; cbn in H;
      intuition discriminate.
  - exists df. split; [exact H |]. split; [exact Hidx |].
    split; apply Hcols; eexists; (split; [left; reflexivity | cbn; tauto]).
Defined.

(** X13: a file without any [node] field is reported as badly formed.
    When the lines are all records (of distinct keys each) and none has the
    key [node], [read_raw_data] logs the key error of [raw_data_df['node']]
    and returns the table as the loop has built it: one row a record, in
    file order and numbered from 0, the columns being the keys of the
    records and the cells their values. *)
Theorem X13_no_node_field
    (w : world) (path : string) (recs : list (list (string * cell))) (s : state) :
  raw_files w !! path = Some (map JRecord recs) ->
  Forall (fun rec => NoDup (dict_keys rec)) recs ->
  Forall (fun rec => ~ In "node" (dict_keys rec)) recs ->
  exists df,
    read_raw_data w path s
    = (Ok df, add_error s "Analyzer: invalid raw data fomat - 'node'") /\
    df_index df = numbered (length recs) /\
    NoDup (df_columns df) /\
    (forall c, In c (df_columns df) <-> exists rec, In rec recs /\ In c (dict_keys rec)) /\
    Forall2 (fun row rec =>
               length row = length (df_columns df) /\
               forall c, cell_at (df_columns df) row c = record_cell rec c)
            (map snd (df_rows df)) recs.
Proof.
  intros Hfile Hkeys Hnone. exists (appended recs).
  split; [|now apply appended_table].
  unfold read_raw_data, read_raw_data_try. rewrite Hfile.
  rewrite <- (app_nil_r (map JRecord recs)), read_records_app. cbn [read_records].
  fold (appended recs). unfold df_column.
  assert (Hpos : position "node" (df_columns (appended recs)) = None).
  { apply position_None. unfold appended. rewrite appended_columns.
    intros [[]|(rec & Hin & Hk)].
    exact (proj1 (List.Forall_forall _ _) Hnone rec Hin Hk). }
  rewrite Hpos. reflexivity.
Qed.

Lemma X13_no_node_field_witness :
  exists df,
    read_raw_data (the_world [JRecord [("foo", Num 1)]; JRecord [("bar", Num 2)]])
      "raw.jsonl" (init_state ∅)
    = (Ok df, add_error (init_state ∅) "Analyzer: invalid raw data fomat - 'node'") /\
    df_index df = [Num 0; Num 1] /\
    (In "foo" (df_columns df) /\ In "bar" (df_columns df)).
Proof.
  destruct (X13_no_node_field
              (the_world [JRecord [("foo", Num 1)]; JRecord [("bar", Num 2)]])
              "raw.jsonl" [[("foo", Num 1)]; [("bar", Num 2)]] (init_state ∅))
    as (df & H & Hidx & _ & Hcols & _).
  - vm_compute. reflexivity.
  - repeat constructor; intros H; apply list_elem_of_In in H; cbn in H;
      intuition discriminate.
  - repeat constructor; cbn; intuition discriminate.
  - exists df. split; [exact H |]. split; [exact Hidx |]. split; apply Hcols.
    + eexists. split; [left; reflexivity | cbn; tauto].
    + eexists. split; [right; left; reflexivity | cbn; tauto].
Defined.




(** The file test is outside the [try]: where [Path.is_file] fails, the
    loader raises its [OSError] and logs nothing. *)
Lemma read_raw_data_stat_error (w : world) (path msg : string) (s : state) :
  raw_files w !! path = None -> stat_errors w !! path = Some msg ->
  read_raw_data w path s = (Raise (OSError msg), s).
Proof.
  intros Hnone Hstat. unfold read_raw_data, is_file_missing.
  now rewrite Hnone, Hstat.
Qed.

Lemma relabel_with_map (f : cell * list cell -> cell) (rows : list (cell * list cell)) :
  relabel_with (map f rows) rows = map (fun r => (f r, snd r)) rows.
Proof.
  induction rows as [|r rows IH]; cbn [map relabel_with]; [reflexivity |].
  now rewrite IH.
Qed.

Lemma cell_at_nil (cols : list string) (c : string) : cell_at cols [] c = NaN.
Proof. unfold cell_at. destruct (position c cols) as [[|i]|]; reflexivity. Qed.

Lemma cell_at_remove (x c : string) (cols : list string) :
  forall i row,
    position x cols = Some i -> c <> x ->
    cell_at (remove_nth i cols) (remove_nth i row) c = cell_at cols row c.
Proof.
  induction cols as [|y cols IH]; intros i row; cbn [position]; [discriminate |].
  destruct (String.eqb_spec y x) as [->|Hyx].
  - intros [= <-] Hc. unfold cell_at. cbn [position remove_nth].
    destruct (String.eqb_spec x c) as [->|_]; [contradiction |].
    destruct row as [|a row]; cbn [remove_nth].
    + destruct (position c cols) as [[|j]|]; reflexivity.
    + destruct (position c cols) as [j|]; reflexivity.
  - destruct (position x cols) as [j|] eqn:E; cbn [option_map]; [|discriminate].
    intros [= <-] Hc. destruct row as [|a row]; cbn [remove_nth].
    + now rewrite !cell_at_nil.
    + specialize (IH j row eq_refl Hc). unfold cell_at in *. cbn [position].
      destruct (String.eqb y c); [reflexivity |].
      destruct (position c (remove_nth j cols)) as [k|];
        destruct (position c cols) as [k'|]; cbn [option_map nth]; exact IH.
Qed.

Lemma remove_nth_In (x c : string) (cols : list string) :
  forall i,
    NoDup cols -> position x cols = Some i ->
    In c (remove_nth i cols) <-> c <> x /\ In c cols.
Proof.
  induction cols as [|y cols IH]; intros i Hnd; cbn [position]; [discriminate |].
  apply NoDup_cons in Hnd as (Hy & Hnd). rewrite list_elem_of_In in Hy.
  destruct (String.eqb_spec y x) as [->|Hyx].
  - intros [= <-]. cbn [remove_nth In]. split.
    + intros Hc. split; [|now right]. intros ->. contradiction.
    + intros (Hc & [E|Hin]); [congruence | assumption].
  - destruct (position x cols) as [j|] eqn:E; cbn [option_map]; [|discriminate].
    intros [= <-]. cbn [remove_nth In]. rewrite (IH j Hnd eq_refl). split.
    + intros [->|(Hc & Hin)]; [split; [assumption | now left] | split; [assumption | now right]].
    + intros (Hc & [E'|Hin]); [now left | right; auto].
Qed.

Lemma remove_nth_sub (A : Type) (l : list A) (c : A) :
  forall i, In c (remove_nth i l) -> In c l.
Proof.
  induction l as [|y l IH]; intros [|i]; cbn [remove_nth In]; try tauto.
  intros [E|H]; [now left | right; eauto].
Qed.

Lemma remove_nth_NoDup (A : Type) (l : list A) :
  forall i, NoDup l -> NoDup (remove_nth i l).
Proof.
  induction l as [|y l IH]; intros [|i] Hnd; cbn [remove_nth]; try assumption.
  - apply NoDup_cons in Hnd. tauto.
  - apply NoDup_cons in Hnd as (Hy & Hnd). apply NoDup_cons. split; [|now apply IH].
    rewrite list_elem_of_In in *. intros H. apply Hy. now apply (remove_nth_sub _ _ _ i).
Qed.

Lemma remove_nth_length (A : Type) (l : list A) :
  forall i, (i < length l)%nat -> length (remove_nth i l) = pred (length l).
Proof.
  induction l as [|y l IH]; intros [|i]; cbn [remove_nth length]; try lia.
  intros H. rewrite IH by lia. lia.
Qed.

(** X14: the loader gives back the records it read.  For a file whose
    lines are all records with distinct keys, one of them at least with the
    key [node], [read_raw_data] logs nothing and returns a table with one
    row a record, in file order: the row is labelled by the record's
    [node], the columns are distinct and are the keys of the records other
    than [node], and the cell under a column is the record's value for
    that key, missing where the record has no such key. *)
Theorem X14_raw_data_round_trip
    (w : world) (path : string) (recs : list (list (string * cell))) (s : state) :
  raw_files w !! path = Some (map JRecord recs) ->
  Forall (fun rec => NoDup (dict_keys rec)) recs ->
  Exists (fun rec => In "node" (dict_keys rec)) recs ->
  exists df,
    read_raw_data w path s = (Ok df, s) /\
    df_index df = map (fun rec => record_cell rec "node") recs /\
    NoDup (df_columns df) /\
    (forall c, In c (df_columns df)
               <-> c <> "node" /\ exists rec, In rec recs /\ In c (dict_keys rec)) /\
    Forall2 (fun row rec =>
               length row = length (df_columns df) /\
               forall c, c <> "node" ->
                         cell_at (df_columns df) row c = record_cell rec c)
            (map snd (df_rows df)) recs.
Proof.
  intros Hfile Hkeys Hnode.
  assert (Hinv : holds_records (appended recs) recs).
  { apply (appended_holds recs df_empty []); [|assumption].
    split; [apply NoDup_nil_2 | constructor]. }
  destruct Hinv as (Hnd & Hrows).
  assert (Hcols : forall c, In c (df_columns (appended recs))
                            <-> exists rec, In rec recs /\ In c (dict_keys rec)).
  { intros c. unfold appended. rewrite appended_columns. cbn [df_columns df_empty In].
    tauto. }
  destruct (position "node" (df_columns (appended recs))) as [i|] eqn:Hpos.
  2:{ exfalso. apply position_None in Hpos. apply Hpos, Hcols.
      apply List.Exists_exists in Hnode. exact Hnode. }
  set (df := appended recs) in *.
  exists (mkDF (remove_nth i (df_columns df))
               (map (fun r => (nth i (snd r) NaN, remove_nth i (snd r))) (df_rows df))).
  assert (Hcell : forall row, cell_at (df_columns df) row "node" = nth i row NaN).
  { intros row. unfold cell_at. now rewrite Hpos. }
  split; [|split; [|split; [|split]]].
  - unfold read_raw_data, read_raw_data_try. rewrite Hfile.
    rewrite <- (app_nil_r (map JRecord recs)), read_records_app. cbn [read_records].
    fold (appended recs). fold df. unfold df_column. rewrite Hpos.
    unfold df_drop_column, df_rename. cbn [df_columns df_rows]. rewrite Hpos.
    rewrite (relabel_with_map (fun r => nth i (snd r) NaN)), map_map. reflexivity.
  - unfold df_index. cbn [df_rows]. rewrite map_map. cbn [fst].
    rewrite <- (map_map snd (fun row => nth i row NaN)).
    clearbody df. clear - Hrows Hcell.
    induction Hrows as [|row rec rows recs (_ & Hc) _ IH]; cbn [map]; [reflexivity |].
    now rewrite IH, <- Hc, Hcell.
  - cbn [df_columns]. now apply remove_nth_NoDup.
  - intros c. cbn [df_columns]. rewrite (remove_nth_In "node" c _ i Hnd Hpos), Hcols.
    reflexivity.
  - cbn [df_columns df_rows]. rewrite map_map. cbn [snd].
    rewrite <- (map_map snd (remove_nth i)).
    eapply Forall2_map_l; [|exact Hrows].
    intros row rec (Hlen & Hc). split.
    + rewrite !remove_nth_length; [now rewrite Hlen | now apply (position_lt "node") |].
      rewrite Hlen. now apply (position_lt "node").
    + intros c Hne. rewrite (cell_at_remove "node" c _ i row Hpos Hne). apply Hc.
Qed.

Lemma X14_raw_data_round_trip_witness :
  exists df,
    read_raw_data (the_world two_nodes) "raw.jsonl" (init_state ∅)
    = (Ok df, init_state ∅).
Proof.
  destruct (X14_raw_data_round_trip (the_world two_nodes) "raw.jsonl"
              (flat_map (fun l => match l with JRecord r => [r] | JBad _ => [] end) two_nodes)
              (init_state ∅)) as (df & H & _).
  - vm_compute. reflexivity.
  - repeat constructor; intros H; apply list_elem_of_In in H; cbn in H;
      intuition discriminate.
  - apply Exists_cons_hd. cbn. tauto.
  - exists df. exact H.
Defined.

(** ** Merged cells of a sheet *)

Lemma rows_with_app (value_of : nat -> string) (v : string) (l k : list nat) :
  rows_with value_of v (l ++ k) = rows_with value_of v l ++ rows_with value_of v k.
Proof. unfold rows_with. apply List.filter_app. Qed.

Lemma record_row_span (value_of : nat -> string)
    (d : list (string * (nat * nat))) (done : list nat) (i : nat) :
  (forall v, dict_get d v = span (rows_with value_of v done)) ->
  forall v, dict_get (record_row value_of d i) v
            = span (rows_with value_of v (done ++ [i])).
Proof.
  intros Hd v. rewrite rows_with_app. unfold record_row. rewrite (Hd (value_of i)).
  unfold rows_with at 3. cbn [List.filter].
  destruct (String.eqb_spec (value_of i) v) as [<-|Hne].
  - destruct (rows_with value_of (value_of i) done) as [|a rest];
      cbn [span app]; rewrite dict_get_set_eq; cbn [length].
    + now rewrite Nat.add_0_r.
    + rewrite length_app. cbn [length]. do 2 f_equal. lia.
  - rewrite app_nil_r.
    destruct (span (rows_with value_of (value_of i) done)) as [[first last]|];
      rewrite dict_get_set_ne by assumption; apply Hd.
Qed.

Lemma record_rows_span (value_of : nat -> string) (rows : list nat) :
  forall d done,
    (forall v, dict_get d v = span (rows_with value_of v done)) ->
    forall v, dict_get (fold_left (record_row value_of) rows d) v
              = span (rows_with value_of v (done ++ rows)).
Proof.
  induction rows as [|i rows IH]; intros d done Hd v; cbn [fold_left].
  - now rewrite app_nil_r.
  - replace (done ++ i :: rows) with ((done ++ [i]) ++ rows) by now rewrite <- app_assoc.
    apply IH. now apply record_row_span.
Qed.

Lemma ranges_of_span (value_of : nat -> string) (row : nat) (v : string) :
  dict_get (ranges_of value_of row) v = span (rows_with value_of v (seq 1 row)).
Proof.
  unfold ranges_of. now apply (record_rows_span value_of (seq 1 row) [] []).
Qed.

(** X15: what the first loop of [merge_column_in_excel] records.  For
    every text, [dict_from] holds no entry when the text is in no row of
    the column, and else the pair of the first row that holds it and of
    that row plus the number of further rows that hold it, wherever in the
    column those further rows are. *)
Theorem X15_ranges_count_occurrences (value_of : nat -> string) (row : nat) (v : string) :
  dict_get (ranges_of value_of row) v
  = match List.filter (fun i => String.eqb (value_of i) v) (seq 1 row) with
    | [] => None
    | first :: further => Some (first, (first + length further)%nat)
    end.
Proof. exact (ranges_of_span value_of row v). Qed.

Lemma dict_set_NoDup {A} (d : list (string * A)) (k : string) (v : A) :
  NoDup (dict_keys d) -> NoDup (dict_keys (dict_set d k v)).
Proof.
  intros Hnd. rewrite dict_keys_set. destruct (dict_mem d k) eqn:E; [assumption |].
  apply NoDup_app. split; [assumption |]. split; [|apply NoDup_singleton].
  intros x Hx Hk. apply list_elem_of_In in Hx, Hk. destruct Hk as [<-|[]].
  apply dict_mem_keys in Hx. congruence.
Qed.

Lemma dict_In_get {A} (d : list (string * A)) (k : string) (v : A) :
  NoDup (dict_keys d) -> In (k, v) d -> dict_get d k = Some v.
Proof.
  induction d as [|[k0 v0] d IH]; cbn [dict_keys map fst In dict_get]; [tauto |].
  intros Hnd. apply NoDup_cons in Hnd as (Hk0 & Hnd). intros [[= -> ->]|Hin].
  - now rewrite String.eqb_refl.
  - destruct (String.eqb_spec k0 k) as [->|_]; [|now apply IH].
    exfalso. apply Hk0, list_elem_of_In. change k with (fst (k, v)). now apply in_map.
Qed.

Lemma ranges_NoDup (value_of : nat -> string) (rows : list nat) :
  forall d, NoDup (dict_keys d) ->
            NoDup (dict_keys (fold_left (record_row value_of) rows d)).
Proof.
  induction rows as [|i rows IH]; intros d Hd; cbn [fold_left]; [assumption |].
  apply IH. unfold record_row.
  destruct (dict_get d (value_of i)) as [[first last]|]; now apply dict_set_NoDup.
Qed.

Lemma filter_seq_bounds (p : nat -> bool) (n : nat) :
  forall s a rest,
    List.filter p (seq s n) = a :: rest ->
    (s <= a)%nat /\ (a + length rest < s + n)%nat.
Proof.
  induction n as [|n IH]; intros s a rest; cbn [seq List.filter]; [discriminate |].
  destruct (p s).
  - intros [= <- <-]. split; [lia |].
    pose proof (List.filter_length_le p (seq (S s) n)) as Hle.
    rewrite length_seq in Hle. lia.
  - intros H. apply IH in H. lia.
Qed.

Lemma merge_cells_fold (rgs : list (nat * nat * nat * nat)) :
  forall ws,
    ws_merged (fold_left merge_cells rgs ws) = ws_merged ws ++ rgs /\
    ws_centered (fold_left merge_cells rgs ws) = ws_centered ws /\
    forall i j,
      ws_value (fold_left merge_cells rgs ws) i j
      = if existsb (fun rg => below_top rg i j) rgs then "None" else ws_value ws i j.
Proof.
  induction rgs as [|rg rgs IH]; intros ws; cbn [fold_left existsb].
  - now rewrite app_nil_r.
  - destruct (IH (merge_cells ws rg)) as (Hm & Hc & Hv). split; [|split].
    + rewrite Hm. cbn [merge_cells ws_merged]. now rewrite <- app_assoc.
    + exact Hc.
    + intros i j. rewrite Hv. cbn [merge_cells ws_value].
      destruct (below_top rg i j); cbn [orb]; [|reflexivity].
      now destruct (existsb _ rgs).
Qed.

Lemma merges_added_eq (ws : worksheet) (row column : nat) :
  merges_added ws row column
  = flat_map (fun kv => if (fst (snd kv) =? snd (snd kv))%nat then []
                        else [(fst (snd kv), column, snd (snd kv), column)])
             (ranges_of (fun i => ws_value ws i column) row).
Proof.
  unfold merges_added, merge_column_in_excel. cbn [ws_merged].
  rewrite (proj1 (merge_cells_fold _ ws)).
  now rewrite skipn_app, skipn_all, Nat.sub_diag.
Qed.

Lemma merges_added_spec (ws : worksheet) (row column a c b c' : nat) :
  In (a, c, b, c') (merges_added ws row column) ->
  c = column /\ c' = column /\ a <> b /\
  exists rest,
    rows_with (fun i => ws_value ws i column) (ws_value ws a column) (seq 1 row)
    = a :: rest /\
    b = (a + length rest)%nat.
Proof.
  rewrite merges_added_eq.
  intros Hin. apply in_flat_map in Hin as ([v [first last]] & Hd & Hin).
  cbn [fst snd] in Hin. destruct (Nat.eqb_spec first last) as [|Hne]; [destruct Hin |].
  destruct Hin as [[= <- <- <- <-]|[]].
  apply dict_In_get in Hd.
  2:{ apply ranges_NoDup. cbn. apply NoDup_nil_2. }
  rewrite ranges_of_span in Hd.
  destruct (rows_with _ v (seq 1 row)) as [|a' rest] eqn:E; [discriminate |].
  cbn [span] in Hd. injection Hd as <- <-.
  assert (Hv : ws_value ws a' column = v).
  { assert (Hin : In a' (rows_with (fun i => ws_value ws i column) v (seq 1 row)))
      by (rewrite E; now left).
    unfold rows_with in Hin. apply List.filter_In in Hin as (_ & Hin).
    now apply String.eqb_eq in Hin. }
  rewrite Hv. repeat split; try assumption. now exists rest.
Qed.

Lemma merged_values (ws : worksheet) (row column i j : nat) :
  ws_value (merge_column_in_excel ws row column) i j
  = if existsb (fun rg => below_top rg i j) (merges_added ws row column)
    then "None" else ws_value ws i j.
Proof.
  rewrite merges_added_eq. unfold merge_column_in_excel. cbn [ws_value].
  apply merge_cells_fold.
Qed.

(** X16: the merges stay inside the column.  Every range
    [merge_column_in_excel] adds to the sheet lies in the column given,
    starts at a row from 1 on, ends at a later row not after [row], and
    spans as many rows as hold the text of its first row.  The cells of a
    range below its first row have lost their value, which reads [None];
    a cell of another column, or of a row that is in no added range below
    its first row, keeps its value. *)
Theorem X16_merges_within_column (ws : worksheet) (row column : nat) :
  (forall a c b c',
      In (a, c, b, c') (merges_added ws row column) ->
      c = column /\ c' = column /\ (1 <= a < b)%nat /\ (b <= row)%nat /\
      length (rows_with (fun i => ws_value ws i column) (ws_value ws a column)
                        (seq 1 row))
      = S (b - a) /\
      forall i, (a < i <= b)%nat ->
                ws_value (merge_column_in_excel ws row column) i column = "None") /\
  (forall i j,
      (j <> column \/
       forall a c b c', In (a, c, b, c') (merges_added ws row column) ->
                        ~ (a < i <= b)%nat) ->
      ws_value (merge_column_in_excel ws row column) i j = ws_value ws i j).
Proof.
  split.
  - intros a c b c' Hin. pose proof Hin as Hspec.
    apply merges_added_spec in Hspec as (-> & -> & Hne & rest & Hrows & ->).
    rewrite Hrows. unfold rows_with in Hrows. apply filter_seq_bounds in Hrows.
    cbn [length]. repeat (split; [lia |]).
    intros i Hi. rewrite merged_values.
    assert (E : existsb (fun rg => below_top rg i column) (merges_added ws row column)
                = true).
    { apply existsb_exists. eexists. split; [exact Hin |]. cbn [below_top].
      rewrite !andb_true_iff, negb_true_iff, andb_false_iff, !Nat.leb_le, Nat.eqb_neq.
      split; [lia | left; lia]. }
    now rewrite E.
  - intros i j Hfree. rewrite merged_values.
    destruct (existsb _ (merges_added ws row column)) eqn:E; [|reflexivity].
    exfalso. apply existsb_exists in E as ([[[a c] b] c'] & Hin & Hb).
    pose proof Hin as Hspec.
    apply merges_added_spec in Hspec as (-> & -> & _).
    cbn [below_top] in Hb.
    rewrite !andb_true_iff, negb_true_iff, andb_false_iff, !Nat.leb_le, Nat.eqb_neq in Hb.
    destruct Hb as (Hin_range & [Hrow|Hcol]).
    2:{ apply Nat.eqb_neq in Hcol. lia. }
    destruct Hfree as [Hj|Hrows]; [lia |].
    apply (Hrows _ _ _ _ Hin). lia.
Qed.

Lemma filter_none (p : nat -> bool) (l : list nat) :
  (forall x, In x l -> p x = false) -> List.filter p l = [].
Proof.
  induction l as [|x l IH]; intros H; cbn [List.filter]; [reflexivity |].
  rewrite (H x) by now left. apply IH. intros y Hy. apply H. now right.
Qed.

Lemma filter_seq_initial (p : nat -> bool) (n : nat) :
  forall s,
    (forall j k, (s <= j)%nat -> (j <= k)%nat -> (k < s + n)%nat ->
                 p k = true -> p j = true) ->
    List.filter p (seq s n) = seq s (length (List.filter p (seq s n))).
Proof.
  induction n as [|n IH]; intros s Hdown; cbn [seq List.filter]; [reflexivity |].
  destruct (p s) eqn:E.
  - cbn [length seq]. f_equal. apply IH. intros j k H1 H2 H3. apply Hdown; lia.
  - rewrite filter_none; [reflexivity |].
    intros x Hx. apply in_seq in Hx. destruct (p x) eqn:Ex; [|reflexivity].
    rewrite <- E. symmetry. apply (Hdown s x); [lia | lia | lia | assumption].
Qed.

Lemma filter_seq_interval (p : nat -> bool) (n : nat) :
  forall s a rest,
    (forall i j k, (s <= i)%nat -> (i <= j)%nat -> (j <= k)%nat -> (k < s + n)%nat ->
                   p i = true -> p k = true -> p j = true) ->
    List.filter p (seq s n) = a :: rest ->
    a :: rest = seq a (S (length rest)).
Proof.
  induction n as [|n IH]; intros s a rest Hc; cbn [seq List.filter]; [discriminate |].
  destruct (p s) eqn:E.
  - intros [= <- <-]. cbn [seq]. f_equal. apply filter_seq_initial.
    intros j k H1 H2 H3 Hk. apply (Hc s j k); try lia; assumption.
  - apply IH. intros i j k H1 H2 H3 H4. apply Hc; lia.
Qed.

(** X17: on a column whose equal texts are next to each other, the merges
    are exact.  When every row that lies between two rows of the same text
    holds that text too, each range [merge_column_in_excel] adds covers the
    rows that hold the text of its first row, and no other row. *)
Theorem X17_merges_exact_when_contiguous (ws : worksheet) (row column : nat) :
  (forall i j k, (1 <= i)%nat -> (i <= j)%nat -> (j <= k)%nat -> (k <= row)%nat ->
                 ws_value ws i column = ws_value ws k column ->
                 ws_value ws j column = ws_value ws i column) ->
  forall a c b c',
    In (a, c, b, c') (merges_added ws row column) ->
    forall i, (a <= i <= b)%nat
              <-> (1 <= i <= row)%nat /\ ws_value ws i column = ws_value ws a column.
Proof.
  intros Hc a c b c' Hin i.
  apply merges_added_spec in Hin as (_ & _ & _ & rest & Hrows & ->).
  unfold rows_with in Hrows.
  assert (Hseq : a :: rest = seq a (S (length rest))).
  { eapply (filter_seq_interval _ row 1 a rest); [|exact Hrows].
    cbv beta. intros x y z H1 H2 H3 H4 Hx Hz. apply String.eqb_eq in Hx, Hz.
    apply String.eqb_eq. rewrite (Hc x y z) by (try lia; congruence). exact Hx. }
  assert (Hmem : In i (a :: rest)
                 <-> (1 <= i <= row)%nat /\ ws_value ws i column = ws_value ws a column).
  { rewrite <- Hrows, List.filter_In, in_seq, String.eqb_eq. split; intros (H1 & H2);
      (split; [lia | assumption]). }
  rewrite <- Hmem, Hseq, in_seq. lia.
Qed.

Lemma X16_merges_within_column_witness :
  merges_added sheet_example 4 1 = [(1, 1, 2, 1); (3, 1, 4, 1)]%nat /\
  (4 <= 4)%nat /\
  ws_value (merge_column_in_excel sheet_example 4 1) 4 1 = "None" /\
  ws_value (merge_column_in_excel sheet_example 4 1) 3 1 = "b".
Proof.
  split; [vm_compute; reflexivity |].
  destruct (X16_merges_within_column sheet_example 4 1) as (H & Hkeep).
  destruct (H 3 1 4 1)%nat as (_ & _ & _ & Hb & _ & Hnone).
  - vm_compute. right. now left.
  - split; [exact Hb |]. split; [apply Hnone; lia |].
    rewrite Hkeep; [reflexivity |]. right.
    intros a c b c' Hin. vm_compute in Hin.
    destruct Hin as [[= <- <- <- <-]|[[= <- <- <- <-]|[]]]; lia.
Defined.

Lemma X17_merges_exact_witness :
  (3 <= 4 <= 4)%nat
  <-> (1 <= 4 <= 4)%nat /\ ws_value sheet_example 4 1%nat = ws_value sheet_example 3 1%nat.
Proof.
  refine (X17_merges_exact_when_contiguous sheet_example 4%nat 1%nat _
            3%nat 1%nat 4%nat 1%nat _ 4%nat).
  - intros i j k H1 H2 H3 H4.
    assert (Hi : (i = 1 \/ i = 2 \/ i = 3 \/ i = 4)%nat) by lia.
    assert (Hj : (j = 1 \/ j = 2 \/ j = 3 \/ j = 4)%nat) by lia.
    assert (Hk : (k = 1 \/ k = 2 \/ k = 3 \/ k = 4)%nat) by lia.
    destruct Hi as [->|[->|[->| ->]]]; destruct Hj as [->|[->|[->| ->]]];
      destruct Hk as [->|[->|[->| ->]]]; cbn; intros H;
      first [reflexivity | discriminate H | lia].
  - vm_compute. right. now left.
Defined.

(** ** The markdown and html writers *)

Section WritersFacts.

Variable str_float : Q -> string.
Variable str_object : value -> string.
Variable open_error : string -> option string.
Variable markdown : string -> string.

Lemma max_row_spec (data : list (list cell)) :
  forall best,
    (length best <= length (max_row best data))%nat /\
    Forall (fun r => (length r <= length (max_row best data))%nat) data /\
    (max_row best data = best \/ In (max_row best data) data).
Proof.
  induction data as [|r data IH]; intros best; cbn [max_row].
  - split; [lia |]. split; [constructor | now left].
  - destruct (Nat.ltb_spec (length best) (length r)) as [Hlt|Hge].
    + destruct (IH r) as (H1 & H2 & H3). split; [lia |]. split.
      * constructor; assumption.
      * right. destruct H3 as [->|H3]; [now left | now right].
    + destruct (IH best) as (H1 & H2 & H3). split; [lia |]. split.
      * constructor; [lia | assumption].
      * destruct H3 as [H3|H3]; [now left | right; now right].
Qed.

Lemma skipn_repeat (A : Type) (x : A) (n : nat) :
  forall w, skipn n (repeat x w) = repeat x (w - n).
Proof.
  induction n as [|n IH]; intros [|w]; cbn [skipn repeat Nat.sub]; auto.
Qed.

Lemma full_line_spec (w : nat) (l : list cell) :
  (length l <= w)%nat ->
  length (full_line str_float w l) = w /\
  firstn (length l) (full_line str_float w l) = map (str_cell str_float) l /\
  skipn (length l) (full_line str_float w l) = repeat " " (w - length l).
Proof.
  intros Hle. unfold full_line. rewrite skipn_repeat. split; [|split].
  - rewrite length_app, length_map, repeat_length. lia.
  - rewrite <- (length_map (str_cell str_float) l) at 1.
    rewrite firstn_app, firstn_all, Nat.sub_diag. cbn [firstn]. apply app_nil_r.
  - rewrite <- (length_map (str_cell str_float) l) at 1.
    rewrite skipn_app, skipn_all, Nat.sub_diag. reflexivity.
Qed.

(** X18: the shape of a markdown table.  On data that is not empty,
    [gen_md_table] returns two lines and then one line a row of the data.
    The width is the greatest length of a row; the header keeps all its
    cells and is filled with blanks when it has fewer than the width, the
    second line has the width in dashes, and a data line has the width in
    cells: the texts of the cells of the row, then blanks. *)
Theorem X18_md_table_shape (data : list (list cell)) (header : list string) :
  data <> [] ->
  exists w lines,
    gen_md_table str_float data header = Ok lines /\
    Forall (fun r => (length r <= w)%nat) data /\
    Exists (fun r => length r = w) data /\
    length lines = (2 + length data)%nat /\
    nth_error lines 0 = Some (md_line (header ++ repeat " " (w - length header))) /\
    nth_error lines 1 = Some (md_line (repeat "---" w)) /\
    forall i r,
      nth_error data i = Some r ->
      exists cells,
        nth_error lines (2 + i) = Some (md_line cells) /\
        length cells = w /\
        firstn (length r) cells = map (str_cell str_float) r /\
        skipn (length r) cells = repeat " " (w - length r).
Proof.
  destruct data as [|first rest]; [congruence |]. intros _.
  destruct (max_row_spec rest first) as (H1 & H2 & H3).
  exists (length (max_row first rest)). eexists. split; [reflexivity |].
  split; [constructor; assumption |]. split.
  { destruct H3 as [->|H3]; [now apply Exists_cons_hd |].
    apply Exists_cons_tl, List.Exists_exists. eauto. }
  split; [cbn [length]; now rewrite length_map |].
  split; [reflexivity |]. split; [reflexivity |].
  intros i r Hr. exists (full_line str_float (length (max_row first rest)) r).
  split.
  - change (nth_error (map (fun line => md_line (full_line str_float
                                                  (length (max_row first rest)) line))
                           (first :: rest)) i
            = Some (md_line (full_line str_float (length (max_row first rest)) r))).
    now rewrite nth_error_map, Hr.
  - apply full_line_spec.
    apply nth_error_In in Hr. destruct Hr as [<-|Hr]; [assumption |].
    exact (proj1 (List.Forall_forall _ _) H2 r Hr).
Qed.








(** X21: the html file is the markdown file converted.  Whenever
    [output_summary_in_md] writes a text to a path, [output_summary_in_html]
    writes [markdown] of that text to the path, with the same log; and
    whenever the former writes nothing, the latter writes nothing and logs
    one error.  Neither raises. *)
Theorem X21_html_converts_md (summary : summary_dict) (path : string) (s : state) :
  match output_summary_in_md str_float str_object open_error summary path s with
  | (Ok (Some (p, text)), s') =>
      output_summary_in_html str_float str_object open_error markdown summary path s
      = (Ok (Some (p, markdown text)), s')
  | (Ok None, _) =>
      exists msg,
        output_summary_in_html str_float str_object open_error markdown summary path s
        = (Ok None, add_error s msg)
  | (Raise _, _) => False
  end.
Proof.
  unfold output_summary_in_md, output_summary_in_html.
  destruct (gen_md_lines str_float str_object summary) as [[|l lines]|e];
    [eexists; reflexivity | | eexists; reflexivity].
  destruct (open_error path) as [msg|]; [eexists; reflexivity | reflexivity].
Qed.

End WritersFacts.

Lemma X18_md_table_shape_witness :
  exists w lines,
    gen_md_table (fun _ => "1.0") [[Str "foo"; Str "mean"; Num 1]; [Str "bar"]]
      ["metric"; "statistics"; "values"] = Ok lines /\
    w = 3%nat /\ length lines = 4%nat.
Proof.
  destruct (X18_md_table_shape (fun _ => "1.0")
              [[Str "foo"; Str "mean"; Num 1]; [Str "bar"]]
              ["metric"; "statistics"; "values"])
    as (w & lines & H & Hall & _ & Hlen & _); [discriminate |].
  exists 3%nat, lines. split; [exact H |]. split; [reflexivity | exact Hlen].
Defined.
